(** * cldfbench_jacquesestimative: the CSV-to-CLDF conversion, embedded in Rocq

    A shallow embedding of [cldfbench_jacquesestimative.py].

    - A Python [str] is a list of Unicode code points ([list N]); the
      string literals of the source are written [py "..."].
    - A Python [dict] is a [gmap]; a field that may hold a string, an
      integer, a list of strings or [None] is a [value].
    - A row read with [read_csv(..., dicts=True)] is a [raw_row]: a cell
      for each column of the header, [None] where the row is shorter
      than the header, and the cells beyond the header, if any.
    - The dataset writer [args.writer] is the framework's: its state and
      its two methods the conversion calls are parameters.
    - An uncaught exception ([KeyError], [TypeError], [AttributeError])
      aborts the run; a computation that may raise one returns [option],
      with [None] for the exception.
    - [print(..., file=sys.stderr)] appends one entry to a log.
    - [collections.OrderedDict] is an association list kept in insertion
      order; [collections.Counter] is a [gmap] to [Z] read with default 0. *)

From Stdlib Require Import NArith ZArith String Ascii.
From stdpp Require Import base option list gmap.

Local Open Scope N_scope.

(** ** Strings *)

Abbreviation pystr := (list N).

(** The code points of an ASCII literal of the source. *)
Definition py (s : string) : pystr :=
  (fun a : ascii => N_of_ascii a) <$> list_ascii_of_string s.

#[global] Arguments py : simpl never.

Definition LF : N := 10.
Definition SPACE : N := 32.
Definition BACKSLASH : N := 92.

(** [str.isspace] for one code point: the white space of the Unicode
    database as CPython reads it ([_PyUnicode_IsWhitespace]). *)
Definition isspace (c : N) : bool :=
  ((9 <=? c) && (c <=? 13)) || ((28 <=? c) && (c <=? 32))
  || (c =? 133) || (c =? 160) || (c =? 5760)
  || ((8192 <=? c) && (c <=? 8202))
  || (c =? 8232) || (c =? 8233) || (c =? 8239) || (c =? 8287) || (c =? 12288).

(** [s.startswith(p)]. *)
Fixpoint startswith (p s : pystr) : bool :=
  match p, s with
  | [], _ => true
  | _ :: _, [] => false
  | a :: p', b :: s' => (a =? b) && startswith p' s'
  end.

(** [p in s]: [p] occurs in [s] as a substring. *)
Fixpoint occurs (p s : pystr) : bool :=
  startswith p s || match s with [] => false | _ :: s' => occurs p s' end.

(** The scan of [str.replace] for a non-empty [old]: left to right, the
    occurrences that do not overlap.  [skip] counts the characters of the
    occurrence just replaced that are still to be passed over. *)
Fixpoint replace_from (old new : pystr) (skip : nat) (s : pystr) : pystr :=
  match s with
  | [] => []
  | c :: s' =>
      match skip with
      | S k => replace_from old new k s'
      | O =>
          if startswith old s
          then new ++ replace_from old new (length old - 1) s'
          else c :: replace_from old new 0 s'
      end
  end.

(** [s.replace(old, new)]; an empty [old] matches between any two
    characters and at both ends. *)
Definition replace (s old new : pystr) : pystr :=
  match old with
  | [] => new ++ flat_map (fun c => c :: new) s
  | _ :: _ => replace_from old new 0 s
  end.

Fixpoint drop_while (f : N -> bool) (s : pystr) : pystr :=
  match s with
  | [] => []
  | c :: s' => if f c then drop_while f s' else s
  end.

Definition lstrip (s : pystr) : pystr := drop_while isspace s.
Definition rstrip (s : pystr) : pystr := reverse (drop_while isspace (reverse s)).
Definition strip (s : pystr) : pystr := rstrip (lstrip s).

(** [s.split()]: the maximal runs of characters that are not white space.
    [tok] is the token being read. *)
Fixpoint split_from (tok s : pystr) : list pystr :=
  match s with
  | [] => match tok with [] => [] | _ :: _ => [tok] end
  | c :: s' =>
      if isspace c
      then match tok with
           | [] => split_from [] s'
           | _ :: _ => tok :: split_from [] s'
           end
      else split_from (tok ++ [c]) s'
  end.

Definition split (s : pystr) : list pystr := split_from [] s.

(** [s.ljust(width)]: pad with spaces on the right up to [width]. *)
Definition ljust (s : pystr) (width : Z) : pystr :=
  s ++ repeat SPACE (Z.to_nat width - length s).

(** [sep.join(parts)]. *)
Fixpoint join (sep : pystr) (parts : list pystr) : pystr :=
  match parts with
  | [] => []
  | [p] => p
  | p :: rest => p ++ sep ++ join sep rest
  end.

(** [str(n)] for an integer: its decimal digits. *)
Fixpoint digits_from (fuel : nat) (n : N) (acc : pystr) : pystr :=
  let acc' := (48 + n mod 10) :: acc in
  match fuel with
  | O => acc'
  | S fuel' => if n / 10 =? 0 then acc' else digits_from fuel' (n / 10) acc'
  end.

Definition str_of_int (z : Z) : pystr :=
  let n := Z.abs_N z in
  let ds := digits_from (N.to_nat (N.log2 n)) n [] in
  if (z <? 0)%Z then 45 :: ds else ds.

(** [len(s)] as a Python integer. *)
Definition len {A} (l : list A) : Z := Z.of_nat (length l).

(** ** Regular expressions

    The fragment of [re] the two patterns of the source are written in,
    matched as [re] does: by backtracking, the first alternative and the
    longest repetition tried first. *)

Inductive regex : Type :=
| Chr (c : N)                   (* one given character *)
| NotChr (c : N)                (* [^c] *)
| Lit (l : pystr)               (* a run of given characters *)
| Seq (r1 r2 : regex)           (* r1 r2 *)
| Alt (r1 r2 : regex)           (* r1|r2 *)
| Star (r : regex)              (* r* *)
| Plus (r : regex)              (* r+ *)
| Opt (r : regex)               (* r? *)
| Group (i : nat) (r : regex)   (* (r), the i-th capturing group *)
| Eos.                          (* $ *)

Infix "+>" := Seq (at level 60, right associativity).

(** What [re.match] returns on success: the text after the match and the
    groups that took part in it. *)
Record match_obj : Type := Match { m_rest : pystr; m_groups : gmap nat pystr }.

(** [$] (without [re.MULTILINE]): the end of the text, or just before a
    line feed that ends the text. *)
Definition at_end (s : pystr) : bool :=
  match s with
  | [] => true
  | [c] => c =? LF
  | _ => false
  end.

(** The iterations of [r*] (greedy): one more iteration if it can be made
    to succeed, the continuation [k] otherwise.  An iteration consumes a
    character, so [S (length s)] rounds of [fuel] are never used up. *)
Fixpoint star_loop
    (step : pystr -> gmap nat pystr ->
            (pystr -> gmap nat pystr -> option match_obj) -> option match_obj)
    (k : pystr -> gmap nat pystr -> option match_obj)
    (fuel : nat) (s : pystr) (g : gmap nat pystr) : option match_obj :=
  match fuel with
  | O => k s g
  | S fuel' =>
      match step s g (fun s' g' =>
                        if bool_decide (length s' < length s)%nat
                        then star_loop step k fuel' s' g'
                        else None) with
      | Some m => Some m
      | None => k s g
      end
  end.

(** [run r s g k]: match [r] at the start of [s] with the groups [g] set
    so far, and go on with [k] on what is left. *)
Fixpoint run (r : regex) (s : pystr) (g : gmap nat pystr)
    (k : pystr -> gmap nat pystr -> option match_obj) : option match_obj :=
  match r with
  | Chr c =>
      match s with
      | x :: s' => if x =? c then k s' g else None
      | [] => None
      end
  | NotChr c =>
      match s with
      | x :: s' => if x =? c then None else k s' g
      | [] => None
      end
  | Lit l => if startswith l s then k (drop (length l) s) g else None
  | Seq r1 r2 => run r1 s g (fun s' g' => run r2 s' g' k)
  | Alt r1 r2 =>
      match run r1 s g k with
      | Some m => Some m
      | None => run r2 s g k
      end
  | Star r1 => star_loop (run r1) k (S (length s)) s g
  | Plus r1 =>
      run r1 s g (fun s' g' => star_loop (run r1) k (S (length s')) s' g')
  | Opt r1 =>
      match run r1 s g k with
      | Some m => Some m
      | None => k s g
      end
  | Group i r1 =>
      run r1 s g (fun s' g' => k s' (<[i := take (length s - length s') s]> g'))
  | Eos => if at_end s then k s g else None
  end.

(** [re.match(r, s)]: a match that starts at the start of [s]. *)
Definition re_match (r : regex) (s : pystr) : option match_obj :=
  run r s ∅ (fun s' g => Some (Match s' g)).

(** The scan of [re.sub(r, repl, s)] with a function [repl]: left to
    right, the matches that do not overlap, each replaced by what [repl]
    returns for it.  After an empty match the scan moves on by one
    character. *)
Fixpoint sub_from (r : regex) (repl : match_obj -> option pystr)
    (skip : nat) (s : pystr) : option pystr :=
  match s with
  | [] =>
      match re_match r [] with
      | Some m => repl m
      | None => Some []
      end
  | c :: s' =>
      match skip with
      | S n => sub_from r repl n s'
      | O =>
          match re_match r s with
          | Some m =>
              out ← repl m;
              rest ← match (length s - length (m_rest m))%nat with
                     | O => cons c <$> sub_from r repl 0 s'
                     | S n => sub_from r repl n s'
                     end;
              Some (out ++ rest)
          | None => cons c <$> sub_from r repl 0 s'
          end
      end
  end.

Definition re_sub (r : regex) (repl : match_obj -> option pystr) (s : pystr)
  : option pystr :=
  sub_from r repl 0 s.

(** [m.group(i)]; [None] where Python returns [None] (the group took no
    part in the match). *)
Definition group (m : match_obj) (i : nat) : option pystr := m_groups m !! i.

(** ** Values and records *)

Inductive value : Type :=
| Str (s : pystr)
| Int (z : Z)
| StrList (l : list pystr)
| PyNone.

#[global] Instance value_eq_dec : EqDecision value.
Proof. solve_decision. Defined.

Abbreviation record := (gmap pystr value).

(** A cell of a row read with [read_csv(..., dicts=True)]: a string, or
    [None] where the row has fewer cells than the header has columns. *)
Abbreviation csv_cell := (option pystr).

(** A row read with [read_csv(..., dicts=True)]: the cell under each
    column name of the header and, under the key [None], the cells of
    the row beyond the header if it has any. *)
Record raw_row : Type := RawRow {
  row_cells : gmap pystr csv_cell;
  row_rest : option (list pystr);
}.

(** [row[column]] for a column name; [None] is the [KeyError]. *)
#[global] Instance raw_row_lookup : Lookup pystr csv_cell raw_row :=
  fun column row => row_cells row !! column.

#[global] Instance raw_row_eq_dec : EqDecision raw_row.
Proof. solve_decision. Defined.

(** A cell as a field of a record. *)
Definition of_cell (c : csv_cell) : value :=
  match c with
  | Some s => Str s
  | None => PyNone
  end.

(** ['{}'.format(c)]: a string as it is, [None] as [None]. *)
Definition format_cell (c : csv_cell) : pystr :=
  match c with
  | Some s => s
  | None => py "None"
  end.

(** Where the code needs a [str] ([re.match], [Counter] key, [format] of
    an identifier): [None] is the exception on anything else. *)
Definition as_str (v : value) : option pystr :=
  match v with
  | Str s => Some s
  | _ => None
  end.

(** Iterating a value, and [len] of it: the items of a list, the
    characters of a string; an integer is not iterable, nor is [None]. *)
Definition as_tokens (v : value) : option (list pystr) :=
  match v with
  | StrList l => Some l
  | Str s => Some ((fun c => [c]) <$> s)
  | Int _ => None
  | PyNone => None
  end.

(** [dict(pairs)]: a later pair overwrites an earlier one of the same key. *)
Definition dict_of {V} (pairs : list (pystr * V)) : gmap pystr V :=
  foldl (fun d kv => <[kv.1 := kv.2]> d) ∅ pairs.

(** [OrderedDict]: [d[k] = v] keeps the place of a key already there.
    The keys are cells: a string or [None]. *)
Fixpoint od_set {V} (k : csv_cell) (v : V) (d : list (csv_cell * V))
  : list (csv_cell * V) :=
  match d with
  | [] => [(k, v)]
  | (k', v') :: d' =>
      if decide (k = k') then (k, v) :: d' else (k', v') :: od_set k v d'
  end.

Fixpoint od_get {V} (d : list (csv_cell * V)) (k : csv_cell) : option V :=
  match d with
  | [] => None
  | (k', v) :: d' => if decide (k = k') then Some v else od_get d' k
  end.

Definition od_values {V} (d : list (csv_cell * V)) : list V := snd <$> d.

(** ** The module's constants *)

Definition LANGUAGE_COLUMN_MAP : list (pystr * pystr) :=
  [ (py "ID", py "id");
    (py "Glottocode", py "id");
    (py "Family_ID", py "family_id");
    (py "Parent_ID", py "parent_id");
    (py "Name", py "name");
    (py "Latitude", py "latitude");
    (py "Longitude", py "longitude");
    (py "ISO639P3code", py "iso639P3code");
    (py "reference", py "reference") ].

Definition ord (a : ascii) : N := N_of_ascii a.

(** The pattern [\\cite(?:p|t|alt)(?:\[([^\]]+)\])?\{(G)\}] with [G] the group [[^}]] repeated ([Star]). *)
Definition REGEX_REFERENCE : regex :=
  Lit (py "\cite") +>
  Alt (Lit (py "p")) (Alt (Lit (py "t")) (Lit (py "alt"))) +>
  Opt (Chr (ord "[") +> Group 1 (Plus (NotChr (ord "]"))) +> Chr (ord "]")) +>
  Chr (ord "{") +> Group 2 (Star (NotChr (ord "}"))) +> Chr (ord "}").

Definition EXAMPLE_COLUMNS : list pystr :=
  [py "lang_id"; py "text"; py "gloss"; py "trans"; py "reference"].

(** The pattern of [detex], [\\textsc\{(G)(?:\}|$)] with [G] the group [[^}]] repeated ([Star]). *)
Definition REGEX_TEXTSC : regex :=
  Lit (py "\textsc{") +> Group 1 (Star (NotChr (ord "}"))) +>
  Alt (Chr (ord "}")) Eos.

(** ** The functions of the module *)

Definition patch_biblio (bibtex_code : pystr) : pystr :=
  let bibtex_code :=
    replace bibtex_code
      (py "Ringe, Donald A., Jr.,")
      (py "Ringe, Donald A. Jr.") in
  let bibtex_code :=
    replace bibtex_code
      (py "Yahalom-Mack, Naama, Eliyahu-Behar, Adi")
      (py "Yahalom-Mack, Naama and Eliyahu-Behar, Adi") in
  bibtex_code.

(** [if pages:] on what [groups()] gave, [if code_id:] on what [get]
    gave: [None] and the empty string are false. *)
Definition truthy (o : option pystr) : bool :=
  match o with
  | Some (_ :: _) => true
  | _ => false
  end.

(** [add_source] changes its argument in place; here it returns the
    record as changed. *)
Definition add_source (row : record) : option record :=
  reference ← row !! py "reference";
  text ← as_str reference;
  match re_match REGEX_REFERENCE text with
  | Some reference_match =>
      let pages := group reference_match 1 in
      bibkey ← group reference_match 2;
      let reference :=
        if truthy pages
        then bibkey ++ py "[" ++ replace (default [] pages) (py ";") (py ",") ++ py "]"
        else bibkey in
      Some (<[py "Source" := StrList [reference]]> row)
  | None =>
      reference ← row !! py "reference";
      Some (<[py "Source_comment" := reference]> row)
  end.

(** [param_id] is what [param['ID']] gave: a string or [None].  Under the
    key [None] a row holds nothing (a [KeyError]) or the list of its cells
    beyond the header, which cannot be part of a key of [code_id_map] (a
    [TypeError]): [row[param_id]] goes on for a column name only. *)
Definition make_value (row : raw_row) (code_table : list (csv_cell * raw_row))
    (code_id_map : gmap (csv_cell * csv_cell) csv_cell) (param_id : csv_cell)
  : option record :=
  id ← row !! py "id";
  let value_row : record :=
    <[py "Parameter_ID" := of_cell param_id]>
      (<[py "Language_ID" := of_cell id]>
         (<[py "ID" := Str (format_cell id ++ py "-" ++ format_cell param_id)]> ∅)) in
  cell ← match param_id with
         | Some column => row !! column
         | None => None
         end;
  let code_id : csv_cell :=
    match code_id_map !! (param_id, cell) with
    | Some code_id => code_id
    | None => None
    end in
  if truthy code_id then
    code ← od_get code_table code_id;
    name ← code !! py "Name";
    Some (<[py "Value" := of_cell name]>
            (<[py "Code_ID" := of_cell code_id]> value_row))
  else
    Some (<[py "Value" := of_cell cell]> value_row).

Definition fix_example_lang_id (language_id : pystr) : pystr :=
  if decide (language_id = py "wara1247") then py "wara1300" else language_id.

(** ** Tactics *)

(** Two string literals differ. *)
Ltac py_neq :=
  let H := fresh in intro H; vm_compute in H; discriminate H.

(** A decidable statement about literals, settled by evaluation. *)
Ltac decide_literal :=
  apply (bool_decide_unpack _); vm_compute; exact I.

(** A lookup in a record built by insertions under literal keys. *)
Ltac lookup_py :=
  repeat first
    [ rewrite lookup_insert_eq
    | rewrite lookup_insert_ne by py_neq
    | rewrite lookup_empty ].

(** A closed equation, settled by evaluation. *)
Ltac evaluated := vm_compute; reflexivity.

Section Conversion.

(** [str.upper] maps every code point through the Unicode database's full
    upper-case mapping.  The database is the interpreter's; [upper_table]
    holds its entries for the code points outside ASCII (a code point
    without an entry has no other upper-case form). *)
Variable upper_table : gmap N pystr.

Definition upper_char (c : N) : pystr :=
  if (97 <=? c) && (c <=? 122) then [c - 32]
  else if c <? 128 then [c]
  else default [c] (upper_table !! c).

Definition upper (s : pystr) : pystr := flat_map upper_char s.

Definition detex (gloss : pystr) : option pystr :=
  let gloss := replace gloss (py "$\rightarrow$") [8594] in
  let gloss := replace gloss (py "$\emptyset$") [8709] in
  let gloss := replace gloss (py "\tld{}") (py "~") in
  re_sub REGEX_TEXTSC (fun m => upper <$> group m 1) gloss.

(** [zip_longest(l1, l2, fillvalue=fillvalue)]. *)
Fixpoint zip_longest (fillvalue : value) (l1 l2 : list value) : list (value * value) :=
  match l1 with
  | [] => (fun y => (fillvalue, y)) <$> l2
  | x :: l1' =>
      match l2 with
      | [] => (x, fillvalue) :: ((fun x' => (x', fillvalue)) <$> l1')
      | y :: l2' => (x, y) :: zip_longest fillvalue l1' l2'
      end
  end.

(** [obj.ljust(width)] on objects: only a string has the method, and the
    width has to be an integer. *)
Definition ljust_method (obj width : value) : option pystr :=
  match obj, width with
  | Str s, Int w => Some (ljust s w)
  | _, _ => None
  end.

(** The [ID] is read as a string, which it is wherever the conversion
    calls [render_example]; the rendering of an [ID] that is a list (by
    its [repr]) is left out. *)
Definition render_example (example : record) : option pystr :=
  words ← example !! py "Analyzed_Word" ≫= as_tokens;
  glosses ← example !! py "Gloss" ≫= as_tokens;
  id ← example !! py "ID" ≫= as_str;
  let id_width := len id in
  let widths := (fun wg : pystr * pystr => Z.max (len wg.1) (len wg.2))
                  <$> zip words glosses in
  padded_words ←
    mapM (fun ww : value * value => ljust_method ww.1 ww.2)
         (zip_longest (Int 0) (Str <$> words) (Int <$> widths));
  padded_glosses ←
    mapM (fun gw : value * value => ljust_method gw.1 gw.2)
         (zip_longest (Int 0) (Str <$> glosses) (Int <$> widths));
  Some (py "(" ++ id ++ py ")  " ++ rstrip (join (py "  ") padded_words)
        ++ [LF]
        ++ repeat SPACE (Z.to_nat id_width) ++ py "    "
        ++ rstrip (join (py "  ") padded_glosses)).

(** The condition of the comprehension in [warn_about_glosses]. *)
Definition misaligned (example : record) : option bool :=
  words ← example !! py "Analyzed_Word" ≫= as_tokens;
  glosses ← example !! py "Gloss" ≫= as_tokens;
  Some (negb (length words =? length glosses)%nat).

Fixpoint select_misaligned (example_table : list record) : option (list record) :=
  match example_table with
  | [] => Some []
  | example :: rest =>
      b ← misaligned example;
      rest' ← select_misaligned rest;
      Some (if b : bool then example :: rest' else rest')
  end.

Definition MISALIGNED_HEADER : pystr := py "ERROR: Misaligned glosses in examples:".

(** What [warn_about_glosses] prints to [sys.stderr], one entry per call of
    [print]; the table is only read. *)
Definition warn_about_glosses (example_table : list record) : option (list pystr) :=
  mismatched_examples ← select_misaligned example_table;
  match mismatched_examples with
  | [] => Some []
  | _ :: _ =>
      renderings ← mapM render_example mismatched_examples;
      Some (MISALIGNED_HEADER :: flat_map (fun r => [[]; r]) renderings)
  end.

(** ** [cmd_makecldf] *)

(** The files read: [raw/estimative.csv] and [etc/*.csv] as lists of rows
    keyed by column name, [raw/estimative-ex.csv] as lists of cells. *)
Record inputs : Type := Inputs {
  estimative_csv : list raw_row;
  estimative_ex_csv : list (list pystr);
  bibliogj_bib : pystr;
  parameters_csv : list raw_row;
  codes_csv : list raw_row;
}.

(** The dict comprehension of [language_table], one row:
    [{new_key: row[old_key] for new_key, old_key in LANGUAGE_COLUMN_MAP}]. *)
Fixpoint language_columns (column_map : list (pystr * pystr)) (row : raw_row)
    (acc : record) : option record :=
  match column_map with
  | [] => Some acc
  | (new_key, old_key) :: column_map' =>
      cell ← row !! old_key;
      language_columns column_map' row (<[new_key := of_cell cell]> acc)
  end.

Definition language_row (row : raw_row) : option record :=
  language_columns LANGUAGE_COLUMN_MAP row ∅.

(** [OrderedDict((code['ID'], code) for code in codes)]. *)
Fixpoint code_table_of (codes : list raw_row) (acc : list (csv_cell * raw_row))
  : option (list (csv_cell * raw_row)) :=
  match codes with
  | [] => Some acc
  | code :: codes' =>
      id ← code !! py "ID";
      code_table_of codes' (od_set id code acc)
  end.

(** [{(code['Parameter_ID'], code['Spreadsheet_Value']): code['ID'] for code in ...}]. *)
Fixpoint code_id_map_of (codes : list raw_row)
    (acc : gmap (csv_cell * csv_cell) csv_cell)
  : option (gmap (csv_cell * csv_cell) csv_cell) :=
  match codes with
  | [] => Some acc
  | code :: codes' =>
      parameter_id ← code !! py "Parameter_ID";
      spreadsheet_value ← code !! py "Spreadsheet_Value";
      id ← code !! py "ID";
      code_id_map_of codes' (<[(parameter_id, spreadsheet_value) := id]> acc)
  end.

(** One item of the comprehension of [example_table]; [example] is the
    [dict(zip(EXAMPLE_COLUMNS, ...))] of a row of cells. *)
Definition example_row (example : gmap pystr pystr) : option record :=
  lang_id ← example !! py "lang_id";
  text ← example !! py "text";
  primary_text ← detex text;
  text' ← example !! py "text";
  analyzed_word ← mapM detex (split text');
  gloss ← example !! py "gloss";
  glosses ← mapM detex (split gloss);
  trans ← example !! py "trans";
  reference ← example !! py "reference";
  Some (dict_of
          [ (py "Language_ID", Str (fix_example_lang_id lang_id));
            (py "Primary_Text", Str primary_text);
            (py "Analyzed_Word", StrList analyzed_word);
            (py "Gloss", StrList glosses);
            (py "Translated_Text", Str (strip trans));
            (py "reference", Str reference) ]).

(** The loop over [example_table] that numbers the examples of each
    language and resolves their references; [examples_per_language] is
    the [Counter]. *)
Fixpoint number_examples (examples_per_language : gmap pystr Z)
    (example_table : list record) : option (list record) :=
  match example_table with
  | [] => Some []
  | example :: rest =>
      language_id ← example !! py "Language_ID" ≫= as_str;
      let examples_per_language :=
        <[language_id := (default 0 (examples_per_language !! language_id) + 1)%Z]>
          examples_per_language in
      language_id' ← example !! py "Language_ID" ≫= as_str;
      let example :=
        <[py "ID" :=
            Str (language_id' ++ py "-"
                 ++ str_of_int (default 0%Z (examples_per_language !! language_id')))]>
          example in
      example ← add_source example;
      rest' ← number_examples examples_per_language rest;
      Some (example :: rest')
  end.

(** The tables as they stand after line 189 of the source, before
    [warn_about_glosses] is called. *)
Record tables : Type := Tables {
  bibtex_code : pystr;
  language_table : list record;
  parameter_table : list raw_row;
  code_table : list (csv_cell * raw_row);
  value_table : list record;
  example_table : list record;
}.

Definition make_tables (inp : inputs) : option tables :=
  let raw_data := estimative_csv inp in
  let raw_examples :=
    (fun example => dict_of (zip EXAMPLE_COLUMNS example)) <$> estimative_ex_csv inp in
  let bibtex_code := patch_biblio (bibliogj_bib inp) in
  let parameter_table := parameters_csv inp in
  code_table ← code_table_of (codes_csv inp) [];
  language_table ← mapM language_row raw_data;
  language_table ← mapM add_source language_table;
  parameter_ids ← mapM (fun param : raw_row => param !! py "ID") parameter_table;
  code_id_map ← code_id_map_of (od_values code_table) ∅;
  value_rows ←
    mapM (fun row =>
            mapM (fun param_id => make_value row code_table code_id_map param_id)
                 parameter_ids)
         raw_data;
  let value_table := concat value_rows in
  example_table ← mapM example_row raw_examples;
  example_table ← number_examples ∅ example_table;
  Some (Tables bibtex_code language_table parameter_table code_table
               value_table example_table).

(** A column as [add_component] is given it: a name, or a description
    (a [dict] of strings). *)
Inductive column : Type :=
| ColumnName (name : pystr)
| ColumnSpec (spec : list (pystr * pystr)).

(** The description of the column [Source], as lines 197 to 202 and 208
    to 213 give it. *)
Definition SOURCE_COLUMN : column :=
  ColumnSpec
    [ (py "datatype", py "string");
      (py "propertyUrl", py "http://cldf.clld.org/v1.0/terms.rdf#source");
      (py "separator", py ";");
      (py "name", py "Source") ].

(** The dataset writer [args.writer] belongs to cldfbench.  [writer] is
    its state, [args_writer] the one the run is given;
    [cldf.add_component] and [cldf.add_sources] change it or raise
    ([add_sources] on a text it cannot read as BibTeX). *)
Variable writer : Type.
Variable add_component : writer -> pystr -> list column -> option writer.
Variable add_sources : writer -> pystr -> option writer.
Variable args_writer : writer.

(** Lines 194 to 218: the schema is declared and the sources are added. *)
Definition write_schema (bibtex_code : pystr) : option writer :=
  w ← add_component args_writer (py "LanguageTable")
        [ ColumnName (py "Family_ID"); ColumnName (py "Parent_ID");
          SOURCE_COLUMN; ColumnName (py "Source_comment") ];
  w ← add_component w (py "ParameterTable") [];
  w ← add_component w (py "CodeTable") [];
  w ← add_component w (py "ExampleTable")
        [ SOURCE_COLUMN; ColumnName (py "Source_comment") ];
  add_sources w bibtex_code.

(** What the run leaves behind: the dataset of the writer, the tables it
    put into [args.writer.objects], and what it printed to
    [sys.stderr]. *)
Record cldf : Type := Cldf {
  dataset : writer;
  LanguageTable : list record;
  ParameterTable : list raw_row;
  CodeTable : list raw_row;
  ValueTable : list record;
  ExampleTable : list record;
  stderr : list pystr;
}.

Definition cmd_makecldf (inp : inputs) : option cldf :=
  t ← make_tables inp;
  printed ← warn_about_glosses (example_table t);
  w ← write_schema (bibtex_code t);
  Some (Cldf w (language_table t) (parameter_table t)
             (od_values (code_table t)) (value_table t) (example_table t)
             printed).

(** ** Specification-side vocabulary *)

(** The padded tokens of one line of a rendering, [xs] against the other
    line [ys]: a token with a partner is padded to the longer of the two,
    a token without one is padded to width 0. *)
Fixpoint padded_line (xs ys : list pystr) : list pystr :=
  match xs, ys with
  | [], _ => []
  | x :: xs', [] => ljust x 0 :: padded_line xs' []
  | x :: xs', y :: ys' => ljust x (Z.max (len x) (len y)) :: padded_line xs' ys'
  end.

(** The number of the examples of [language_id] among [examples]. *)
Definition examples_of (language_id : pystr) (examples : list record) : nat :=
  length (filter (fun example => example !! py "Language_ID" = Some (Str language_id))
                 examples).

(** An example whose two token lists differ in length. *)
Definition mismatched (example : record) : Prop :=
  match example !! py "Analyzed_Word", example !! py "Gloss" with
  | Some (StrList words), Some (StrList glosses) => length words <> length glosses
  | _, _ => False
  end.

#[global] Instance mismatched_dec (example : record) : Decision (mismatched example).
Proof. unfold mismatched. repeat case_match; apply _. Defined.

(** An example as the pipeline builds it: an identifier and two token
    lists. *)
Definition renderable (example : record) : Prop :=
  exists id words glosses,
    example !! py "ID" = Some (Str id) /\
    example !! py "Analyzed_Word" = Some (StrList words) /\
    example !! py "Gloss" = Some (StrList glosses).

(** What the validator prints for the misaligned examples [bad], given
    their renderings. *)
Definition diagnostics (renderings : list pystr) : list pystr :=
  match renderings with
  | [] => []
  | _ :: _ => MISALIGNED_HEADER :: flat_map (fun r => [[]; r]) renderings
  end.

(** Where [pat] starts in [s], [old] starts too. *)
Definition covered (old pat s : pystr) : Prop :=
  forall k, startswith pat (drop k s) = true -> startswith old (drop k s) = true.

(** The groups set in [g] are still set in [g']. *)
Definition keeps (g g' : gmap nat pystr) : Prop :=
  forall i, is_Some (g !! i) -> is_Some (g' !! i).

(** A successful run ends in its continuation, with no group lost. *)
Definition ends_in_continuation
    (step : pystr -> gmap nat pystr ->
            (pystr -> gmap nat pystr -> option match_obj) -> option match_obj) : Prop :=
  forall s g k m, step s g k = Some m ->
    exists s' g', k s' g' = Some m /\ keeps g g'.

(** Exactly one of [Source] and [Source_comment] is set on a record. *)
Definition one_source (row : record) : Prop :=
  (is_Some (row !! py "Source") /\ row !! py "Source_comment" = None) \/
  (row !! py "Source" = None /\ is_Some (row !! py "Source_comment")).

(** The three identifying fields of a row of the value table, for the
    [id] cell of the language row and the [ID] cell of the parameter. *)
Definition value_ids (value_row : record) (id param_id : csv_cell) : Prop :=
  value_row !! py "ID" = Some (Str (format_cell id ++ py "-" ++ format_cell param_id)) /\
  value_row !! py "Language_ID" = Some (of_cell id) /\
  value_row !! py "Parameter_ID" = Some (of_cell param_id).

(** ** Sample data *)

(** A row that has as many cells as the header has columns: every cell
    is a string. *)
Definition full_row (cells : list (pystr * pystr)) : raw_row :=
  RawRow (dict_of ((fun kv : pystr * pystr => (kv.1, Some kv.2)) <$> cells)) None.

(** A row that is shorter than the header: the columns [missing] hold
    [None]. *)
Definition short_row (cells : list (pystr * pystr)) (missing : list pystr) : raw_row :=
  RawRow (dict_of (((fun kv : pystr * pystr => (kv.1, Some kv.2)) <$> cells)
                   ++ ((fun column : pystr => (column, None)) <$> missing)))
         None.

(** A row of [estimative.csv]: the eight original columns, the cells of
    two parameters [A] and [B], and two columns named like output fields. *)
Definition sample_language (id reference a b : string) : raw_row :=
  full_row
    [ (py "id", py id); (py "family_id", py "sepi1257");
      (py "parent_id", py "sepi1258"); (py "name", py "Alamblak");
      (py "latitude", py "-4.6"); (py "longitude", py "143.3");
      (py "iso639P3code", py "amp"); (py "reference", py reference);
      (py "A", py a); (py "B", py b);
      (py "Glottocode", py "glot0001"); (py "ID", py "7") ].

(** A row that has the columns under the names of the output fields only. *)
Definition sample_language_output_names : raw_row :=
  full_row
    [ (py "ID", py "7"); (py "Glottocode", py "glot0001");
      (py "Family_ID", py "sepi1257"); (py "Parent_ID", py "sepi1258");
      (py "Name", py "Alamblak"); (py "Latitude", py "-4.6");
      (py "Longitude", py "143.3"); (py "ISO639P3code", py "amp");
      (py "reference", py "p.c.") ].

(** A row of [estimative.csv] that ends after its [reference], in a file
    whose header goes on with [id], [A] and [B]: these three cells are
    missing. *)
Definition sample_language_short (reference : string) : raw_row :=
  short_row
    [ (py "family_id", py "sepi1257");
      (py "parent_id", py "sepi1258"); (py "name", py "Alamblak");
      (py "latitude", py "-4.6"); (py "longitude", py "143.3");
      (py "iso639P3code", py "amp"); (py "reference", py reference) ]
    [ py "id"; py "A"; py "B" ].

Definition sample_code (id name : string) : raw_row :=
  full_row
    [ (py "ID", py id); (py "Parameter_ID", py "A");
      (py "Spreadsheet_Value", py "yes"); (py "Name", py name) ].

Definition sample_inputs : inputs :=
  Inputs
    [ sample_language "alam1246" "\citet[273]{bruce79alamblak}" "yes" "zz";
      sample_language "wara1300" "p.c." "no" "yes" ]
    [ [py "alam1246"; py "a b \textsc{c d"; py "x y z"; py " one "; py "p.c."];
      [py "wara1247"; py "a b"; py "x \textsc{y}"; py " two "; py "\citep{k}"];
      [py "alam1246"; py "a bcd"; py "xxx $\rightarrow$"; py " three "; py "p.c."] ]
    (py "@book{k}")
    [ full_row [(py "ID", py "A")]; full_row [(py "ID", py "B")] ]
    [ sample_code "A-yes" "Yes" ].

(** Inputs with one language row that ends after its [reference]: its
    [id] and the cells of the two parameters are [None]. *)
Definition sample_inputs_short : inputs :=
  Inputs
    [ sample_language_short "p.c." ]
    [ [py "alam1246"; py "a b"; py "x y"; py " one "; py "p.c."] ]
    (py "@book{k}")
    [ full_row [(py "ID", py "A")]; full_row [(py "ID", py "B")] ]
    [ sample_code "A-yes" "Yes" ].

(** The sample inputs with a [codes.csv] in which the [ID] [k1] occurs
    twice. *)
Definition sample_inputs_repeated : inputs :=
  Inputs
    (estimative_csv sample_inputs) (estimative_ex_csv sample_inputs)
    (bibliogj_bib sample_inputs) (parameters_csv sample_inputs)
    [ sample_code "k1" "one"; sample_code "k2" "two"; sample_code "k1" "three" ].

(** A writer for the sample runs: its state is the list of the components
    declared and of the sources added; it accepts every component, and
    every bibliography that holds an entry. *)
Definition sample_add_component (w : list pystr) (name : pystr)
    (columns : list column) : option (list pystr) :=
  Some (w ++ [name]).

Definition sample_add_sources (w : list pystr) (bibtex_code : pystr)
  : option (list pystr) :=
  if occurs (py "@") bibtex_code then Some (w ++ [bibtex_code]) else None.

(** A record that has a [reference] and nothing else. *)
Definition sample_record (reference : string) : record :=
  dict_of [ (py "reference", Str (py reference)) ].

(** An example with four words and three glosses. *)
Definition sample_example : record :=
  dict_of
    [ (py "ID", Str (py "alam1246-1"));
      (py "Analyzed_Word", StrList [py "a"; py "b"; py "C"; py "d"]);
      (py "Gloss", StrList [py "x"; py "yy"; py "z"]) ].

(** An example whose last word is shorter than its gloss. *)
Definition sample_example_padded : record :=
  dict_of
    [ (py "ID", Str (py "wara1300-1"));
      (py "Analyzed_Word", StrList [py "ab"; py "c"]);
      (py "Gloss", StrList [py "x"; py "yyyy"]) ].

(** An ordered dictionary of codes as [cmd_makecldf] builds it from
    [codes]: no key twice, and under each key a code of [codes] with that
    [ID]. *)
Definition code_table_wf (codes : list raw_row) (d : list (csv_cell * raw_row)) : Prop :=
  NoDup (fst <$> d) /\
  forall k code, (k, code) ∈ d -> code !! py "ID" = Some k /\ code ∈ codes.

(** Inputs with every column the conversion reads (the cell may be
    [None] where a row was short): the eight original columns of each
    language row, its [reference] a string; an [ID] that is a string for
    each parameter and a cell for it in each language row; the four
    columns of each code; and at least five cells in each row of
    examples. *)
Definition well_formed (inp : inputs) : Prop :=
  Forall (fun row : raw_row =>
            Forall (fun column => is_Some (row !! column))
                   (snd <$> LANGUAGE_COLUMN_MAP) /\
            exists text : pystr, row !! py "reference" = Some (Some text))
         (estimative_csv inp) /\
  Forall (fun param : raw_row =>
            exists param_id : pystr,
              param !! py "ID" = Some (Some param_id) /\
              Forall (fun row : raw_row => is_Some (row !! param_id))
                     (estimative_csv inp))
         (parameters_csv inp) /\
  Forall (fun code : raw_row =>
            Forall (fun column => is_Some (code !! column))
                   [py "ID"; py "Parameter_ID"; py "Spreadsheet_Value"; py "Name"])
         (codes_csv inp) /\
  Forall (fun cells : list pystr => (5 <= length cells)%nat) (estimative_ex_csv inp).

(** A token as [str.split] returns them: not empty, no white space. *)
Definition token (t : pystr) : Prop :=
  t <> [] /\ Forall (fun c => isspace c = false) t.

(** The number a string of decimal digits stands for. *)
Definition int_of_digits (s : pystr) : N :=
  foldl (fun acc c => 10 * acc + (c - 48)) 0 s.

(** The column at which the [i]-th token of either line of a rendering
    starts: each pair before it takes the width of the longer of its word
    and its gloss, and two spaces. *)
Fixpoint column_of (words glosses : list pystr) (i : nat) : nat :=
  match i, words, glosses with
  | S i', w :: words', g :: glosses' =>
      (Nat.max (length w) (length g) + 2 + column_of words' glosses' i')%nat
  | _, _, _ => 0%nat
  end.

(** What follows the command of a citation: an optional locator in square
    brackets, the key in braces, and then anything. *)
Definition citation_tail (locator : option pystr) (bibkey rest : pystr) : pystr :=
  let key_part := ord "{" :: bibkey ++ ord "}" :: rest in
  match locator with
  | Some pages => ord "[" :: pages ++ ord "]" :: key_part
  | None => key_part
  end.

(** A reference that starts with a citation. *)
Definition citation (cmd : pystr) (locator : option pystr) (bibkey rest : pystr)
  : pystr :=
  py "\cite" ++ cmd ++ citation_tail locator bibkey rest.

(** The parts a citation is read into: the command is one of the three,
    the key ends at the first closing brace, and a locator is not empty
    and ends at the first closing bracket. *)
Definition citation_parts (cmd : pystr) (locator : option pystr) (bibkey : pystr)
  : Prop :=
  cmd ∈ [py "p"; py "t"; py "alt"] /\
  (ord "}" ∉ bibkey) /\
  match locator with
  | Some pages => pages <> [] /\ ord "]" ∉ pages
  | None => True
  end.

(** The entry of [Source] for a citation. *)
Definition source_of (locator : option pystr) (bibkey : pystr) : pystr :=
  match locator with
  | Some pages => bibkey ++ py "[" ++ replace pages (py ";") (py ",") ++ py "]"
  | None => bibkey
  end.

(** * Properties *)

(** ** Strings *)

Lemma startswith_nil_l (s : pystr) : startswith [] s = true.
Proof. by destruct s. Qed.

Lemma occurs_cons (p : pystr) (c : N) (s : pystr) :
  occurs p (c :: s) = startswith p (c :: s) || occurs p s.
Proof. reflexivity. Qed.

Lemma occurs_drop (p s : pystr) (k : nat) :
  occurs p s = false -> occurs p (drop k s) = false.
Proof.
  revert s. induction k as [|k IH]; intros s H; [by rewrite drop_0|].
  destruct s as [|c s]; [done|]. rewrite occurs_cons in H.
  apply orb_false_iff in H as [_ H]. by apply IH.
Qed.

Lemma occurs_startswith (p s : pystr) :
  occurs p s = false -> startswith p s = false.
Proof. destruct s; simpl; intros H; by apply orb_false_iff in H as [? _]. Qed.

(** Every character of a substring is a character of the string. *)
Lemma startswith_elem (p s : pystr) (c : N) :
  startswith p s = true -> c ∈ p -> c ∈ s.
Proof.
  revert s. induction p as [|a p IH]; intros [|b s] H Hc; simplify_eq/=.
  - by apply elem_of_nil in Hc.
  - by apply elem_of_nil in Hc.
  - apply andb_true_iff in H as [Hab Hp]. apply N.eqb_eq in Hab as ->.
    apply elem_of_cons in Hc as [->|Hc]; [left|right; eauto].
Qed.

Lemma occurs_elem (p s : pystr) (c : N) :
  occurs p s = true -> c ∈ p -> c ∈ s.
Proof.
  induction s as [|b s IH]; intros H Hc.
  - simpl in H. rewrite orb_false_r in H. by eapply startswith_elem.
  - rewrite occurs_cons in H. apply orb_true_iff in H as [H|H].
    + by eapply startswith_elem.
    + right. by apply IH.
Qed.

Lemma occurs_without (p s : pystr) (c : N) :
  c ∈ p -> c ∉ s -> occurs p s = false.
Proof.
  intros Hp Hs. destruct (occurs p s) eqn:H; [|done].
  destruct Hs. by eapply occurs_elem.
Qed.

Lemma replace_from_absent (old new s : pystr) :
  occurs old s = false -> replace_from old new 0 s = s.
Proof.
  induction s as [|c s IH]; intros H; [done|].
  rewrite occurs_cons in H. apply orb_false_iff in H as [H1 H2].
  simpl replace_from. rewrite H1. f_equal. by apply IH.
Qed.

(** A text without the searched string is left as it is. *)
Lemma replace_absent (s old new : pystr) :
  occurs old s = false -> replace s old new = s.
Proof.
  destruct old as [|a old]; [by destruct s|].
  intros H. by apply replace_from_absent.
Qed.

(** *** No new occurrence after a replacement *)

Section NoNewOccurrence.

Variables (old new pat : pystr) (h x : N) (new' pat' : pystr).
Hypothesis new_head : new = h :: new'.
Hypothesis pat_head : pat = x :: pat'.
Hypothesis fresh_head : h ∉ pat'.
Hypothesis absorbed : forall t, occurs pat (new ++ t) = occurs pat t.

Lemma covered_tail (c : N) (s : pystr) :
  covered old pat (c :: s) -> covered old pat s.
Proof. intros H k. apply (H (S k)). Qed.

Lemma startswith_replace_from (p s : pystr) :
  h ∉ p ->
  startswith p (replace_from old new 0 s) = true -> startswith p s = true.
Proof.
  revert p. induction s as [|c s IH]; intros p Hp; [done|].
  simpl replace_from. destruct (startswith old (c :: s)).
  - rewrite new_head. destruct p as [|a p]; [done|]. simpl.
    intros H. apply andb_true_iff in H as [H _]. apply N.eqb_eq in H as ->.
    destruct Hp. by left.
  - destruct p as [|a p]; [done|]. simpl. intros H.
    apply andb_true_iff in H as [-> H]. simpl. apply IH; [|done].
    intros ?. apply Hp. by right.
Qed.

Lemma replace_from_no_new (skip : nat) (s : pystr) :
  covered old pat s -> occurs pat (replace_from old new skip s) = false.
Proof.
  revert skip. induction s as [|c s IH]; intros skip Hs.
  - simpl. rewrite pat_head. done.
  - pose proof (covered_tail _ _ Hs) as Hs'.
    destruct skip as [|skip]; simpl replace_from; [|by apply IH].
    destruct (startswith old (c :: s)) eqn:Hold.
    + rewrite absorbed. by apply IH.
    + rewrite occurs_cons, IH, orb_false_r by done.
      destruct (startswith pat (c :: replace_from old new 0 s)) eqn:Hp; [|done].
      assert (startswith pat (c :: s) = true) as Hc.
      { rewrite pat_head in Hp |- *. simpl in Hp |- *.
        apply andb_true_iff in Hp as [-> Hp]. simpl.
        by apply startswith_replace_from. }
      specialize (Hs 0%nat). rewrite drop_0 in Hs. rewrite Hs in Hold; done.
Qed.

End NoNewOccurrence.

Lemma covered_self (old s : pystr) : covered old old s.
Proof. by intros k. Qed.

Lemma covered_absent (old pat s : pystr) :
  occurs pat s = false -> covered old pat s.
Proof.
  intros H k Hk. apply (occurs_drop _ _ k), occurs_startswith in H. congruence.
Qed.

(** ** [patch_biblio] *)

Lemma patch_biblio_clean (s : pystr) :
  occurs (py "Ringe, Donald A., Jr.,") (patch_biblio s) = false /\
  occurs (py "Yahalom-Mack, Naama, Eliyahu-Behar, Adi") (patch_biblio s) = false.
Proof.
  unfold patch_biblio.
  set (P := py "Ringe, Donald A., Jr.,").
  set (R := py "Ringe, Donald A. Jr.").
  set (Q := py "Yahalom-Mack, Naama, Eliyahu-Behar, Adi").
  set (T := py "Yahalom-Mack, Naama and Eliyahu-Behar, Adi").
  assert (occurs P (replace s P R) = false) as HP.
  { apply (replace_from_no_new P R P (ord "R") (ord "R") (tail R) (tail P));
      [reflexivity|reflexivity| | |apply covered_self].
    - decide_literal.
    - intros t. reflexivity. }
  split.
  - apply (replace_from_no_new Q T P (ord "Y") (ord "R") (tail T) (tail P));
      [reflexivity|reflexivity| | |by apply covered_absent].
    + decide_literal.
    + intros t. reflexivity.
  - apply (replace_from_no_new Q T Q (ord "Y") (ord "Y") (tail T) (tail Q));
      [reflexivity|reflexivity| | |apply covered_self].
    + decide_literal.
    + intros t. reflexivity.
Qed.

Lemma patch_biblio_idempotent (s : pystr) :
  patch_biblio (patch_biblio s) = patch_biblio s.
Proof.
  destruct (patch_biblio_clean s) as [HP HQ].
  unfold patch_biblio at 1. by rewrite (replace_absent _ _ _ HP), (replace_absent _ _ _ HQ).
Qed.

(** ** The matcher *)

Lemma keeps_refl (g : gmap nat pystr) : keeps g g.
Proof. by intros i. Qed.

Lemma keeps_trans (g1 g2 g3 : gmap nat pystr) :
  keeps g1 g2 -> keeps g2 g3 -> keeps g1 g3.
Proof. intros H12 H23 i Hi. by apply H23, H12. Qed.

Lemma keeps_insert (g : gmap nat pystr) (i : nat) (v : pystr) :
  keeps g (<[i := v]> g).
Proof. intros j Hj. rewrite lookup_insert_is_Some. destruct (decide (i = j)); auto. Qed.

#[local] Hint Resolve keeps_refl keeps_insert : core.

Lemma star_loop_continues step k :
  ends_in_continuation step ->
  forall fuel s g m, star_loop step k fuel s g = Some m ->
    exists s' g', k s' g' = Some m /\ keeps g g'.
Proof.
  intros Hstep. induction fuel as [|fuel IH]; intros s g m H; simpl in H.
  - eauto.
  - destruct (step s g _) as [m'|] eqn:E.
    + simplify_eq. apply Hstep in E as (s' & g' & E & Hk).
      case_bool_decide; [|done]. apply IH in E as (s'' & g'' & E & Hk').
      exists s'', g''. eauto using keeps_trans.
    + eauto.
Qed.

Lemma run_continues (r : regex) : ends_in_continuation (run r).
Proof.
  induction r as [c|c|l|r1 IH1 r2 IH2|r1 IH1 r2 IH2|r IH|r IH|r IH|i r IH|];
    intros s g k m H; cbn [run] in H.
  - destruct s as [|x s]; [done|]. destruct (x =? c); [eauto|done].
  - destruct s as [|x s]; [done|]. destruct (x =? c); [done|eauto].
  - destruct (startswith l s); [eauto|done].
  - apply IH1 in H as (s' & g' & H & Hk). apply IH2 in H as (s'' & g'' & H & Hk').
    exists s'', g''. eauto using keeps_trans.
  - destruct (run r1 s g k) eqn:E; simplify_eq; eauto.
  - by eapply star_loop_continues.
  - apply IH in H as (s' & g' & H & Hk).
    apply (star_loop_continues _ _ IH) in H as (s'' & g'' & H & Hk').
    exists s'', g''. eauto using keeps_trans.
  - destruct (run r s g k) eqn:E; simplify_eq; eauto.
  - apply IH in H as (s' & g' & H & Hk). eexists _, _. split; [exact H|].
    eauto using keeps_trans.
  - destruct (at_end s); [eauto|done].
Qed.

Lemma run_seq (r1 r2 : regex) s g k m :
  run (r1 +> r2) s g k = Some m ->
  exists s' g', run r2 s' g' k = Some m.
Proof. intros H. simpl in H. apply run_continues in H as (s' & g' & H & _). eauto. Qed.

(** A group followed by the rest of the pattern is set when the match
    ends. *)
Lemma run_group_set (i : nat) (r r2 : regex) s g m :
  run (Group i r +> r2) s g (fun s' g' => Some (Match s' g')) = Some m ->
  is_Some (group m i).
Proof.
  intros H. simpl in H. apply run_continues in H as (s' & g' & H & _).
  apply run_continues in H as (s'' & g'' & H & Hk). simplify_eq. unfold group. simpl.
  apply Hk. rewrite lookup_insert_eq. eauto.
Qed.

Lemma re_match_textsc_group (s : pystr) (m : match_obj) :
  re_match REGEX_TEXTSC s = Some m -> is_Some (group m 1).
Proof.
  unfold re_match, REGEX_TEXTSC. intros H.
  apply run_seq in H as (s1 & g1 & H). by apply run_group_set in H.
Qed.

Lemma re_match_textsc_start (s : pystr) :
  startswith (py "\textsc{") s = false -> re_match REGEX_TEXTSC s = None.
Proof. unfold re_match, REGEX_TEXTSC. simpl. by intros ->. Qed.

Lemma re_match_reference_group (s : pystr) (m : match_obj) :
  re_match REGEX_REFERENCE s = Some m -> is_Some (group m 2).
Proof.
  unfold re_match, REGEX_REFERENCE. intros H.
  apply run_seq in H as (s1 & g1 & H). apply run_seq in H as (s2 & g2 & H).
  apply run_seq in H as (s3 & g3 & H). apply run_seq in H as (s4 & g4 & H).
  by apply run_group_set in H.
Qed.

(** [re.sub] returns when its replacement function does on every match. *)
Lemma sub_from_total (r : regex) (repl : match_obj -> option pystr) :
  (forall s m, re_match r s = Some m -> is_Some (repl m)) ->
  forall s skip, is_Some (sub_from r repl skip s).
Proof.
  intros Hrepl. induction s as [|c s IH]; intros skip; simpl.
  - destruct (re_match r []) eqn:E; eauto.
  - destruct skip as [|skip]; [|apply IH].
    destruct (re_match r (c :: s)) as [m|] eqn:E.
    + destruct (Hrepl _ _ E) as [out ->]. simpl.
      destruct (S (length s) - length (m_rest m))%nat as [|n].
      * destruct (IH 0%nat) as [rest ->]. simpl. eauto.
      * destruct (IH n) as [rest ->]. simpl. eauto.
    + destruct (IH 0%nat) as [rest ->]. simpl. eauto.
Qed.

Lemma sub_from_textsc_absent (repl : match_obj -> option pystr) (s : pystr) :
  occurs (py "\textsc{") s = false -> sub_from REGEX_TEXTSC repl 0 s = Some s.
Proof.
  induction s as [|c s IH]; intros H; [done|].
  rewrite occurs_cons in H. apply orb_false_iff in H as [H1 H2].
  simpl sub_from. rewrite (re_match_textsc_start _ H1), (IH H2). done.
Qed.

(** ** [detex] *)

Lemma detex_total (s : pystr) : is_Some (detex s).
Proof.
  unfold detex, re_sub. apply sub_from_total. intros s' m Hm.
  destruct (re_match_textsc_group _ _ Hm) as [arg ->]. simpl. eauto.
Qed.

(** Text in which none of the four macros starts is left as it is. *)
Lemma detex_unrecognized (s : pystr) :
  occurs (py "$\rightarrow$") s = false ->
  occurs (py "$\emptyset$") s = false ->
  occurs (py "\tld{}") s = false ->
  occurs (py "\textsc{") s = false ->
  detex s = Some s.
Proof.
  intros H1 H2 H3 H4. unfold detex, re_sub.
  rewrite (replace_absent _ _ _ H1), (replace_absent _ _ _ H2),
    (replace_absent _ _ _ H3).
  by apply sub_from_textsc_absent.
Qed.

Lemma detex_without_backslash (s : pystr) :
  BACKSLASH ∉ s -> detex s = Some s.
Proof.
  intros H. apply detex_unrecognized;
    (eapply occurs_without; [|exact H]); decide_literal.
Qed.

(** ** [add_source] *)

Lemma add_source_cited (row : record) (text : pystr) (m : match_obj) :
  row !! py "reference" = Some (Str text) ->
  re_match REGEX_REFERENCE text = Some m ->
  exists reference,
    add_source row = Some (<[py "Source" := StrList [reference]]> row).
Proof.
  intros Hrow Hm. unfold add_source. rewrite Hrow. simpl. rewrite Hm.
  destruct (re_match_reference_group _ _ Hm) as [bibkey ->]. simpl. eauto.
Qed.

Lemma add_source_comment (row : record) (text : pystr) :
  row !! py "reference" = Some (Str text) ->
  re_match REGEX_REFERENCE text = None ->
  add_source row = Some (<[py "Source_comment" := Str text]> row).
Proof.
  intros Hrow Hm. unfold add_source. rewrite Hrow. simpl. by rewrite Hm.
Qed.

(** On a record that carries neither field yet, [add_source] succeeds,
    sets exactly one of them and leaves the other fields alone. *)
Lemma add_source_fresh (row : record) (text : pystr) :
  row !! py "reference" = Some (Str text) ->
  row !! py "Source" = None ->
  row !! py "Source_comment" = None ->
  exists row',
    add_source row = Some row' /\ one_source row' /\
    forall k, k <> py "Source" -> k <> py "Source_comment" -> row' !! k = row !! k.
Proof.
  intros Hrow HS HC. destruct (re_match REGEX_REFERENCE text) as [m|] eqn:Hm.
  - destruct (add_source_cited _ _ _ Hrow Hm) as [reference ->].
    eexists. split; [done|]. split.
    + left. lookup_py. rewrite HC. eauto.
    + intros k Hk _. by rewrite lookup_insert_ne.
  - rewrite (add_source_comment _ _ Hrow Hm).
    eexists. split; [done|]. split.
    + right. lookup_py. rewrite HS. eauto.
    + intros k _ Hk. by rewrite lookup_insert_ne.
Qed.

(** ** [make_value] *)

Lemma make_value_coded (row : raw_row) (code_table : list (csv_cell * raw_row))
    (code_id_map : gmap (csv_cell * csv_cell) csv_cell) (param_id : pystr)
    (id cell : csv_cell) (code_id : pystr) (code : raw_row) (name : csv_cell) :
  row !! py "id" = Some id ->
  row !! param_id = Some cell ->
  code_id_map !! (Some param_id, cell) = Some (Some code_id) ->
  code_id <> [] ->
  od_get code_table (Some code_id) = Some code ->
  code !! py "Name" = Some name ->
  exists value_row,
    make_value row code_table code_id_map (Some param_id) = Some value_row /\
    value_row !! py "Value" = Some (of_cell name) /\
    value_row !! py "Code_ID" = Some (Str code_id) /\
    value_ids value_row id (Some param_id).
Proof.
  intros Hid Hcell Hmap Hne Hcode Hname. unfold make_value.
  rewrite Hid. cbn [mbind option_bind]. rewrite Hcell. cbn [mbind option_bind].
  rewrite Hmap.
  destruct code_id as [|c code_id]; [done|]. cbn [truthy]. rewrite Hcode.
  cbn [mbind option_bind]. rewrite Hname. cbn [mbind option_bind of_cell].
  eexists. split; [done|]. unfold value_ids. cbn [of_cell]. by lookup_py.
Qed.

Lemma make_value_uncoded (row : raw_row) (code_table : list (csv_cell * raw_row))
    (code_id_map : gmap (csv_cell * csv_cell) csv_cell) (param_id : pystr)
    (id cell : csv_cell) :
  row !! py "id" = Some id ->
  row !! param_id = Some cell ->
  code_id_map !! (Some param_id, cell) = None \/
  code_id_map !! (Some param_id, cell) = Some None \/
  code_id_map !! (Some param_id, cell) = Some (Some []) ->
  exists value_row,
    make_value row code_table code_id_map (Some param_id) = Some value_row /\
    value_row !! py "Value" = Some (of_cell cell) /\
    value_row !! py "Code_ID" = None /\
    value_ids value_row id (Some param_id).
Proof.
  intros Hid Hcell Hmap. unfold make_value.
  rewrite Hid. cbn [mbind option_bind]. rewrite Hcell. cbn [mbind option_bind].
  destruct Hmap as [-> | [-> | ->]]; cbn [truthy];
    (eexists; split; [done|]); unfold value_ids; cbn [of_cell]; by lookup_py.
Qed.

(** ** The language table *)

Lemma language_row_fields (row : raw_row) (rec : record) :
  language_row row = Some rec ->
  rec !! py "ID" = of_cell <$> row !! py "id" /\
  rec !! py "Glottocode" = of_cell <$> row !! py "id" /\
  rec !! py "Family_ID" = of_cell <$> row !! py "family_id" /\
  rec !! py "Parent_ID" = of_cell <$> row !! py "parent_id" /\
  rec !! py "Name" = of_cell <$> row !! py "name" /\
  rec !! py "Latitude" = of_cell <$> row !! py "latitude" /\
  rec !! py "Longitude" = of_cell <$> row !! py "longitude" /\
  rec !! py "ISO639P3code" = of_cell <$> row !! py "iso639P3code" /\
  rec !! py "reference" = of_cell <$> row !! py "reference" /\
  rec !! py "id" = None /\
  rec !! py "Source" = None /\
  rec !! py "Source_comment" = None /\
  is_Some (row !! py "id") /\
  is_Some (row !! py "reference").
Proof.
  unfold language_row, LANGUAGE_COLUMN_MAP. cbn [language_columns].
  intros H.
  destruct (row !! py "id") as [c1|]; [|done].
  destruct (row !! py "family_id") as [c2|]; [|done].
  destruct (row !! py "parent_id") as [c3|]; [|done].
  destruct (row !! py "name") as [c4|]; [|done].
  destruct (row !! py "latitude") as [c5|]; [|done].
  destruct (row !! py "longitude") as [c6|]; [|done].
  destruct (row !! py "iso639P3code") as [c7|]; [|done].
  destruct (row !! py "reference") as [c8|]; [|done].
  cbn [mbind option_bind fmap option_fmap option_map] in H |- *. simplify_eq.
  repeat split; lookup_py; eauto.
Qed.

Lemma language_row_total (row : raw_row) :
  Forall (fun column => is_Some (row !! column)) (snd <$> LANGUAGE_COLUMN_MAP) ->
  is_Some (language_row row).
Proof.
  unfold language_row, LANGUAGE_COLUMN_MAP. cbn [language_columns fmap list_fmap snd].
  intros H. decompose_Forall_hyps.
  repeat match goal with E : is_Some (row !! _) |- _ => destruct E as [? ?] end.
  repeat match goal with
         | E : row !! _ = Some _ |- _ => rewrite E; clear E; cbn [mbind option_bind]
         end.
  eauto.
Qed.

Lemma language_row_reference (row : raw_row) (rec : record) :
  language_row row = Some rec ->
  rec !! py "reference" = of_cell <$> row !! py "reference" /\
  rec !! py "Source" = None /\
  rec !! py "Source_comment" = None.
Proof.
  intros H.
  by destruct (language_row_fields _ _ H) as (_&_&_&_&_&_&_&_&Href&_&HS&HC&_).
Qed.

(** [add_source] returns only on a record whose [reference] is a string. *)
Lemma add_source_reference (row row' : record) :
  add_source row = Some row' ->
  exists text, row !! py "reference" = Some (Str text).
Proof.
  unfold add_source. intros H.
  destruct (row !! py "reference") as [[text| | |]|]; try done. eauto.
Qed.

(** [add_source] only adds [Source] or [Source_comment]. *)
Lemma add_source_other (row row' : record) (k : pystr) :
  add_source row = Some row' ->
  k <> py "Source" -> k <> py "Source_comment" ->
  row' !! k = row !! k.
Proof.
  unfold add_source. intros H HS HC.
  destruct (row !! py "reference") as [v|]; [|done]. cbn [mbind option_bind] in H.
  destruct (as_str v) as [text|]; [|done]. cbn [mbind option_bind] in H.
  destruct (re_match REGEX_REFERENCE text) as [m|].
  - destruct (group m 2); [|done]. cbn [mbind option_bind] in H. simplify_eq.
    by rewrite lookup_insert_ne.
  - simplify_eq. by rewrite lookup_insert_ne.
Qed.

Lemma add_source_one (row row' : record) (text : pystr) :
  add_source row = Some row' ->
  row !! py "reference" = Some (Str text) ->
  row !! py "Source" = None ->
  row !! py "Source_comment" = None ->
  one_source row'.
Proof.
  intros H Href HS HC.
  destruct (add_source_fresh _ _ Href HS HC) as (row'' & H' & Hone & _). congruence.
Qed.

(** ** [render_example] and [warn_about_glosses] *)

Lemma join_cons (sep p : pystr) (rest : list pystr) :
  join sep (p :: rest)
  = p ++ match rest with [] => [] | _ :: _ => sep ++ join sep rest end.
Proof. destruct rest; cbn [join]; by rewrite ?app_nil_r. Qed.

Lemma drop_while_split (f : N -> bool) (s : pystr) :
  exists l,
    s = l ++ drop_while f s /\
    Forall (fun c => f c = true) l /\
    forall c, head (drop_while f s) = Some c -> f c = false.
Proof.
  induction s as [|a s (l & Hs & Hl & Hhead)]; cbn [drop_while].
  - exists []. split; [done|]. split; [constructor|]. done.
  - destruct (f a) eqn:Ha.
    + exists (a :: l). split; [cbn [app]; by rewrite <- Hs|].
      split; [by constructor|done].
    + exists []. split; [done|]. split; [constructor|].
      intros c Hc. cbn [head] in Hc. by simplify_eq.
Qed.

(** [sep.join(parts)] followed by one more separator: every part
    followed by the separator. *)
Lemma join_separated (sep : pystr) (parts : list pystr) :
  parts <> [] ->
  join sep parts ++ sep = concat ((fun p => p ++ sep) <$> parts).
Proof.
  induction parts as [|p parts IH]; [done|]. intros _.
  rewrite join_cons, fmap_cons. cbn [concat].
  destruct parts as [|q parts].
  - cbn [fmap list_fmap concat]. by rewrite !app_nil_r.
  - rewrite <- !(assoc_L (++)). do 2 f_equal. by apply IH.
Qed.

(** [rstrip] takes the white space off the end and nothing else. *)
Lemma rstrip_spec (s : pystr) :
  exists padding,
    s = rstrip s ++ padding /\
    Forall (fun c => isspace c = true) padding /\
    forall c, last (rstrip s) = Some c -> isspace c = false.
Proof.
  unfold rstrip.
  destruct (drop_while_split isspace (reverse s)) as (l & Hs & Hl & Hhead).
  exists (reverse l). split; [|split].
  - rewrite <- reverse_app, <- Hs. by rewrite reverse_involutive.
  - by apply Forall_reverse.
  - intros c Hc. apply Hhead. by rewrite last_reverse in Hc.
Qed.

Lemma ljust_zero (s : pystr) : ljust s 0 = s.
Proof. unfold ljust. simpl. by rewrite app_nil_r. Qed.

Lemma padded_line_length (xs ys : list pystr) :
  length (padded_line xs ys) = length xs.
Proof.
  revert ys. induction xs as [|x xs IH]; intros [|y ys]; simpl; auto.
Qed.

Lemma padded_line_paired (xs ys : list pystr) (i : nat) (x y : pystr) :
  xs !! i = Some x -> ys !! i = Some y ->
  padded_line xs ys !! i = Some (ljust x (Z.max (len x) (len y))).
Proof.
  revert ys i. induction xs as [|x' xs IH]; intros [|y' ys] [|i] Hx Hy;
    simplify_eq/=; eauto.
Qed.

Lemma padded_line_beyond (xs ys : list pystr) (i : nat) :
  (length ys <= i)%nat -> padded_line xs ys !! i = xs !! i.
Proof.
  revert ys i. induction xs as [|x xs IH]; intros [|y ys] [|i] Hi;
    simpl in *; try done; try lia.
  - by rewrite ljust_zero.
  - apply (IH []). simpl. lia.
  - apply IH. lia.
Qed.

Lemma zip_longest_nil_r (fillvalue : value) (l : list value) :
  zip_longest fillvalue l [] = (fun x => (x, fillvalue)) <$> l.
Proof. by destruct l. Qed.

Lemma padded_tokens_alone (xs : list pystr) :
  mapM (fun ww : value * value => ljust_method ww.1 ww.2)
       ((fun x => (x, Int 0)) <$> (Str <$> xs))
  = Some (padded_line xs []).
Proof.
  induction xs as [|x xs IH]; [done|]. rewrite !fmap_cons. cbn [mapM]. by rewrite IH.
Qed.

(** The two comprehensions of [render_example] never meet the fill value
    on the side of the tokens: there are at most as many widths as
    tokens. *)
Lemma padded_tokens (xs ys : list pystr) (widths : list Z) :
  Forall2 (fun w xy => w = Z.max (len (xy.1 : pystr)) (len (xy.2 : pystr)))
          widths (zip xs ys) ->
  mapM (fun ww : value * value => ljust_method ww.1 ww.2)
       (zip_longest (Int 0) (Str <$> xs) (Int <$> widths))
  = Some (padded_line xs ys).
Proof.
  revert ys widths. induction xs as [|x xs IH]; intros ys widths H.
  - simpl in H. by apply Forall2_nil_inv_r in H as ->.
  - destruct ys as [|y ys].
    + simpl in H. apply Forall2_nil_inv_r in H as ->.
      change (Int <$> []) with (@nil value). rewrite zip_longest_nil_r.
      apply padded_tokens_alone.
    + simpl in H. apply Forall2_cons_inv_r in H as (w & widths' & Hw & H & ->).
      simpl in Hw. subst w. rewrite !fmap_cons. cbn [zip_longest mapM].
      by rewrite (IH _ _ H).
Qed.

Lemma widths_of_words (words glosses : list pystr) :
  Forall2 (fun w xy => w = Z.max (len (xy.1 : pystr)) (len (xy.2 : pystr)))
    ((fun wg : pystr * pystr => Z.max (len wg.1) (len wg.2)) <$> zip words glosses)
    (zip words glosses).
Proof. apply Forall2_fmap_l, Forall_Forall2_diag, Forall_true. done. Qed.

Lemma widths_of_glosses (words glosses : list pystr) :
  Forall2 (fun w xy => w = Z.max (len (xy.1 : pystr)) (len (xy.2 : pystr)))
    ((fun wg : pystr * pystr => Z.max (len wg.1) (len wg.2)) <$> zip words glosses)
    (zip glosses words).
Proof.
  revert glosses. induction words as [|w words IH]; intros [|g glosses]; simpl;
    try constructor; [apply Z.max_comm|apply IH].
Qed.

Lemma label_indent (id : pystr) :
  repeat SPACE (Z.to_nat (len id)) ++ py "    "
  = repeat SPACE (length (py "(" ++ id ++ py ")  ")).
Proof.
  unfold len. rewrite Nat2Z.id, !length_app.
  change (length (py "(")) with 1%nat. change (length (py ")  ")) with 3%nat.
  replace (1 + (length id + 3))%nat with (length id + 4)%nat by lia.
  by rewrite repeat_app.
Qed.

Lemma render_example_renderable (example : record) (id : pystr)
    (words glosses : list pystr) :
  example !! py "ID" = Some (Str id) ->
  example !! py "Analyzed_Word" = Some (StrList words) ->
  example !! py "Gloss" = Some (StrList glosses) ->
  render_example example
  = Some ((py "(" ++ id ++ py ")  ")
          ++ rstrip (join (py "  ") (padded_line words glosses))
          ++ [LF]
          ++ repeat SPACE (length (py "(" ++ id ++ py ")  "))
          ++ rstrip (join (py "  ") (padded_line glosses words))).
Proof.
  intros Hid Hw Hg. unfold render_example. rewrite Hid, Hw, Hg.
  cbn [mbind option_bind as_tokens as_str].
  rewrite (padded_tokens _ _ _ (widths_of_words words glosses)).
  rewrite (padded_tokens _ _ _ (widths_of_glosses words glosses)).
  cbn [mbind option_bind]. rewrite <- label_indent.
  by rewrite <- !(assoc_L (++)).
Qed.

Lemma misaligned_renderable (example : record) :
  renderable example ->
  misaligned example = Some (bool_decide (mismatched example)).
Proof.
  intros (id & words & glosses & _ & Hw & Hg).
  assert (mismatched example <-> length words <> length glosses) as Hm
    by (unfold mismatched; by rewrite Hw, Hg).
  unfold misaligned. rewrite Hw, Hg. cbn [mbind option_bind as_tokens]. f_equal.
  rewrite (bool_decide_ext _ _ Hm).
  destruct (decide (length words = length glosses)) as [E|E].
  - rewrite E, Nat.eqb_refl. simpl. by rewrite bool_decide_eq_false_2 by auto.
  - apply Nat.eqb_neq in E as E'. rewrite E'. simpl. by rewrite bool_decide_eq_true_2.
Qed.

Lemma select_misaligned_renderable (example_table : list record) :
  Forall renderable example_table ->
  select_misaligned example_table = Some (filter mismatched example_table).
Proof.
  induction 1 as [|example rest Hex _ IH]; [done|].
  cbn [select_misaligned]. rewrite (misaligned_renderable _ Hex), IH.
  cbn [mbind option_bind]. rewrite filter_cons.
  by destruct (decide (mismatched example)) as [H|H];
    [rewrite (bool_decide_eq_true_2 _ H)|rewrite (bool_decide_eq_false_2 _ H)].
Qed.

(** On the examples of the pipeline the validator returns, and prints the
    header and one rendering for each misaligned example. *)
Lemma warn_about_glosses_renderable (example_table : list record) :
  Forall renderable example_table ->
  exists renderings,
    mapM render_example (filter mismatched example_table) = Some renderings /\
    warn_about_glosses example_table = Some (diagnostics renderings).
Proof.
  intros Hall. unfold warn_about_glosses.
  rewrite (select_misaligned_renderable _ Hall). cbn [mbind option_bind].
  assert (is_Some (mapM render_example (filter mismatched example_table)))
    as [renderings Hr].
  { apply mapM_is_Some, Forall_forall. intros example Hin.
    apply list_elem_of_filter in Hin as [_ Hin].
    rewrite Forall_forall in Hall. destruct (Hall _ Hin) as (id & ws & gs & ? & ? & ?).
    simpl. erewrite render_example_renderable by done. eauto. }
  exists renderings. split; [done|]. rewrite Hr.
  destruct (filter mismatched example_table) eqn:E.
  - change (Some [] = Some renderings) in Hr. by simplify_eq.
  - cbn [mbind option_bind]. apply length_mapM in Hr.
    destruct renderings; [done|]. done.
Qed.

(** ** The example table *)

Lemma example_row_fields (example : gmap pystr pystr) (built : record) :
  example_row example = Some built ->
  exists lang_id words glosses reference,
    example !! py "lang_id" = Some lang_id /\
    built !! py "Language_ID" = Some (Str (fix_example_lang_id lang_id)) /\
    built !! py "Analyzed_Word" = Some (StrList words) /\
    built !! py "Gloss" = Some (StrList glosses) /\
    built !! py "reference" = Some (Str reference) /\
    built !! py "ID" = None /\
    built !! py "Source" = None /\
    built !! py "Source_comment" = None.
Proof.
  unfold example_row. intros H.
  repeat match type of H with
         | (?o ≫= _) = Some _ =>
             let E := fresh "E" in
             destruct o eqn:E; [cbn [mbind option_bind] in H|done]
         end.
  simplify_eq. cbn [dict_of foldl fst snd].
  eexists _, _, _, _. split; [done|]. repeat split; by lookup_py.
Qed.

(** One example after the loop: the record built from the raw row, with
    its identifier and its source. *)
Lemma number_examples_spec (example_table : list record) :
  forall (counter : gmap pystr Z) (numbered : list record),
    number_examples counter example_table = Some numbered ->
    length numbered = length example_table /\
    forall k example,
      numbered !! k = Some example ->
      exists before language_id,
        example_table !! k = Some before /\
        before !! py "Language_ID" = Some (Str language_id) /\
        example !! py "Language_ID" = Some (Str language_id) /\
        example !! py "ID"
        = Some (Str (language_id ++ py "-"
                     ++ str_of_int (default 0%Z (counter !! language_id)
                                    + Z.of_nat (examples_of language_id
                                                  (take (S k) numbered))))) /\
        exists id, add_source (<[py "ID" := Str id]> before) = Some example.
Proof.
  induction example_table as [|before rest IH]; intros counter numbered H.
  - cbn [number_examples] in H. simplify_eq. split; [done|]. intros k example Hk. done.
  - cbn [number_examples] in H.
    destruct (before !! py "Language_ID") as [v|] eqn:Hlang; [|done].
    cbn [mbind option_bind] in H.
    destruct v as [language_id| | |]; cbn [as_str mbind option_bind] in H; try done.
    rewrite lookup_insert_eq in H. cbn [default] in H.
    set (n := (default 0 (counter !! language_id) + 1)%Z) in *.
    destruct (add_source _) as [example|] eqn:Hsrc; [|done].
    cbn [mbind option_bind] in H.
    destruct (number_examples _ rest) as [rest'|] eqn:Hrest; [|done].
    cbn [mbind option_bind] in H. simplify_eq.
    destruct (IH _ _ Hrest) as [Hlen Hall]. split; [cbn [length]; by rewrite Hlen|].
    assert (example !! py "Language_ID" = Some (Str language_id)) as Hex.
    { rewrite (add_source_other _ _ _ Hsrc) by py_neq.
      by rewrite lookup_insert_ne by py_neq. }
    assert (example !! py "ID"
            = Some (Str (language_id ++ py "-" ++ str_of_int n))) as Hid.
    { rewrite (add_source_other _ _ _ Hsrc) by py_neq. by rewrite lookup_insert_eq. }
    intros [|k] ex Hk.
    + cbn [lookup list_lookup] in Hk |- *. simplify_eq.
      exists before, language_id. split; [done|]. split; [done|]. split; [done|].
      split; [|eauto].
      rewrite Hid. unfold examples_of.
      rewrite firstn_cons, take_0, filter_cons, decide_True by done.
      rewrite filter_nil. subst n. done.
    + cbn [lookup list_lookup] in Hk |- *.
      destruct (Hall _ _ Hk) as (bef & lang & Hb & Hbl & Hel & Hidk & Hadd).
      exists bef, lang. split; [done|]. split; [done|]. split; [done|].
      split; [|done]. rewrite Hidk. do 4 f_equal.
      unfold examples_of. rewrite firstn_cons, filter_cons.
      destruct (decide (lang = language_id)) as [->|Hne].
      * rewrite lookup_insert_eq, decide_True by done. cbn [default length]. subst n.
        f_equal. unfold id. lia.
      * rewrite lookup_insert_ne, decide_False by congruence. done.
Qed.

(** ** [cmd_makecldf] *)

(** The stages of a run that succeeds. *)
Lemma make_tables_stages (inp : inputs) (t : tables) :
  make_tables inp = Some t ->
  exists rows parameter_ids code_id_map value_rows built,
    mapM language_row (estimative_csv inp) = Some rows /\
    mapM add_source rows = Some (language_table t) /\
    mapM (fun param : raw_row => param !! py "ID") (parameters_csv inp)
    = Some parameter_ids /\
    mapM (fun row =>
            mapM (fun param_id => make_value row (code_table t) code_id_map param_id)
                 parameter_ids)
         (estimative_csv inp)
    = Some value_rows /\
    value_table t = concat value_rows /\
    mapM example_row
         ((fun example => dict_of (zip EXAMPLE_COLUMNS example))
            <$> estimative_ex_csv inp)
    = Some built /\
    number_examples ∅ built = Some (example_table t).
Proof.
  unfold make_tables. intros H.
  repeat match type of H with
         | (?o ≫= _) = Some _ =>
             let E := fresh "E" in
             destruct o eqn:E; [cbn [mbind option_bind] in H|done]
         end.
  simplify_eq. cbn [language_table code_table value_table example_table].
  eexists _, _, _, _, _. repeat split; done.
Qed.

Lemma cmd_makecldf_tables (inp : inputs) (out : cldf) :
  cmd_makecldf inp = Some out ->
  exists t,
    make_tables inp = Some t /\
    warn_about_glosses (example_table t) = Some (stderr out) /\
    LanguageTable out = language_table t /\
    ValueTable out = value_table t /\
    ExampleTable out = example_table t.
Proof.
  unfold cmd_makecldf. intros H.
  destruct (make_tables inp) as [t|]; [|done]. cbn [mbind option_bind] in H.
  destruct (warn_about_glosses _) as [printed|] eqn:E; [|done].
  cbn [mbind option_bind] in H.
  destruct (write_schema _) as [w|]; [|done].
  cbn [mbind option_bind] in H. simplify_eq.
  cbn [stderr LanguageTable ValueTable ExampleTable]. eauto 10.
Qed.

(** A run returns exactly when the tables are built and the writer accepts
    the schema and the sources: [warn_about_glosses] in between raises
    nothing. *)
Lemma cmd_makecldf_written (inp : inputs) (out : cldf) :
  cmd_makecldf inp = Some out ->
  exists t,
    make_tables inp = Some t /\
    write_schema (bibtex_code t) = Some (dataset out) /\
    ParameterTable out = parameter_table t /\
    CodeTable out = od_values (code_table t).
Proof.
  unfold cmd_makecldf. intros H.
  destruct (make_tables inp) as [t|]; [|done]. cbn [mbind option_bind] in H.
  destruct (warn_about_glosses _) as [printed|] eqn:E; [|done].
  cbn [mbind option_bind] in H.
  destruct (write_schema _) as [w|] eqn:Hw; [|done].
  cbn [mbind option_bind] in H. simplify_eq.
  cbn [dataset ParameterTable CodeTable]. by exists t.
Qed.

(** *** The value table *)

Lemma make_value_ids (row : raw_row) (code_table : list (csv_cell * raw_row))
    (code_id_map : gmap (csv_cell * csv_cell) csv_cell) (param_id : csv_cell)
    (value_row : record) :
  make_value row code_table code_id_map param_id = Some value_row ->
  exists id, row !! py "id" = Some id /\ value_ids value_row id param_id.
Proof.
  unfold make_value. intros H.
  destruct (row !! py "id") as [id|]; [|done]. cbn [mbind option_bind] in H.
  destruct (match param_id with Some column => row !! column | None => None end)
    as [cell|]; [|done].
  cbn [mbind option_bind] in H.
  exists id. split; [done|]. destruct (truthy _).
  - destruct (od_get _ _) as [code|]; [|done]. cbn [mbind option_bind] in H.
    destruct (code !! py "Name") as [name|]; [|done]. cbn [mbind option_bind] in H.
    simplify_eq. unfold value_ids. by lookup_py.
  - simplify_eq. unfold value_ids. by lookup_py.
Qed.

(** Rows of one length, laid end to end. *)
Lemma concat_uniform_length {A} (rows : list (list A)) (m : nat) :
  Forall (fun row => length row = m) rows ->
  length (concat rows) = (length rows * m)%nat.
Proof.
  induction 1 as [|row rows Hrow _ IH]; [done|].
  cbn [concat length]. rewrite length_app, IH, Hrow. lia.
Qed.

Lemma concat_uniform_lookup {A} (rows : list (list A)) (m i j : nat) (row : list A) :
  Forall (fun row => length row = m) rows ->
  rows !! i = Some row -> (j < m)%nat ->
  concat rows !! (i * m + j)%nat = row !! j.
Proof.
  intros Hall. revert i. induction Hall as [|r rows Hr _ IH]; intros i Hi Hj; [done|].
  cbn [concat]. destruct i as [|i].
  - cbn [lookup list_lookup] in Hi. simplify_eq. rewrite Nat.mul_0_l, Nat.add_0_l.
    apply lookup_app_l. lia.
  - cbn [lookup list_lookup] in Hi. rewrite lookup_app_r by (rewrite Hr; lia).
    rewrite Hr. replace (S i * m + j - m)%nat with (i * m + j)%nat by lia.
    by apply IH.
Qed.

(** *** The example table *)

Lemma raw_example_lang_id (cells : list pystr) :
  dict_of (zip EXAMPLE_COLUMNS cells) !! py "lang_id" = cells !! 0%nat.
Proof.
  unfold EXAMPLE_COLUMNS.
  destruct cells as [|c1 [|c2 [|c3 [|c4 [|c5 cells]]]]];
    cbn [zip zip_with dict_of foldl fst snd lookup list_lookup]; by lookup_py.
Qed.

(** Every example of the table: where it comes from and what the loop
    made of it. *)
Lemma example_table_built (inp : inputs) (t : tables) :
  make_tables inp = Some t ->
  length (example_table t) = length (estimative_ex_csv inp) /\
  forall k example,
    example_table t !! k = Some example ->
    exists cells lang_id id words glosses,
      estimative_ex_csv inp !! k = Some cells /\
      cells !! 0%nat = Some lang_id /\
      example !! py "Language_ID" = Some (Str (fix_example_lang_id lang_id)) /\
      id = fix_example_lang_id lang_id ++ py "-"
           ++ str_of_int (Z.of_nat (examples_of (fix_example_lang_id lang_id)
                                      (take (S k) (example_table t)))) /\
      example !! py "ID" = Some (Str id) /\
      example !! py "Analyzed_Word" = Some (StrList words) /\
      example !! py "Gloss" = Some (StrList glosses) /\
      one_source example.
Proof.
  intros H.
  destruct (make_tables_stages _ _ H)
    as (_ & _ & _ & _ & built & _ & _ & _ & _ & _ & Hbuilt & Hnum).
  destruct (number_examples_spec _ _ _ Hnum) as [Hlen Hall].
  apply mapM_Some_1 in Hbuilt as Hrows.
  split.
  { rewrite Hlen, <- (Forall2_length _ _ _ Hrows). apply length_fmap. }
  intros k example Hk.
  destruct (Hall _ _ Hk) as (before & language_id & Hb & Hbl & Hel & Hid & id & Hadd).
  destruct (Forall2_lookup_r _ _ _ _ _ Hrows Hb) as (raw & Hraw & Hrow).
  apply list_lookup_fmap_Some in Hraw as (cells & -> & Hcells).
  destruct (example_row_fields _ _ Hrow)
    as (lang_id & words & glosses & reference & Hl & HL & HW & HG & HR & HI & HS & HC).
  rewrite raw_example_lang_id in Hl.
  assert (language_id = fix_example_lang_id lang_id) as -> by congruence.
  rewrite lookup_empty in Hid. cbn [default] in Hid.
  rewrite Z.add_0_l in Hid.
  eexists cells, lang_id, _, words, glosses.
  split; [done|]. split; [done|]. split; [done|]. split; [reflexivity|].
  split; [done|].
  split; [rewrite (add_source_other _ _ _ Hadd) by py_neq;
          by rewrite lookup_insert_ne by py_neq|].
  split; [rewrite (add_source_other _ _ _ Hadd) by py_neq;
          by rewrite lookup_insert_ne by py_neq|].
  eapply (add_source_one _ _ reference Hadd); by rewrite lookup_insert_ne by py_neq.
Qed.

Lemma example_table_renderable (inp : inputs) (t : tables) :
  make_tables inp = Some t -> Forall renderable (example_table t).
Proof.
  intros H. destruct (example_table_built _ _ H) as [_ Hall].
  apply Forall_lookup. intros k example Hk.
  destruct (Hall _ _ Hk) as (?&?&id&words&glosses&_&_&_&_&?&?&?&_).
  by exists id, words, glosses.
Qed.

Lemma language_columns_other (column_map : list (pystr * pystr)) (row : raw_row) :
  forall acc rec key,
    language_columns column_map row acc = Some rec ->
    key ∉ fst <$> column_map ->
    rec !! key = acc !! key.
Proof.
  induction column_map as [|[new_key old_key] column_map IH];
    intros acc rec key H Hkey; cbn [language_columns] in H.
  - by simplify_eq.
  - destruct (row !! old_key) as [cell|]; [|done]. cbn [mbind option_bind] in H.
    rewrite fmap_cons in Hkey. apply not_elem_of_cons in Hkey as [Hne Hkey].
    rewrite (IH _ _ _ H Hkey). by rewrite lookup_insert_ne.
Qed.

(** The comprehension reads the old columns of the map and no other. *)
Lemma language_columns_ext (column_map : list (pystr * pystr)) (row row' : raw_row) :
  Forall (fun column => row' !! column = row !! column) (snd <$> column_map) ->
  forall acc, language_columns column_map row' acc = language_columns column_map row acc.
Proof.
  induction column_map as [|[new_key old_key] column_map IH]; intros Hall acc;
    cbn [language_columns]; [done|].
  rewrite fmap_cons in Hall. apply Forall_cons in Hall as [Hcell Hall].
  cbn [snd] in Hcell. rewrite Hcell.
  destruct (row !! old_key) as [cell|]; [|done]. cbn [mbind option_bind].
  by apply IH.
Qed.

Lemma language_row_columns (row : raw_row) (built : record) :
  language_row row = Some built ->
  Forall (fun column => is_Some (row !! column)) (snd <$> LANGUAGE_COLUMN_MAP).
Proof.
  unfold language_row, LANGUAGE_COLUMN_MAP.
  cbn [language_columns fmap list_fmap snd]. intros H.
  repeat match type of H with
         | (?o ≫= _) = Some _ =>
             let E := fresh "E" in
             destruct o eqn:E; [cbn [mbind option_bind] in H|done]
         end.
  repeat (constructor; [by eauto|]). constructor.
Qed.

(** * Main theorems *)

(** C1 (as amended).  Each pair of [LANGUAGE_COLUMN_MAP] is (output name,
    original name): a raw row is converted exactly when it has the eight
    original columns [id], [family_id], ..., [reference], and the record
    built then holds, under each output name, the row's cell of the
    original name ([None] for a cell the row was too short for) and
    nothing under any other name.  In particular [ID] and [Glottocode]
    both hold the row's [id] cell, no two pairs write the same output
    field, and the record has no [id] field.  No other column of the row
    is read, a [Glottocode] or [ID] column least of all: two rows that
    agree on the eight original columns are converted alike. *)
Theorem language_row_renames (row : raw_row) :
  (is_Some (language_row row) <->
   Forall (fun column => is_Some (row !! column)) (snd <$> LANGUAGE_COLUMN_MAP)) /\
  (forall row' : raw_row,
      Forall (fun column => row' !! column = row !! column)
             (snd <$> LANGUAGE_COLUMN_MAP) ->
      language_row row' = language_row row) /\
  (py "Glottocode" ∉ snd <$> LANGUAGE_COLUMN_MAP) /\
  (py "ID" ∉ snd <$> LANGUAGE_COLUMN_MAP) /\
  forall built : record,
    language_row row = Some built ->
    Forall (fun names : pystr * pystr => built !! names.1 = of_cell <$> row !! names.2)
           LANGUAGE_COLUMN_MAP /\
    (forall key, is_Some (built !! key) -> key ∈ fst <$> LANGUAGE_COLUMN_MAP) /\
    built !! py "ID" = of_cell <$> row !! py "id" /\
    built !! py "Glottocode" = of_cell <$> row !! py "id" /\
    is_Some (row !! py "id") /\
    NoDup (fst <$> LANGUAGE_COLUMN_MAP) /\
    built !! py "id" = None.
Proof.
  split; [|split; [|split; [|split]]].
  - split; [|apply language_row_total].
    intros [built H]. by eapply language_row_columns.
  - intros row' Hall. by apply language_columns_ext.
  - decide_literal.
  - decide_literal.
  - intros built H.
    destruct (language_row_fields _ _ H)
      as (H1&H2&H3&H4&H5&H6&H7&H8&H9&Hid&_&_&Hsome&_).
    split; [|split; [|split; [done|split; [done|split; [done|split; [|done]]]]]].
    + unfold LANGUAGE_COLUMN_MAP. by repeat constructor.
    + intros key Hkey.
      destruct (decide (key ∈ fst <$> LANGUAGE_COLUMN_MAP)) as [|Hout]; [done|].
      unfold language_row in H.
      rewrite (language_columns_other _ _ _ _ _ H Hout), lookup_empty in Hkey.
      by destruct Hkey.
    + decide_literal.
Qed.

(** C2.  [add_source] on the reference [\citet[273]{bruce79alamblak}]
    sets [Source] to the one-element list [bruce79alamblak[273]]; on
    [\citep{foo79bar}] to [foo79bar]; on [\citet[12;14]{x}] to [x[12,14]];
    and on every reference that [REGEX_REFERENCE] does not match at its
    start ([p.c.] is one) it sets [Source_comment] to the whole reference
    and leaves [Source] as it was (unset on a record without one). *)
Theorem add_source_citations (row : record) (reference : pystr) :
  row !! py "reference" = Some (Str reference) ->
  (reference = py "\citet[273]{bruce79alamblak}" ->
   add_source row = Some (<[py "Source" := StrList [py "bruce79alamblak[273]"]]> row)) /\
  (reference = py "\citep{foo79bar}" ->
   add_source row = Some (<[py "Source" := StrList [py "foo79bar"]]> row)) /\
  (reference = py "\citet[12;14]{x}" ->
   add_source row = Some (<[py "Source" := StrList [py "x[12,14]"]]> row)) /\
  (re_match REGEX_REFERENCE reference = None ->
   exists row',
     add_source row = Some row' /\
     row' = <[py "Source_comment" := Str reference]> row /\
     row' !! py "Source" = row !! py "Source") /\
  re_match REGEX_REFERENCE (py "p.c.") = None.
Proof.
  intros Hrow.
  assert (forall text source,
             reference = text ->
             (match re_match REGEX_REFERENCE text with
              | Some m =>
                  bibkey ← group m 2;
                  Some (if truthy (group m 1)
                        then bibkey ++ py "[" ++ replace (default [] (group m 1))
                                                   (py ";") (py ",") ++ py "]"
                        else bibkey)
              | None => None
              end) = Some source ->
             add_source row = Some (<[py "Source" := StrList [source]]> row)) as Hcite.
  { intros text source -> Hm. unfold add_source. rewrite Hrow.
    cbn [mbind option_bind as_str]. destruct (re_match _ _) as [m|]; [|done].
    destruct (group m 2) as [bibkey|]; [|done]. cbn [mbind option_bind] in Hm |- *.
    by simplify_eq. }
  split; [intros E; apply (Hcite _ _ E); by vm_compute|].
  split; [intros E; apply (Hcite _ _ E); by vm_compute|].
  split; [intros E; apply (Hcite _ _ E); by vm_compute|].
  split; [|by vm_compute].
  intros Hm. eexists. split; [by apply add_source_comment|]. split; [done|].
  by rewrite lookup_insert_ne by py_neq.
Qed.

(** C3 (as amended).  [patch_biblio] and [fix_example_lang_id] are
    idempotent on every string.  [detex] is a function that always
    returns, and cleaning its result again changes nothing whenever none
    of its four macros ([$\rightarrow$], [$\emptyset$], [\tld{}],
    [\textsc{]) starts in that result, whatever other markup it holds; a
    result without a backslash is one such. *)
Theorem idempotent_operations :
  (forall s, patch_biblio (patch_biblio s) = patch_biblio s) /\
  (forall s, fix_example_lang_id (fix_example_lang_id s) = fix_example_lang_id s) /\
  (forall s, exists t,
      detex s = Some t /\
      (occurs (py "$\rightarrow$") t = false ->
       occurs (py "$\emptyset$") t = false ->
       occurs (py "\tld{}") t = false ->
       occurs (py "\textsc{") t = false ->
       detex t = Some t) /\
      (BACKSLASH ∉ t -> detex t = Some t)).
Proof.
  split; [apply patch_biblio_idempotent|]. split.
  - intros s. unfold fix_example_lang_id.
    destruct (decide (s = py "wara1247")) as [->|Hs].
    + by rewrite decide_False by py_neq.
    + by rewrite decide_False.
  - intros s. destruct (detex_total s) as [t Ht]. exists t. split; [done|].
    split; [apply detex_unrecognized|apply detex_without_backslash].
Qed.

(** C4 (as amended).  For a raw row with an [id] cell and a cell for the
    parameter (either may be [None] where the row was short): if the code
    mapping sends (parameter id, cell) to a code id that is not the empty
    string, and the code table holds that code with a [Name], the
    record's [Value] is that [Name] and its [Code_ID] the code id; if the
    pair is not in the mapping, or is mapped to [None] or to the empty
    string, [Value] is the cell as it is and there is no [Code_ID].  In
    all these cases [make_value] returns, and the record's [ID] is the
    language id, a hyphen and the parameter id. *)
Theorem make_value_lookup (row : raw_row) (code_table : list (csv_cell * raw_row))
    (code_id_map : gmap (csv_cell * csv_cell) csv_cell) (param_id : pystr)
    (id cell : csv_cell) :
  row !! py "id" = Some id ->
  row !! param_id = Some cell ->
  (forall code_id code name,
      code_id_map !! (Some param_id, cell) = Some (Some code_id) ->
      code_id <> [] ->
      od_get code_table (Some code_id) = Some code ->
      code !! py "Name" = Some name ->
      exists value_row,
        make_value row code_table code_id_map (Some param_id) = Some value_row /\
        value_row !! py "Value" = Some (of_cell name) /\
        value_row !! py "Code_ID" = Some (Str code_id) /\
        value_ids value_row id (Some param_id)) /\
  (code_id_map !! (Some param_id, cell) = None \/
   code_id_map !! (Some param_id, cell) = Some None \/
   code_id_map !! (Some param_id, cell) = Some (Some []) ->
   exists value_row,
     make_value row code_table code_id_map (Some param_id) = Some value_row /\
     value_row !! py "Value" = Some (of_cell cell) /\
     value_row !! py "Code_ID" = None /\
     value_ids value_row id (Some param_id)).
Proof.
  intros Hid Hcell. split.
  - intros code_id code name. by apply make_value_coded.
  - by apply make_value_uncoded.
Qed.

Lemma renderings_identify (bad : list record) (renderings : list pystr) :
  Forall renderable bad ->
  mapM render_example bad = Some renderings ->
  Forall2 (fun example rendering =>
             render_example example = Some rendering /\
             exists id rest,
               example !! py "ID" = Some (Str id) /\
               rendering = py "(" ++ id ++ py ")  " ++ rest)
          bad renderings.
Proof.
  intros Hbad Hr. apply mapM_Some_1 in Hr.
  induction Hr as [|example rendering bad renderings Hx _ IH];
    constructor; apply Forall_cons in Hbad as [Hex Hbad]; [|by apply IH].
  split; [done|]. destruct Hex as (id & words & glosses & Hid & Hw & Hg).
  rewrite (render_example_renderable _ _ _ _ Hid Hw Hg) in Hx.
  simplify_eq. rewrite <- !(assoc_L (++)). eauto.
Qed.

(** C5.  In a run that succeeds the value table has one record for every
    pair of a raw data row and a parameter, (number of rows) times
    (number of parameters) in all, the parameters in the order of the
    parameter table within the rows in their order; the record of row [i]
    and parameter [j] has the identity made of the row's [id], a hyphen
    and the parameter's [ID]. *)
Theorem value_table_cross_product (inp : inputs) (out : cldf) :
  cmd_makecldf inp = Some out ->
  length (ValueTable out)
  = (length (estimative_csv inp) * length (parameters_csv inp))%nat /\
  forall (i j : nat) (row param : raw_row),
    estimative_csv inp !! i = Some row ->
    parameters_csv inp !! j = Some param ->
    exists id param_id value_row,
      row !! py "id" = Some id /\
      param !! py "ID" = Some param_id /\
      ValueTable out !! (i * length (parameters_csv inp) + j)%nat = Some value_row /\
      value_ids value_row id param_id.
Proof.
  intros H. destruct (cmd_makecldf_tables _ _ H) as (t & Ht & _ & _ & -> & _).
  destruct (make_tables_stages _ _ Ht)
    as (_ & parameter_ids & code_id_map & value_rows & _ & _ & _ & Hids & Hrows & -> & _).
  apply mapM_Some_1 in Hrows. apply mapM_Some_1 in Hids.
  pose proof (Forall2_length _ _ _ Hids) as Hm.
  assert (Forall (fun r => length r = length (parameters_csv inp)) value_rows) as Hall.
  { apply Forall_forall. intros r Hr.
    apply list_elem_of_lookup in Hr as [i Hi].
    destruct (Forall2_lookup_r _ _ _ _ _ Hrows Hi) as (row & _ & Hrow).
    apply length_mapM in Hrow. congruence. }
  split.
  - rewrite (concat_uniform_length _ _ Hall). by rewrite (Forall2_length _ _ _ Hrows).
  - intros i j row param Hi Hj.
    destruct (Forall2_lookup_l _ _ _ _ _ Hrows Hi) as (values & Hvalues & Hrow).
    destruct (Forall2_lookup_l _ _ _ _ _ Hids Hj) as (param_id & Hparam_id & Hparam).
    apply mapM_Some_1 in Hrow.
    destruct (Forall2_lookup_l _ _ _ _ _ Hrow Hparam_id) as (value_row & Hv & Hmake).
    destruct (make_value_ids _ _ _ _ _ Hmake) as (id & Hid & Hvalue).
    exists id, param_id, value_row. split; [done|]. split; [done|]. split; [|done].
    rewrite (concat_uniform_lookup _ _ _ _ _ Hall Hvalues); [done|].
    by apply lookup_lt_Some in Hj.
Qed.

(** C6.  In a run that succeeds the example table has one record for each
    raw example, in the order of the input; the record's [Language_ID] is
    the raw language id as corrected by [fix_example_lang_id], and its
    [ID] is that language id, a hyphen and the number (in decimal) of the
    examples of the same language up to and including this one: 1, 2, 3,
    ... in input order for each language, whatever other languages'
    examples lie in between. *)
Theorem example_numbering (inp : inputs) (out : cldf) :
  cmd_makecldf inp = Some out ->
  length (ExampleTable out) = length (estimative_ex_csv inp) /\
  forall (k : nat) (example : record),
    ExampleTable out !! k = Some example ->
    exists cells lang_id,
      estimative_ex_csv inp !! k = Some cells /\
      cells !! 0%nat = Some lang_id /\
      example !! py "Language_ID" = Some (Str (fix_example_lang_id lang_id)) /\
      example !! py "ID"
      = Some (Str (fix_example_lang_id lang_id ++ py "-"
                   ++ str_of_int
                        (Z.of_nat (examples_of (fix_example_lang_id lang_id)
                                     (take (S k) (ExampleTable out)))))).
Proof.
  intros H. destruct (cmd_makecldf_tables _ _ H) as (t & Ht & _ & _ & _ & ->).
  destruct (example_table_built _ _ Ht) as [Hlen Hall]. split; [done|].
  intros k example Hk.
  destruct (Hall _ _ Hk) as (cells & lang_id & id & _ & _ & ? & ? & ? & -> & ? & _).
  by exists cells, lang_id.
Qed.

(** C7.  Once the tables are built the validator cannot make the run
    fail: [warn_about_glosses] returns, and what it printed is nothing
    when no example is misaligned, and otherwise the header followed, for
    each example whose [Analyzed_Word] and [Gloss] differ in length and
    for no other, in the order of the table, by an empty line and one
    rendering that starts with the example's [ID] in parentheses.  The
    run goes on to the writer and fails only where the writer refuses the
    schema or the sources; where it accepts them, [cmd_makecldf] returns
    with the example table that was built (one record for each raw
    example, the misaligned ones among them) and with what was printed. *)
Theorem alignment_validator (inp : inputs) (t : tables) :
  make_tables inp = Some t ->
  exists renderings,
    warn_about_glosses (example_table t) = Some (diagnostics renderings) /\
    Forall2 (fun example rendering =>
               render_example example = Some rendering /\
               exists id rest,
                 example !! py "ID" = Some (Str id) /\
                 rendering = py "(" ++ id ++ py ")  " ++ rest)
            (filter mismatched (example_table t)) renderings /\
    filter mismatched (example_table t) `sublist_of` example_table t /\
    length (example_table t) = length (estimative_ex_csv inp) /\
    (cmd_makecldf inp = None <-> write_schema (bibtex_code t) = None) /\
    forall w,
      write_schema (bibtex_code t) = Some w ->
      exists out,
        cmd_makecldf inp = Some out /\
        dataset out = w /\
        ExampleTable out = example_table t /\
        stderr out = diagnostics renderings.
Proof.
  intros Ht. pose proof (example_table_renderable _ _ Ht) as Hall.
  destruct (warn_about_glosses_renderable _ Hall) as (renderings & Hr & Hwarn).
  exists renderings. split; [done|]. split.
  { apply renderings_identify; [|done].
    apply Forall_forall. intros example [_ Hin]%list_elem_of_filter.
    rewrite Forall_forall in Hall. by apply Hall. }
  split; [apply sublist_filter|].
  split; [by apply example_table_built|].
  unfold cmd_makecldf. rewrite Ht. cbn [mbind option_bind]. rewrite Hwarn.
  cbn [mbind option_bind]. split.
  - destruct (write_schema (bibtex_code t)); by cbn [mbind option_bind].
  - intros w ->. cbn [mbind option_bind]. eexists. split; [reflexivity|]. done.
Qed.


(** C9.  In a run that succeeds every record that [add_source] was called
    on (the records of the language table and of the example table, each
    with its [reference]) carries exactly one of [Source] and
    [Source_comment]: never both, never neither. *)
Theorem source_exactly_one (inp : inputs) (out : cldf) :
  cmd_makecldf inp = Some out ->
  Forall (fun row => is_Some (row !! py "reference") /\ one_source row)
         (LanguageTable out) /\
  Forall (fun row => is_Some (row !! py "reference") /\ one_source row)
         (ExampleTable out).
Proof.
  intros H. destruct (cmd_makecldf_tables _ _ H) as (t & Ht & _ & -> & _ & ->).
  split.
  - destruct (make_tables_stages _ _ Ht) as (rows & _ & _ & _ & _ & Hrows & Hsrc & _).
    apply mapM_Some_1 in Hrows. apply mapM_Some_1 in Hsrc.
    apply Forall_lookup. intros k row Hk.
    destruct (Forall2_lookup_r _ _ _ _ _ Hsrc Hk) as (before & Hb & Hadd).
    destruct (Forall2_lookup_r _ _ _ _ _ Hrows Hb) as (raw & _ & Hraw).
    destruct (language_row_reference _ _ Hraw) as (_ & HS & HC).
    destruct (add_source_reference _ _ Hadd) as [text Href].
    split; [|by eapply add_source_one].
    rewrite (add_source_other _ _ _ Hadd) by py_neq. by rewrite Href.
  - destruct (make_tables_stages _ _ Ht) as (_ & _ & _ & _ & built & _ & _ & _ & _ & _ & Hbuilt & Hnum).
    destruct (number_examples_spec _ _ _ Hnum) as [_ Hall].
    destruct (example_table_built _ _ Ht) as [_ Hone].
    apply mapM_Some_1 in Hbuilt.
    apply Forall_lookup. intros k row Hk.
    destruct (Hone _ _ Hk) as (?&?&?&?&?&_&_&_&_&_&_&_&Hsrc). split; [|done].
    destruct (Hall _ _ Hk) as (before & ? & Hb & _ & _ & _ & id & Hadd).
    destruct (Forall2_lookup_r _ _ _ _ _ Hbuilt Hb) as (raw & _ & Hraw).
    destruct (example_row_fields _ _ Hraw) as (?&?&?&reference&_&_&_&_&HR&_).
    rewrite (add_source_other _ _ _ Hadd) by py_neq.
    rewrite lookup_insert_ne by py_neq. by rewrite HR.
Qed.

(** C10.  [render_example] returns on every example with an [ID] and two
    token lists, whatever their lengths: the first line is the [ID] in
    parentheses and two spaces, then the words joined by two spaces, the
    second line as many spaces as that label is wide, then the glosses
    joined by two spaces, each line with its trailing white space
    stripped.  A token that has a partner in the other line is padded to
    the longer of the two; a token beyond the shorter line is padded to
    width 0, that is, left as it is.  Joined by two spaces: every token
    is there, in order, and two spaces stand between one and the next.
    Stripped: what is taken off the end of a line is white space, and
    what is left does not end in white space. *)
Theorem render_example_total (example : record) (id : pystr)
    (words glosses : list pystr) :
  example !! py "ID" = Some (Str id) ->
  example !! py "Analyzed_Word" = Some (StrList words) ->
  example !! py "Gloss" = Some (StrList glosses) ->
  render_example example
  = Some ((py "(" ++ id ++ py ")  ")
          ++ rstrip (join (py "  ") (padded_line words glosses))
          ++ [LF]
          ++ repeat SPACE (length (py "(" ++ id ++ py ")  "))
          ++ rstrip (join (py "  ") (padded_line glosses words))) /\
  (forall i w g,
      words !! i = Some w -> glosses !! i = Some g ->
      padded_line words glosses !! i = Some (ljust w (Z.max (len w) (len g))) /\
      padded_line glosses words !! i = Some (ljust g (Z.max (len w) (len g)))) /\
  (forall i w,
      words !! i = Some w -> (length glosses <= i)%nat ->
      padded_line words glosses !! i = Some (ljust w 0) /\ ljust w 0 = w) /\
  (forall i g,
      glosses !! i = Some g -> (length words <= i)%nat ->
      padded_line glosses words !! i = Some (ljust g 0) /\ ljust g 0 = g) /\
  length (padded_line words glosses) = length words /\
  length (padded_line glosses words) = length glosses /\
  (forall w width, ljust w width = w ++ repeat SPACE (Z.to_nat width - length w)) /\
  join (py "  ") [] = [] /\
  (forall parts,
      parts <> [] ->
      join (py "  ") parts ++ py "  " = concat ((fun p => p ++ py "  ") <$> parts)) /\
  (forall line,
      exists padding,
        line = rstrip line ++ padding /\
        Forall (fun c => isspace c = true) padding /\
        forall c, last (rstrip line) = Some c -> isspace c = false).
Proof.
  intros Hid Hw Hg. split; [by apply render_example_renderable|].
  split; [|split; [|split; [|split; [|split; [|split; [|split; [|split]]]]]]].
  - intros i w g Hi Hj. split; [by apply padded_line_paired|].
    rewrite Z.max_comm. by apply padded_line_paired.
  - intros i w Hi Hlen. rewrite ljust_zero, padded_line_beyond by done. done.
  - intros i g Hi Hlen. rewrite ljust_zero, padded_line_beyond by done. done.
  - apply padded_line_length.
  - apply padded_line_length.
  - done.
  - done.
  - intros parts. apply join_separated.
  - apply rstrip_spec.
Qed.

(** * Further properties *)

(** ** [patch_biblio] *)

(** X1.  Whatever the bibliography, neither of the two malformed author
    lists is left in what [patch_biblio] returns. *)
Theorem patch_biblio_removes_fragments (bibtex_code : pystr) :
  occurs (py "Ringe, Donald A., Jr.,") (patch_biblio bibtex_code) = false /\
  occurs (py "Yahalom-Mack, Naama, Eliyahu-Behar, Adi") (patch_biblio bibtex_code)
  = false.
Proof. apply patch_biblio_clean. Qed.

(** X2.  [patch_biblio] returns a bibliography as it is exactly when
    neither malformed author list occurs in it. *)
Theorem patch_biblio_fixed_points (bibtex_code : pystr) :
  patch_biblio bibtex_code = bibtex_code <->
  occurs (py "Ringe, Donald A., Jr.,") bibtex_code = false /\
  occurs (py "Yahalom-Mack, Naama, Eliyahu-Behar, Adi") bibtex_code = false.
Proof.
  split.
  - intros H. rewrite <- H. apply patch_biblio_clean.
  - intros [HP HQ]. unfold patch_biblio.
    by rewrite (replace_absent _ _ _ HP), (replace_absent _ _ _ HQ).
Qed.

(** ** [fix_example_lang_id] *)

Lemma fix_example_lang_id_never (language_id : pystr) :
  fix_example_lang_id language_id <> py "wara1247".
Proof.
  unfold fix_example_lang_id. destruct (decide (language_id = py "wara1247")); [py_neq|done].
Qed.

(** X3.  No example of the table a run hands over is filed under the
    language [wara1247]: an example whose raw language id is [wara1247] is
    filed under [wara1300], every other one under its raw language id. *)
Theorem no_example_under_wara1247 (inp : inputs) (out : cldf) :
  cmd_makecldf inp = Some out ->
  forall (k : nat) (example : record),
    ExampleTable out !! k = Some example ->
    example !! py "Language_ID" <> Some (Str (py "wara1247")) /\
    exists cells lang_id,
      estimative_ex_csv inp !! k = Some cells /\
      cells !! 0%nat = Some lang_id /\
      (lang_id = py "wara1247" ->
       example !! py "Language_ID" = Some (Str (py "wara1300"))) /\
      (lang_id <> py "wara1247" ->
       example !! py "Language_ID" = Some (Str lang_id)).
Proof.
  intros H k example Hk.
  destruct (cmd_makecldf_tables _ _ H) as (t & Ht & _ & _ & _ & Hex).
  rewrite Hex in Hk. destruct (example_table_built _ _ Ht) as [_ Hall].
  destruct (Hall _ _ Hk) as (cells & lang_id & _ & _ & _ & Hc & Hl & HL & _).
  split.
  - rewrite HL. intros E. simplify_eq. by eapply fix_example_lang_id_never.
  - exists cells, lang_id. split; [done|]. split; [done|]. rewrite HL.
    unfold fix_example_lang_id. split; intros E.
    + by rewrite decide_True.
    + by rewrite decide_False.
Qed.

(** ** [add_source] *)

(** X4.  [add_source] raises nothing exactly on the records whose
    [reference] is a string.  It then sets [Source] or [Source_comment]
    and changes no other field. *)
Theorem add_source_effect (row : record) :
  (is_Some (add_source row) <-> exists text, row !! py "reference" = Some (Str text)) /\
  forall row' : record,
    add_source row = Some row' ->
    (is_Some (row' !! py "Source") \/ is_Some (row' !! py "Source_comment")) /\
    forall k, k <> py "Source" -> k <> py "Source_comment" -> row' !! k = row !! k.
Proof.
  split; [split|].
  - intros [row' H]. unfold add_source in H.
    destruct (row !! py "reference") as [[text| | |]|]; try done. eauto.
  - intros [text H]. destruct (re_match REGEX_REFERENCE text) as [m|] eqn:Hm.
    + destruct (add_source_cited _ _ _ H Hm) as [reference ->]. eauto.
    + rewrite (add_source_comment _ _ H Hm). eauto.
  - intros row' H. split; [|intros k; by apply add_source_other].
    unfold add_source in H.
    destruct (row !! py "reference") as [[text| | |]|] eqn:Href; try done.
    cbn [mbind option_bind as_str] in H.
    destruct (re_match REGEX_REFERENCE text) as [m|].
    + destruct (group m 2); [|done]. cbn [mbind option_bind] in H. simplify_eq.
      left. rewrite lookup_insert_eq. eauto.
    + simplify_eq. right. rewrite lookup_insert_eq. eauto.
Qed.

(** ** The rows of [estimative-ex.csv] *)

Lemma mapM_detex_total (tokens : list pystr) : is_Some (mapM detex tokens).
Proof. apply mapM_is_Some, Forall_true. intros s. apply detex_total. Qed.

(** X5.  A row of the examples file is converted exactly when it has at
    least five cells; the cells after the fifth are not read. *)
Theorem example_row_cells (cells : list pystr) :
  (is_Some (example_row (dict_of (zip EXAMPLE_COLUMNS cells)))
   <-> (5 <= length cells)%nat) /\
  example_row (dict_of (zip EXAMPLE_COLUMNS cells))
  = example_row (dict_of (zip EXAMPLE_COLUMNS (take 5 cells))).
Proof.
  split; [|by destruct cells as [|c1 [|c2 [|c3 [|c4 [|c5 cells]]]]]].
  destruct cells as [|c1 [|c2 [|c3 [|c4 [|c5 cells]]]]];
    unfold EXAMPLE_COLUMNS, example_row;
    cbn [zip zip_with dict_of foldl fst snd length]; lookup_py;
    repeat first
      [ progress cbn [mbind option_bind]
      | match goal with
        | |- context [detex ?x] => destruct (detex_total x) as [? ->]
        | |- context [mapM detex ?x] => destruct (mapM_detex_total x) as [? ->]
        end ];
    (split; [try (by intros [? ?]); lia|try lia; eauto]).
Qed.

(** ** The code table *)

Lemma od_set_keys {V} (d : list (csv_cell * V)) (k : csv_cell) (v : V) :
  fst <$> od_set k v d
  = if decide (k ∈ fst <$> d) then fst <$> d else (fst <$> d) ++ [k].
Proof.
  induction d as [|[k0 v0] d IH]; [done|]. cbn [od_set].
  destruct (decide (k = k0)) as [->|Hne].
  - rewrite decide_True by (rewrite fmap_cons; left). done.
  - rewrite !fmap_cons, IH. cbn [fst].
    destruct (decide (k ∈ fst <$> d)) as [Hin|Hout].
    + rewrite decide_True by by right. done.
    + rewrite decide_False; [done|]. intros [?|?]%elem_of_cons; done.
Qed.

Lemma od_set_NoDup {V} (d : list (csv_cell * V)) (k : csv_cell) (v : V) :
  NoDup (fst <$> d) -> NoDup (fst <$> od_set k v d).
Proof.
  intros Hnd. rewrite od_set_keys. case_decide; [done|].
  apply NoDup_app. split; [done|]. split; [|apply NoDup_singleton].
  intros x Hx ->%list_elem_of_singleton. done.
Qed.

Lemma od_set_elem {V} (d : list (csv_cell * V)) (k k' : csv_cell) (v v' : V) :
  (k', v') ∈ od_set k v d -> (k' = k /\ v' = v) \/ (k', v') ∈ d.
Proof.
  induction d as [|[k0 v0] d IH]; cbn [od_set].
  - intros Hin%list_elem_of_singleton. simplify_eq. by left.
  - destruct (decide (k = k0)) as [->|Hne];
      intros [E|Hin]%elem_of_cons; simplify_eq.
    + by left.
    + right. by right.
    + right. left.
    + destruct (IH Hin) as [?|?]; [by left|right; by right].
Qed.

Lemma od_get_Some_elem {V} (d : list (csv_cell * V)) (k : csv_cell) (v : V) :
  od_get d k = Some v -> (k, v) ∈ d.
Proof.
  induction d as [|[k' v'] d IH]; [done|]. cbn [od_get].
  destruct (decide (k = k')) as [->|Hne]; intros H.
  - simplify_eq. left.
  - right. by apply IH.
Qed.

Lemma od_get_elem {V} (d : list (csv_cell * V)) (k : csv_cell) (v : V) :
  NoDup (fst <$> d) -> (k, v) ∈ d -> od_get d k = Some v.
Proof.
  induction d as [|[k' v'] d IH]; intros Hnd Hin; [by apply elem_of_nil in Hin|].
  rewrite fmap_cons in Hnd. apply NoDup_cons in Hnd as [Hk' Hnd].
  cbn [od_get]. apply elem_of_cons in Hin as [E|Hin].
  - simplify_eq. by rewrite decide_True.
  - rewrite decide_False; [by apply IH|]. intros ->. apply Hk'.
    apply list_elem_of_fmap. by exists (k', v).
Qed.

Lemma code_table_of_wf (all : list raw_row) (codes : list raw_row) :
  forall acc code_table,
    code_table_of codes acc = Some code_table ->
    (forall code, code ∈ codes -> code ∈ all) ->
    code_table_wf all acc ->
    code_table_wf all code_table.
Proof.
  induction codes as [|code codes IH]; intros acc code_table H Hall Hacc.
  - cbn [code_table_of] in H. by simplify_eq.
  - cbn [code_table_of] in H.
    destruct (code !! py "ID") as [id|] eqn:Hid; [|done]. cbn [mbind option_bind] in H.
    apply (IH _ _ H); [intros c Hc; apply Hall; by right|].
    destruct Hacc as [Hnd Hin]. split; [by apply od_set_NoDup|].
    intros k c [[-> ->]|Hc]%od_set_elem; [|by apply Hin].
    split; [done|]. apply Hall. left.
Qed.

Lemma code_id_map_of_source (codes : list raw_row) :
  forall acc code_id_map,
    code_id_map_of codes acc = Some code_id_map ->
    forall parameter_id spreadsheet_value code_id,
      code_id_map !! (parameter_id, spreadsheet_value) = Some code_id ->
      acc !! (parameter_id, spreadsheet_value) = Some code_id \/
      exists code,
        code ∈ codes /\
        code !! py "Parameter_ID" = Some parameter_id /\
        code !! py "Spreadsheet_Value" = Some spreadsheet_value /\
        code !! py "ID" = Some code_id.
Proof.
  induction codes as [|code codes IH]; intros acc code_id_map H p v cid Hm.
  - cbn [code_id_map_of] in H. simplify_eq. by left.
  - cbn [code_id_map_of] in H.
    destruct (code !! py "Parameter_ID") as [p0|] eqn:Hp; [|done].
    cbn [mbind option_bind] in H.
    destruct (code !! py "Spreadsheet_Value") as [v0|] eqn:Hv; [|done].
    cbn [mbind option_bind] in H.
    destruct (code !! py "ID") as [id|] eqn:Hid; [|done].
    cbn [mbind option_bind] in H.
    destruct (IH _ _ H _ _ _ Hm) as [Hacc|(c & Hc & ?)].
    + destruct (decide ((p0, v0) = (p, v))) as [E|Hne].
      * simplify_eq. rewrite lookup_insert_eq in Hacc. simplify_eq.
        right. exists code. split; [left|done].
      * rewrite lookup_insert_ne in Hacc by done. by left.
    + right. exists c. split; [by right|done].
Qed.

(** X6.  In the code mapping that [cmd_makecldf] derives from the code
    table, every pair leads to a code id under which the code table holds
    a code, and that code has this [ID], this [Parameter_ID] and this
    [Spreadsheet_Value] and is one of the given codes: the lookup
    [code_table[code_id]] of [make_value] cannot raise a [KeyError]. *)
Theorem code_mapping_sound (codes : list raw_row)
    (code_table : list (csv_cell * raw_row))
    (code_id_map : gmap (csv_cell * csv_cell) csv_cell) :
  code_table_of codes [] = Some code_table ->
  code_id_map_of (od_values code_table) ∅ = Some code_id_map ->
  forall parameter_id spreadsheet_value code_id,
    code_id_map !! (parameter_id, spreadsheet_value) = Some code_id ->
    exists code,
      od_get code_table code_id = Some code /\
      code ∈ codes /\
      code !! py "ID" = Some code_id /\
      code !! py "Parameter_ID" = Some parameter_id /\
      code !! py "Spreadsheet_Value" = Some spreadsheet_value.
Proof.
  intros Hct Hcm p v cid Hm.
  assert (code_table_wf codes code_table) as [Hnd Hin].
  { apply (code_table_of_wf codes codes [] _ Hct); [done|].
    split; [constructor|]. intros k c Hc. by apply elem_of_nil in Hc. }
  destruct (code_id_map_of_source _ _ _ Hcm _ _ _ Hm) as [H|(code & Hc & Hp & Hv & Hid)];
    [by rewrite lookup_empty in H|].
  unfold od_values in Hc. apply list_elem_of_fmap in Hc as ([k c] & -> & Hkc).
  cbn [snd] in *. destruct (Hin _ _ Hkc) as [Hk Hcodes].
  assert (k = cid) as -> by congruence.
  exists c. split; [by apply od_get_elem|done].
Qed.

(** ** Runs that succeed *)

Lemma code_table_of_total (codes : list raw_row) :
  Forall (fun code : raw_row => is_Some (code !! py "ID")) codes ->
  forall acc, is_Some (code_table_of codes acc).
Proof.
  induction 1 as [|code codes [id Hid] _ IH]; intros acc; cbn [code_table_of]; [eauto|].
  rewrite Hid. cbn [mbind option_bind]. apply IH.
Qed.

Lemma code_id_map_of_total (codes : list raw_row) :
  Forall (fun code : raw_row =>
            is_Some (code !! py "Parameter_ID") /\
            is_Some (code !! py "Spreadsheet_Value") /\
            is_Some (code !! py "ID")) codes ->
  forall acc, is_Some (code_id_map_of codes acc).
Proof.
  induction 1 as [|code codes ([p Hp] & [v Hv] & [id Hid]) _ IH]; intros acc;
    cbn [code_id_map_of]; [eauto|].
  rewrite Hp, Hv, Hid. cbn [mbind option_bind]. apply IH.
Qed.

Lemma make_value_total (row : raw_row) (code_table : list (csv_cell * raw_row))
    (code_id_map : gmap (csv_cell * csv_cell) csv_cell) (param_id : pystr) :
  is_Some (row !! py "id") ->
  is_Some (row !! param_id) ->
  (forall cell code_id,
      code_id_map !! (Some param_id, cell) = Some code_id ->
      exists code, od_get code_table code_id = Some code /\
                   is_Some (code !! py "Name")) ->
  is_Some (make_value row code_table code_id_map (Some param_id)).
Proof.
  intros [lang Hid] [cell Hcell] Hcodes. unfold make_value.
  rewrite Hid. cbn [mbind option_bind]. rewrite Hcell. cbn [mbind option_bind].
  destruct (code_id_map !! (Some param_id, cell)) as [[[|c code_id]|]|] eqn:Hm;
    cbn [truthy]; eauto.
  destruct (Hcodes _ _ Hm) as (code & Hget & [name Hname]).
  rewrite Hget. cbn [mbind option_bind]. rewrite Hname. cbn [mbind option_bind]. eauto.
Qed.

Lemma example_row_total (cells : list pystr) :
  (5 <= length cells)%nat ->
  is_Some (example_row (dict_of (zip EXAMPLE_COLUMNS cells))).
Proof.
  destruct cells as [|c1 [|c2 [|c3 [|c4 [|c5 cells]]]]]; cbn [length]; try lia.
  intros _. unfold EXAMPLE_COLUMNS, example_row.
  cbn [zip zip_with dict_of foldl fst snd]. lookup_py.
  cbn [mbind option_bind].
  destruct (detex_total c2) as [t ->].
  destruct (mapM_detex_total (split c2)) as [ws ->].
  destruct (mapM_detex_total (split c3)) as [gs ->].
  cbn [mbind option_bind]. eauto.
Qed.

Lemma add_source_total (row : record) (text : pystr) :
  row !! py "reference" = Some (Str text) -> is_Some (add_source row).
Proof.
  intros H. destruct (re_match REGEX_REFERENCE text) as [m|] eqn:Hm.
  - destruct (add_source_cited _ _ _ H Hm) as [reference ->]. eauto.
  - rewrite (add_source_comment _ _ H Hm). eauto.
Qed.

Lemma number_examples_total (example_table : list record) :
  Forall (fun example : record =>
            (exists language_id, example !! py "Language_ID" = Some (Str language_id)) /\
            (exists reference, example !! py "reference" = Some (Str reference)))
         example_table ->
  forall counter, is_Some (number_examples counter example_table).
Proof.
  induction 1 as [|example rest [[language_id Hl] [reference Hr]] _ IH];
    intros counter; cbn [number_examples]; [eauto|].
  rewrite Hl. cbn [mbind option_bind as_str].
  match goal with |- context [add_source ?r] =>
    assert (is_Some (add_source r)) as [example' ->]
  end.
  { apply (add_source_total _ reference). by rewrite lookup_insert_ne by py_neq. }
  cbn [mbind option_bind].
  match goal with |- context [number_examples ?c rest] =>
    destruct (IH c) as [rest' ->]
  end.
  cbn [mbind option_bind]. eauto.
Qed.

Lemma code_mapping_total (codes : list raw_row)
    (code_table : list (csv_cell * raw_row))
    (code_id_map : gmap (csv_cell * csv_cell) csv_cell) :
  code_table_of codes [] = Some code_table ->
  code_id_map_of (od_values code_table) ∅ = Some code_id_map ->
  forall parameter_id spreadsheet_value code_id,
    code_id_map !! (parameter_id, spreadsheet_value) = Some code_id ->
    exists code, od_get code_table code_id = Some code /\ code ∈ codes.
Proof.
  intros Hct Hcm p v cid Hm.
  assert (code_table_wf codes code_table) as [Hnd Hin].
  { apply (code_table_of_wf codes codes [] _ Hct); [done|].
    split; [constructor|]. intros k c Hc. by apply elem_of_nil in Hc. }
  destruct (code_id_map_of_source _ _ _ Hcm _ _ _ Hm) as [H|(code & Hc & Hp & Hv & Hid)];
    [by rewrite lookup_empty in H|].
  unfold od_values in Hc. apply list_elem_of_fmap in Hc as ([k c] & -> & Hkc).
  cbn [snd] in *. destruct (Hin _ _ Hkc) as [Hk Hcodes].
  assert (k = cid) as -> by congruence.
  exists c. split; [by apply od_get_elem|done].
Qed.

Lemma make_tables_total (inp : inputs) :
  well_formed inp -> is_Some (make_tables inp).
Proof.
  intros (Hrows & Hparams & Hcodes & Hexamples). unfold make_tables.
  (* the code table *)
  destruct (code_table_of_total (codes_csv inp)) with (acc := @nil (csv_cell * raw_row))
    as [code_table Hct].
  { eapply Forall_impl; [exact Hcodes|]. intros code H.
    by apply Forall_cons in H as [? _]. }
  rewrite Hct. cbn [mbind option_bind].
  assert (code_table_wf (codes_csv inp) code_table) as [Hnd Hin].
  { apply (code_table_of_wf _ _ [] _ Hct); [done|].
    split; [constructor|]. intros k c Hc. by apply elem_of_nil in Hc. }
  (* the language table *)
  assert (is_Some (mapM language_row (estimative_csv inp))) as [rows Hlang].
  { apply mapM_is_Some. eapply Forall_impl; [exact Hrows|].
    intros row [H _]. by apply language_row_total. }
  rewrite Hlang. cbn [mbind option_bind].
  assert (is_Some (mapM add_source rows)) as [language_table Hsrc].
  { apply mapM_is_Some, Forall_lookup. intros k row Hk.
    apply mapM_Some_1 in Hlang.
    destruct (Forall2_lookup_r _ _ _ _ _ Hlang Hk) as (raw & Hk' & Hraw).
    destruct (language_row_reference _ _ Hraw) as (Href & _).
    rewrite Forall_forall in Hrows.
    destruct (Hrows raw) as [_ [text Htext]]; [by eapply list_elem_of_lookup_2|].
    apply (add_source_total _ text). by rewrite Href, Htext. }
  rewrite Hsrc. cbn [mbind option_bind].
  (* the parameters and the code mapping *)
  assert (is_Some (mapM (fun param : raw_row => param !! py "ID") (parameters_csv inp)))
    as [parameter_ids Hids].
  { apply mapM_is_Some. eapply Forall_impl; [exact Hparams|].
    intros param (param_id & H & _). by exists (Some param_id). }
  rewrite Hids. cbn [mbind option_bind].
  destruct (code_id_map_of_total (od_values code_table))
    with (acc := (∅ : gmap (csv_cell * csv_cell) csv_cell))
    as [code_id_map Hcm].
  { apply Forall_forall. intros code Hc.
    unfold od_values in Hc. apply list_elem_of_fmap in Hc as ([k c] & -> & Hkc).
    destruct (Hin _ _ Hkc) as [_ Hcode]. rewrite Forall_forall in Hcodes.
    specialize (Hcodes _ Hcode). cbn [snd].
    split; [|split].
    - by apply (Forall_lookup_1 _ _ 1%nat _ Hcodes).
    - by apply (Forall_lookup_1 _ _ 2%nat _ Hcodes).
    - by apply (Forall_lookup_1 _ _ 0%nat _ Hcodes). }
  rewrite Hcm. cbn [mbind option_bind].
  (* the value table *)
  assert (is_Some
            (mapM (fun row =>
                     mapM (fun param_id =>
                             make_value row code_table code_id_map param_id)
                          parameter_ids)
                  (estimative_csv inp))) as [value_rows Hvalues].
  { apply mapM_is_Some, Forall_lookup. intros i row Hi.
    apply mapM_is_Some, Forall_lookup. intros j param_id Hj.
    apply mapM_Some_1 in Hids.
    destruct (Forall2_lookup_r _ _ _ _ _ Hids Hj) as (param & Hparam & Hid).
    rewrite Forall_forall in Hparams.
    destruct (Hparams param) as (param_id' & Hid' & Hcells);
      [by eapply list_elem_of_lookup_2|].
    assert (param_id = Some param_id') as -> by congruence.
    apply make_value_total.
    - rewrite Forall_forall in Hrows.
      assert (row ∈ estimative_csv inp) as Hrow by by eapply list_elem_of_lookup_2.
      destruct (Hrows _ Hrow) as [Hcols _].
      by apply (Forall_lookup_1 _ _ 0%nat _ Hcols).
    - rewrite Forall_forall in Hcells. apply Hcells. by eapply list_elem_of_lookup_2.
    - intros cell code_id Hm.
      destruct (code_mapping_total _ _ _ Hct Hcm _ _ _ Hm) as (code & Hget & Hcode).
      exists code. split; [done|]. rewrite Forall_forall in Hcodes.
      specialize (Hcodes _ Hcode).
      by apply (Forall_lookup_1 _ _ 3%nat _ Hcodes). }
  rewrite Hvalues. cbn [mbind option_bind].
  (* the example table *)
  assert (is_Some
            (mapM example_row
                  ((fun example => dict_of (zip EXAMPLE_COLUMNS example))
                     <$> estimative_ex_csv inp))) as [built Hbuilt].
  { apply mapM_is_Some, Forall_fmap. eapply Forall_impl; [exact Hexamples|].
    intros cells H. by apply example_row_total. }
  rewrite Hbuilt. cbn [mbind option_bind].
  destruct (number_examples_total built) with (counter := (∅ : gmap pystr Z))
    as [example_table Hnum].
  { apply Forall_lookup. intros k example Hk. apply mapM_Some_1 in Hbuilt.
    destruct (Forall2_lookup_r _ _ _ _ _ Hbuilt Hk) as (raw & _ & Hraw).
    destruct (example_row_fields _ _ Hraw) as (?&?&?&?&_&?&_&_&?&_). eauto. }
  rewrite Hnum. cbn [mbind option_bind]. eauto.
Qed.

(** What [make_tables] takes from the inputs as it is. *)
Lemma make_tables_read (inp : inputs) (t : tables) :
  make_tables inp = Some t ->
  bibtex_code t = patch_biblio (bibliogj_bib inp) /\
  parameter_table t = parameters_csv inp /\
  code_table_of (codes_csv inp) [] = Some (code_table t).
Proof.
  unfold make_tables. intros H.
  repeat match type of H with
         | (?o ≫= _) = Some _ =>
             let E := fresh "E" in
             destruct o eqn:E; [cbn [mbind option_bind] in H|done]
         end.
  simplify_eq. by cbn [bibtex_code parameter_table code_table].
Qed.

(** X7.  On inputs that have every column the conversion reads, the
    [reference] of every language and the [ID] of every parameter a
    string, [cmd_makecldf] raises nothing of its own: it returns the
    tables and what it printed wherever the writer accepts the schema and
    the patched bibliography. *)
Theorem cmd_makecldf_succeeds (inp : inputs) :
  well_formed inp ->
  is_Some (write_schema (patch_biblio (bibliogj_bib inp))) ->
  is_Some (cmd_makecldf inp).
Proof.
  intros Hwf [w Hw]. destruct (make_tables_total _ Hwf) as [t Ht].
  pose proof (example_table_renderable _ _ Ht) as Hall.
  destruct (warn_about_glosses_renderable _ Hall) as (renderings & _ & Hwarn).
  destruct (make_tables_read _ _ Ht) as (Hbib & _).
  unfold cmd_makecldf. rewrite Ht. cbn [mbind option_bind]. rewrite Hwarn.
  cbn [mbind option_bind]. rewrite Hbib, Hw. cbn [mbind option_bind]. eauto.
Qed.

(** ** Runs that fail *)

Lemma code_table_of_ids (codes : list raw_row) :
  forall acc, is_Some (code_table_of codes acc) ->
  Forall (fun code : raw_row => is_Some (code !! py "ID")) codes.
Proof.
  induction codes as [|code codes IH]; intros acc H; [constructor|].
  cbn [code_table_of] in H. destruct (code !! py "ID") as [id|] eqn:Hid.
  - constructor; [eauto|]. by eapply IH.
  - by destruct H.
Qed.

Lemma make_value_cells (row : raw_row) (code_table : list (csv_cell * raw_row))
    (code_id_map : gmap (csv_cell * csv_cell) csv_cell) (param_id : csv_cell) :
  is_Some (make_value row code_table code_id_map param_id) ->
  is_Some (row !! py "id") /\
  exists column : pystr, param_id = Some column /\ is_Some (row !! column).
Proof.
  unfold make_value. intros [value_row H].
  destruct (row !! py "id") as [lang|]; [|done]. cbn [mbind option_bind] in H.
  destruct param_id as [column|]; [|done].
  destruct (row !! column) as [cell|] eqn:Hcell; [|done].
  split; [eauto|]. exists column. split; [done|]. rewrite Hcell. eauto.
Qed.

Lemma example_row_five (cells : list pystr) :
  is_Some (example_row (dict_of (zip EXAMPLE_COLUMNS cells))) ->
  (5 <= length cells)%nat.
Proof.
  destruct cells as [|c1 [|c2 [|c3 [|c4 [|c5 cells]]]]];
    unfold EXAMPLE_COLUMNS, example_row;
    cbn [zip zip_with dict_of foldl fst snd length]; lookup_py;
    repeat first
      [ progress cbn [mbind option_bind]
      | match goal with
        | |- context [detex ?x] => destruct (detex_total x) as [? ->]
        | |- context [mapM detex ?x] => destruct (mapM_detex_total x) as [? ->]
        end ];
    try (by intros [? ?]); lia.
Qed.

(** X8.  A run that returns was given: in every language row the eight
    original columns, with a [reference] that is a string; in every
    parameter an [ID], which is a string and the name of a column of
    every language row as soon as there is a language row; in every code
    an [ID]; at least five cells in every row of examples; and a writer
    that accepts the schema and the patched bibliography.  A column that
    is there may hold [None] (the row was shorter than the header): only
    of the [reference] of a language and of the [ID] of a parameter is
    more required than that the column is there. *)
Theorem cmd_makecldf_needs (inp : inputs) :
  is_Some (cmd_makecldf inp) ->
  Forall (fun row : raw_row =>
            Forall (fun column => is_Some (row !! column))
                   (snd <$> LANGUAGE_COLUMN_MAP) /\
            exists text : pystr, row !! py "reference" = Some (Some text))
         (estimative_csv inp) /\
  Forall (fun param : raw_row =>
            exists param_id : csv_cell,
              param !! py "ID" = Some param_id /\
              Forall (fun row : raw_row =>
                        exists column : pystr,
                          param_id = Some column /\ is_Some (row !! column))
                     (estimative_csv inp))
         (parameters_csv inp) /\
  Forall (fun code : raw_row => is_Some (code !! py "ID")) (codes_csv inp) /\
  Forall (fun cells : list pystr => (5 <= length cells)%nat) (estimative_ex_csv inp) /\
  is_Some (write_schema (patch_biblio (bibliogj_bib inp))).
Proof.
  intros [out H]. destruct (cmd_makecldf_tables _ _ H) as (t & Ht & _).
  destruct (cmd_makecldf_written _ _ H) as (t' & Ht' & Hw & _).
  assert (t' = t) as -> by congruence.
  destruct (make_tables_read _ _ Ht) as (Hbib & _ & Hct).
  destruct (make_tables_stages _ _ Ht)
    as (rows & parameter_ids & code_id_map & value_rows & built
        & Hlang & Hsrc & Hids & Hvalues & _ & Hbuilt & _).
  apply mapM_Some_1 in Hlang. apply mapM_Some_1 in Hsrc. apply mapM_Some_1 in Hids.
  apply mapM_Some_1 in Hvalues. apply mapM_Some_1 in Hbuilt.
  split; [|split; [|split; [|split]]].
  - apply Forall_lookup. intros i row Hi.
    destruct (Forall2_lookup_l _ _ _ _ _ Hlang Hi) as (built_row & Hb & Hrow).
    split; [by eapply language_row_columns|].
    destruct (Forall2_lookup_l _ _ _ _ _ Hsrc Hb) as (final & _ & Hadd).
    destruct (add_source_reference _ _ Hadd) as [text Htext].
    destruct (language_row_reference _ _ Hrow) as (Href & _).
    rewrite Href in Htext. exists text.
    destruct (row !! py "reference") as [[text'|]|]; by simplify_eq/=.
  - apply Forall_lookup. intros j param Hj.
    destruct (Forall2_lookup_l _ _ _ _ _ Hids Hj) as (param_id & Hpid & Hparam).
    exists param_id. split; [done|].
    apply Forall_lookup. intros i row Hi.
    destruct (Forall2_lookup_l _ _ _ _ _ Hvalues Hi) as (values & _ & Hrow).
    apply mapM_Some_1 in Hrow.
    destruct (Forall2_lookup_l _ _ _ _ _ Hrow Hpid) as (value_row & _ & Hmake).
    apply (make_value_cells _ (code_table t) code_id_map). by exists value_row.
  - apply (code_table_of_ids _ []). rewrite Hct. eauto.
  - apply Forall_lookup. intros k cells Hk.
    assert (((fun example => dict_of (zip EXAMPLE_COLUMNS example))
               <$> estimative_ex_csv inp) !! k
            = Some (dict_of (zip EXAMPLE_COLUMNS cells))) as Hraw
      by by rewrite list_lookup_fmap, Hk.
    destruct (Forall2_lookup_l _ _ _ _ _ Hbuilt Hraw) as (example & _ & Hrow).
    apply example_row_five. by exists example.
  - rewrite <- Hbib, Hw. eauto.
Qed.

(** ** [str.split] and the token lists *)

Lemma split_from_tokens (s : pystr) :
  forall tok,
    Forall (fun c => isspace c = false) tok ->
    Forall token (split_from tok s).
Proof.
  induction s as [|c s IH]; intros tok Htok; cbn [split_from].
  - destruct tok; [constructor|].
    apply Forall_cons_2; [by split|constructor].
  - destruct (isspace c) eqn:Hc.
    + destruct tok as [|x tok]; [by apply IH|].
      apply Forall_cons_2; [by split|]. by apply IH.
    + apply IH. apply Forall_app. split; [done|]. by repeat constructor.
Qed.

Lemma split_from_concat (s : pystr) :
  forall tok,
    concat (split_from tok s)
    = tok ++ filter (fun c => isspace c = false) s.
Proof.
  induction s as [|c s IH]; intros tok; cbn [split_from].
  - destruct tok; [done|]. cbn [concat]. by rewrite !app_nil_r.
  - rewrite filter_cons. destruct (isspace c) eqn:Hc.
    + rewrite decide_False by done.
      destruct tok as [|x tok]; [apply IH|]. cbn [concat]. by rewrite IH.
    + rewrite decide_True by done. rewrite IH, <- (assoc_L (++)). done.
Qed.

(** X9.  The tokens [str.split] cuts a string into are not empty and hold
    no white space; laid end to end they are the string without its white
    space, so that splitting loses nothing else; and there is no token
    exactly when the string is white space throughout.  The two token
    lists of an example are cut this way from its raw text and gloss. *)
Theorem split_tokens (s : pystr) :
  Forall token (split s) /\
  concat (split s) = filter (fun c => isspace c = false) s /\
  (split s = [] <-> Forall (fun c => isspace c = true) s).
Proof.
  split; [by apply split_from_tokens|].
  split; [apply (split_from_concat s [])|].
  pose proof (split_from_concat s []) as Hc. fold (split s) in Hc.
  pose proof (split_from_tokens s [] (Forall_nil_2 _)) as Ht. fold (split s) in Ht.
  cbn [app] in Hc. split.
  - intros E. rewrite E in Hc. cbn [concat] in Hc.
    apply Forall_forall. intros c Hin. destruct (isspace c) eqn:Hs; [done|].
    assert (c ∈ filter (fun c => isspace c = false) s) as Hf
      by by apply list_elem_of_filter.
    rewrite <- Hc in Hf. by apply elem_of_nil in Hf.
  - intros Hall. destruct (split s) as [|t ts] eqn:E; [done|].
    apply Forall_cons in Ht as [[Hne _] _].
    destruct t as [|c t]; [done|].
    assert (c ∈ filter (fun c => isspace c = false) s) as Hf
      by (rewrite <- Hc; cbn [concat]; left).
    apply list_elem_of_filter in Hf as [Hs Hin].
    rewrite Forall_forall in Hall. specialize (Hall _ Hin). congruence.
Qed.

(** ** The identifiers of the examples *)

Lemma digits_from_spec (fuel : nat) :
  forall n acc,
    n < 10 ^ N.of_nat (S fuel) ->
    exists ds,
      digits_from fuel n acc = ds ++ acc /\
      int_of_digits ds = n /\
      Forall (fun c => 48 <= c <= 57) ds.
Proof.
  assert (forall n acc, n < 10 ->
            exists ds, (48 + n mod 10) :: acc = ds ++ acc /\
                       int_of_digits ds = n /\
                       Forall (fun c => 48 <= c <= 57) ds) as Hone.
  { intros n acc Hn. exists [48 + n mod 10]. split; [done|].
    rewrite N.mod_small by done. split.
    - unfold int_of_digits. cbn [foldl]. lia.
    - apply Forall_cons_2; [lia|apply Forall_nil_2]. }
  induction fuel as [|fuel IH]; intros n acc Hn; cbn [digits_from].
  - apply Hone. exact Hn.
  - destruct (n / 10 =? 0) eqn:E.
    + apply N.eqb_eq in E. apply Hone. by apply N.div_small_iff in E.
    + destruct (IH (n / 10) ((48 + n mod 10) :: acc)) as (ds & Hds & Hint & Hall).
      { apply N.Div0.div_lt_upper_bound.
        rewrite (Nat2N.inj_succ (S fuel)), N.pow_succ_r' in Hn. exact Hn. }
      exists (ds ++ [48 + n mod 10]). split; [by rewrite Hds, <- (assoc_L (++))|].
      pose proof (N.div_mod' n 10) as Hdm.
      pose proof (N.mod_lt n 10 ltac:(done)) as Hlt.
      split.
      * unfold int_of_digits. rewrite foldl_app. cbn [foldl].
        fold (int_of_digits ds). rewrite Hint.
        clear -Hdm Hlt. revert Hdm Hlt.
        generalize (n / 10), (n mod 10). intros q r Hdm Hlt. lia.
      * apply Forall_app. split; [done|].
        apply Forall_cons_2; [|apply Forall_nil_2].
        clear -Hlt. revert Hlt. generalize (n mod 10). intros r Hlt. lia.
Qed.

(** [str(n)] of a number that is not negative: its decimal digits. *)
Lemma str_of_int_digits (z : Z) :
  (0 <= z)%Z ->
  int_of_digits (str_of_int z) = Z.to_N z /\
  Forall (fun c => 48 <= c <= 57) (str_of_int z).
Proof.
  intros Hz. unfold str_of_int.
  assert ((z <? 0)%Z = false) as -> by lia.
  assert (Z.abs_N z = Z.to_N z) as -> by lia.
  destruct (digits_from_spec (N.to_nat (N.log2 (Z.to_N z))) (Z.to_N z) [])
    as (ds & -> & Hint & Hall).
  - rewrite Nat2N.inj_succ, N2Nat.id.
    destruct (N.eq_dec (Z.to_N z) 0) as [->|Hne]; [done|].
    eapply N.lt_le_trans; [apply N.log2_spec; lia|].
    apply N.pow_le_mono_l. lia.
  - by rewrite app_nil_r.
Qed.

Lemma str_of_int_inj (a b : Z) :
  (0 <= a)%Z -> (0 <= b)%Z -> str_of_int a = str_of_int b -> a = b.
Proof.
  intros Ha Hb E.
  destruct (str_of_int_digits a Ha) as [Hia _].
  destruct (str_of_int_digits b Hb) as [Hib _].
  rewrite E in Hia. lia.
Qed.

(** Where a string is cut at its last occurrence of [c]. *)
Lemma last_separator_inj (c : N) (l1 : pystr) :
  forall l2 d1 d2,
    c ∉ d1 -> c ∉ d2 -> l1 ++ c :: d1 = l2 ++ c :: d2 -> l1 = l2 /\ d1 = d2.
Proof.
  induction l1 as [|x l1 IH]; intros [|y l2] d1 d2 H1 H2 E; cbn [app] in E.
  - by simplify_eq.
  - simplify_eq. exfalso. apply H1. apply elem_of_app. right. left.
  - simplify_eq. exfalso. apply H2. apply elem_of_app. right. left.
  - injection E as -> E. destruct (IH _ _ _ H1 H2 E) as [-> ->]. done.
Qed.

Lemma examples_of_prefix (language_id : pystr) (examples : list record) (k : nat) :
  (examples_of language_id (take k examples) <= examples_of language_id examples)%nat.
Proof.
  unfold examples_of. rewrite <- (take_drop k examples) at 2.
  rewrite filter_app, length_app. lia.
Qed.

Lemma examples_of_later (language_id : pystr) (examples : list record)
    (i j : nat) (example : record) :
  (i < j)%nat ->
  examples !! j = Some example ->
  example !! py "Language_ID" = Some (Str language_id) ->
  (examples_of language_id (take (S i) examples)
   < examples_of language_id (take (S j) examples))%nat.
Proof.
  intros Hij Hj HL. rewrite (take_S_r _ _ _ Hj).
  assert (take (S i) examples = take (S i) (take j examples)) as ->
    by (rewrite take_take; f_equal; lia).
  pose proof (examples_of_prefix language_id (take j examples) (S i)) as Hle.
  unfold examples_of in *. rewrite filter_app, length_app.
  rewrite filter_cons, decide_True by done. cbn [length filter]. lia.
Qed.

(** X10.  No two examples of the table a run hands over have the same
    [ID]: the number after the last hyphen tells two examples of one
    language apart, what is before it two examples of different
    languages, also when a language id itself holds hyphens or digits. *)
Theorem example_ids_unique (inp : inputs) (out : cldf) :
  cmd_makecldf inp = Some out ->
  NoDup ((fun example : record => example !! py "ID") <$> ExampleTable out).
Proof.
  intros H. destruct (cmd_makecldf_tables _ _ H) as (t & Ht & _ & _ & _ & ->).
  destruct (example_table_built _ _ Ht) as [_ Hall].
  assert (forall i j ei ej,
            (i < j)%nat ->
            example_table t !! i = Some ei -> example_table t !! j = Some ej ->
            ei !! py "ID" <> ej !! py "ID") as Hlt.
  { intros i j ei ej Hij Hi Hj E.
    destruct (Hall _ _ Hi) as (ci & li & idi & wi & gi & _ & _ & HLi & Hidi & HIi & _).
    destruct (Hall _ _ Hj) as (cj & lj & idj & wj & gj & _ & _ & HLj & Hidj & HIj & _).
    rewrite HIi, HIj in E. injection E as E. rewrite Hidi, Hidj in E.
    change (py "-") with [45] in E. cbn [app] in E.
    destruct (str_of_int_digits
                (Z.of_nat (examples_of (fix_example_lang_id li)
                             (take (S i) (example_table t)))) ltac:(lia)) as [_ Hdi].
    destruct (str_of_int_digits
                (Z.of_nat (examples_of (fix_example_lang_id lj)
                             (take (S j) (example_table t)))) ltac:(lia)) as [_ Hdj].
    assert (forall ds, Forall (fun c => 48 <= c <= 57) ds -> 45 ∉ ds) as Hdigit.
    { intros ds Hds Hin. rewrite Forall_forall in Hds. specialize (Hds _ Hin). lia. }
    apply last_separator_inj in E as [EL En]; [|by apply Hdigit|by apply Hdigit].
    apply str_of_int_inj in En; [|lia|lia]. rewrite EL in *.
    pose proof (examples_of_later _ _ i j _ Hij Hj HLj). lia. }
  apply NoDup_alt. intros i j id Hi Hj.
  apply list_lookup_fmap_Some in Hi as (ei & Hei & Hi).
  apply list_lookup_fmap_Some in Hj as (ej & Hej & Hj).
  destruct (lt_eq_lt_dec i j) as [[Hij|Hij]|Hij]; [|done|].
  - exfalso. apply (Hlt _ _ _ _ Hij Hi Hj). congruence.
  - exfalso. apply (Hlt _ _ _ _ Hij Hj Hi). congruence.
Qed.

(** ** The columns of a rendering *)

Lemma column_of_comm (words : list pystr) :
  forall glosses i, column_of glosses words i = column_of words glosses i.
Proof.
  induction words as [|w words IH]; intros [|g glosses] [|i]; cbn [column_of]; try done.
  by rewrite IH, Nat.max_comm.
Qed.

Lemma ljust_max_length (s t : pystr) :
  length (ljust s (Z.max (len s) (len t))) = Nat.max (length s) (length t).
Proof. unfold ljust, len. rewrite length_app, repeat_length. lia. Qed.

Lemma join_column (words : list pystr) :
  forall glosses i w g,
    words !! i = Some w -> glosses !! i = Some g ->
    exists before after,
      join (py "  ") (padded_line words glosses) = before ++ w ++ after /\
      length before = column_of words glosses i.
Proof.
  induction words as [|w0 words IH]; intros [|g0 glosses] [|i] w g Hw Hg;
    try done; cbn [padded_line column_of]; rewrite join_cons.
  - cbn [lookup list_lookup] in Hw. simplify_eq.
    exists [], (repeat SPACE (Z.to_nat (Z.max (len w) (len g0)) - length w)
                ++ match padded_line words glosses with
                   | [] => []
                   | _ :: _ => py "  " ++ join (py "  ") (padded_line words glosses)
                   end).
    split; [|done]. unfold ljust. by rewrite <- (assoc_L (++)).
  - cbn [lookup list_lookup] in Hw, Hg.
    destruct (IH _ _ _ _ Hw Hg) as (before & after & Hj & Hlen).
    destruct (padded_line words glosses) as [|p ps] eqn:Hp.
    { apply (f_equal length) in Hp. rewrite padded_line_length in Hp.
      apply lookup_lt_Some in Hw. cbn [length] in Hp. lia. }
    rewrite Hj.
    exists (ljust w0 (Z.max (len w0) (len g0)) ++ py "  " ++ before), after.
    split; [by rewrite <- !(assoc_L (++))|].
    rewrite !length_app, ljust_max_length, Hlen.
    change (length (py "  ")) with 2%nat. lia.
Qed.

Lemma drop_while_stop (f : N -> bool) (c : N) (x y : pystr) :
  f c = false -> drop_while f (x ++ c :: y) = drop_while f x ++ c :: y.
Proof.
  intros Hc. induction x as [|a x IH]; cbn [app drop_while].
  - by rewrite Hc.
  - by destruct (f a).
Qed.

(** [rstrip] takes nothing from what ends in a character that is not
    white space. *)
Lemma rstrip_after (x r : pystr) (c : N) (x' : pystr) :
  reverse x = c :: x' -> isspace c = false ->
  rstrip (x ++ r) = x ++ rstrip r.
Proof.
  intros Hx Hc. unfold rstrip.
  rewrite reverse_app, Hx, (drop_while_stop _ _ _ _ Hc).
  by rewrite reverse_app, <- Hx, reverse_involutive.
Qed.

Lemma token_last (before w : pystr) :
  token w -> exists c x', reverse (before ++ w) = c :: x' /\ isspace c = false.
Proof.
  intros [Hne Hall]. rewrite reverse_app.
  destruct (reverse w) as [|c x'] eqn:E.
  - apply (f_equal reverse) in E. rewrite reverse_involutive in E. done.
  - exists c, (x' ++ reverse before). split; [done|].
    rewrite Forall_forall in Hall. apply Hall.
    apply elem_of_reverse. rewrite E. left.
Qed.

(** X11.  The two lines of a rendering are aligned: where the [i]-th word
    and the [i]-th gloss both exist and are tokens (not empty, no white
    space), the word stands in the first line after the label and the
    gloss in the second line after the indentation at one and the same
    column, the sum over the pairs before them of the longer of word and
    gloss plus two; stripping the ends of the lines takes nothing from
    either. *)
Theorem render_example_columns (example : record) (id : pystr)
    (words glosses : list pystr) (i : nat) (w g : pystr) :
  example !! py "ID" = Some (Str id) ->
  example !! py "Analyzed_Word" = Some (StrList words) ->
  example !! py "Gloss" = Some (StrList glosses) ->
  words !! i = Some w -> glosses !! i = Some g ->
  token w -> token g ->
  exists before_w after_w before_g after_g,
    render_example example
    = Some ((py "(" ++ id ++ py ")  ") ++ (before_w ++ w ++ after_w)
            ++ [LF]
            ++ repeat SPACE (length (py "(" ++ id ++ py ")  "))
            ++ (before_g ++ g ++ after_g)) /\
    length before_w = column_of words glosses i /\
    length before_g = column_of words glosses i.
Proof.
  intros Hid HW HG Hw Hg Htw Htg.
  destruct (join_column _ _ _ _ _ Hw Hg) as (bw & aw & Hjw & Hlw).
  destruct (join_column _ _ _ _ _ Hg Hw) as (bg & ag & Hjg & Hlg).
  rewrite column_of_comm in Hlg.
  destruct (token_last bw w Htw) as (cw & xw & Hrw & Hcw).
  destruct (token_last bg g Htg) as (cg & xg & Hrg & Hcg).
  exists bw, (rstrip aw), bg, (rstrip ag).
  split; [|done].
  rewrite (render_example_renderable _ _ _ _ Hid HW HG), Hjw, Hjg.
  rewrite !(assoc_L (++) _ _ aw), !(assoc_L (++) _ _ ag).
  rewrite (rstrip_after _ _ _ _ Hrw Hcw), (rstrip_after _ _ _ _ Hrg Hcg).
  by rewrite <- !(assoc_L (++)).
Qed.

(** ** The references [REGEX_REFERENCE] matches *)

Lemma startswith_app (p s : pystr) : startswith p (p ++ s) = true.
Proof.
  induction p as [|a p IH]; [apply startswith_nil_l|].
  cbn [app startswith]. by rewrite N.eqb_refl, IH.
Qed.

Lemma startswith_inv (p : pystr) :
  forall s, startswith p s = true -> s = p ++ drop (length p) s.
Proof.
  induction p as [|a p IH]; intros s H; [done|].
  destruct s as [|b s]; [done|]. cbn [startswith] in H.
  apply andb_true_iff in H as [Hab H]. apply N.eqb_eq in Hab as ->.
  cbn [app length drop]. f_equal. by apply IH.
Qed.

Lemma run_Seq_assoc (r1 r2 r3 : regex) s g k :
  run ((r1 +> r2) +> r3) s g k = run (r1 +> r2 +> r3) s g k.
Proof. reflexivity. Qed.

(** *** What a match tells about the text *)

Lemma run_Lit_inv (l : pystr) (r : regex) s g k m :
  run (Lit l +> r) s g k = Some m ->
  exists s', s = l ++ s' /\ run r s' g k = Some m.
Proof.
  cbn [run]. destruct (startswith l s) eqn:E; [|done]. intros H.
  exists (drop (length l) s). split; [by apply startswith_inv|done].
Qed.

Lemma run_Chr_inv (c : N) (r : regex) s g k m :
  run (Chr c +> r) s g k = Some m ->
  exists s', s = c :: s' /\ run r s' g k = Some m.
Proof.
  cbn [run]. destruct s as [|x s]; [done|].
  destruct (N.eqb_spec x c) as [->|]; [|done]. eauto.
Qed.

Lemma run_Chr_last_inv (c : N) s g k m :
  run (Chr c) s g k = Some m -> exists s', s = c :: s'.
Proof.
  cbn [run]. destruct s as [|x s]; [done|].
  destruct (N.eqb_spec x c) as [->|]; [|done]. eauto.
Qed.

Lemma run_Alt_inv (r1 r2 r : regex) s g k m :
  run (Alt r1 r2 +> r) s g k = Some m ->
  run (r1 +> r) s g k = Some m \/ run (r2 +> r) s g k = Some m.
Proof.
  cbn [run]. destruct (run r1 s g _) eqn:E; intros H; [left|right]; congruence.
Qed.

Lemma run_Opt_inv (r1 r : regex) s g k m :
  run (Opt r1 +> r) s g k = Some m ->
  run (r1 +> r) s g k = Some m \/ run r s g k = Some m.
Proof.
  cbn [run]. destruct (run r1 s g _) eqn:E; intros H; [left|right]; congruence.
Qed.

Lemma star_NotChr_inv (c : N) k :
  forall fuel s g m,
    star_loop (run (NotChr c)) k fuel s g = Some m ->
    exists key rest, s = key ++ rest /\ (c ∉ key) /\ k rest g = Some m.
Proof.
  induction fuel as [|fuel IH]; intros s g m H; cbn [star_loop] in H.
  - exists [], s. split; [done|]. split; [apply not_elem_of_nil|done].
  - destruct (run (NotChr c) s g _) as [m'|] eqn:E.
    + simplify_eq. cbn [run] in E. destruct s as [|x s]; [done|].
      destruct (N.eqb_spec x c) as [->|Hne]; [done|].
      case_bool_decide; [|done].
      apply IH in E as (key & rest & -> & Hkey & Hk).
      exists (x :: key), rest. split; [done|]. split; [|done].
      apply not_elem_of_cons. split; [congruence|done].
    + exists [], s. split; [done|]. split; [apply not_elem_of_nil|done].
Qed.

Lemma run_Group_Star_inv (i : nat) (c : N) (r : regex) s g k m :
  run (Group i (Star (NotChr c)) +> r) s g k = Some m ->
  exists key rest g', s = key ++ rest /\ (c ∉ key) /\ run r rest g' k = Some m.
Proof.
  intros H.
  change (star_loop (run (NotChr c))
            (fun s' g' => run r s' (<[i := take (length s - length s') s]> g') k)
            (S (length s)) s g = Some m) in H.
  apply star_NotChr_inv in H as (key & rest & -> & Hkey & H). eauto 6.
Qed.

Lemma run_Group_Plus_inv (i : nat) (c : N) (r : regex) s g k m :
  run (Group i (Plus (NotChr c)) +> r) s g k = Some m ->
  exists x key rest g',
    s = x :: key ++ rest /\ x <> c /\ (c ∉ key) /\ run r rest g' k = Some m.
Proof.
  intros H.
  change (run (NotChr c) s g
            (fun s1 g1 =>
               star_loop (run (NotChr c))
                 (fun s' g' => run r s' (<[i := take (length s - length s') s]> g') k)
                 (S (length s1)) s1 g1) = Some m) in H.
  cbn [run] in H. destruct s as [|x s]; [done|].
  destruct (N.eqb_spec x c) as [->|Hne]; [done|].
  apply star_NotChr_inv in H as (key & rest & -> & Hkey & H). eauto 10.
Qed.

Lemma braces_inv s g m :
  run (Chr (ord "{") +> Group 2 (Star (NotChr (ord "}"))) +> Chr (ord "}"))
      s g (fun s' g' => Some (Match s' g')) = Some m ->
  exists bibkey rest, (ord "}" ∉ bibkey) /\ s = citation_tail None bibkey rest.
Proof.
  intros H. apply run_Chr_inv in H as (s1 & -> & H).
  apply run_Group_Star_inv in H as (key & r1 & g1 & -> & Hkey & H).
  apply run_Chr_last_inv in H as (rest & ->). by exists key, rest.
Qed.

Lemma reference_tail_inv s g m :
  run (Opt (Chr (ord "[") +> Group 1 (Plus (NotChr (ord "]"))) +> Chr (ord "]")) +>
       Chr (ord "{") +> Group 2 (Star (NotChr (ord "}"))) +> Chr (ord "}"))
      s g (fun s' g' => Some (Match s' g')) = Some m ->
  exists locator bibkey rest,
    (ord "}" ∉ bibkey) /\
    match locator with
    | Some pages => pages <> [] /\ ord "]" ∉ pages
    | None => True
    end /\
    s = citation_tail locator bibkey rest.
Proof.
  intros H. apply run_Opt_inv in H as [H|H].
  - rewrite run_Seq_assoc in H.
    apply run_Chr_inv in H as (s1 & -> & H).
    rewrite run_Seq_assoc in H.
    apply run_Group_Plus_inv in H as (x & pages & r1 & g1 & -> & Hx & Hp & H).
    apply run_Chr_inv in H as (s2 & -> & H).
    apply braces_inv in H as (key & rest & Hkey & ->).
    exists (Some (x :: pages)), key, rest. split; [done|]. split; [|done].
    split; [done|]. apply not_elem_of_cons. split; [congruence|done].
  - apply braces_inv in H as (key & rest & Hkey & ->).
    by exists None, key, rest.
Qed.

Lemma re_match_reference_form (text : pystr) (m : match_obj) :
  re_match REGEX_REFERENCE text = Some m ->
  exists cmd locator bibkey rest,
    citation_parts cmd locator bibkey /\ text = citation cmd locator bibkey rest.
Proof.
  unfold re_match, REGEX_REFERENCE. intros H.
  apply run_Lit_inv in H as (s1 & -> & H).
  apply run_Alt_inv in H as [H|H]; [|apply run_Alt_inv in H as [H|H]];
    apply run_Lit_inv in H as (s2 & -> & H);
    apply reference_tail_inv in H as (locator & key & rest & Hkey & Hloc & ->).
  - exists (py "p"), locator, key, rest. split; [|done].
    split; [left|done].
  - exists (py "t"), locator, key, rest. split; [|done].
    split; [right; left|done].
  - exists (py "alt"), locator, key, rest. split; [|done].
    split; [right; right; left|done].
Qed.

(** *** What the text tells about the match *)

Lemma run_NotChr_cons (c x : N) s g k :
  run (NotChr c) (x :: s) g k = if x =? c then None else k s g.
Proof. reflexivity. Qed.

Lemma star_NotChr_greedy (c : N) k :
  forall fuel key rest g m,
    c ∉ key -> (length key < fuel)%nat ->
    match rest with [] => True | x :: _ => x = c end ->
    k rest g = Some m ->
    star_loop (run (NotChr c)) k fuel (key ++ rest) g = Some m.
Proof.
  induction fuel as [|fuel IH]; intros key rest g m Hkey Hfuel Hrest Hk; [lia|].
  cbn [star_loop]. destruct key as [|x key]; cbn [app].
  - destruct rest as [|y rest]; cbn [run]; [done|].
    subst y. by rewrite N.eqb_refl.
  - apply not_elem_of_cons in Hkey as [Hx Hkey]. rewrite run_NotChr_cons.
    destruct (N.eqb_spec x c) as [->|_]; [done|].
    rewrite bool_decide_eq_true_2 by (cbn [length]; lia).
    cbn [length] in Hfuel.
    by rewrite (IH key rest g m Hkey ltac:(lia) Hrest Hk).
Qed.

Lemma run_Lit_app (l : pystr) (r : regex) s g k :
  run (Lit l +> r) (l ++ s) g k = run r s g k.
Proof. cbn [run]. by rewrite startswith_app, drop_app_length. Qed.

Lemma run_Lit_none (l : pystr) (r : regex) s g k :
  startswith l s = false -> run (Lit l +> r) s g k = None.
Proof. cbn [run]. by intros ->. Qed.

Lemma run_Alt_first (r1 r2 r : regex) s g k m :
  run (r1 +> r) s g k = Some m -> run (Alt r1 r2 +> r) s g k = Some m.
Proof. cbn [run]. by intros ->. Qed.

Lemma run_Alt_second (r1 r2 r : regex) s g k m :
  run (r1 +> r) s g k = None -> run (r2 +> r) s g k = Some m ->
  run (Alt r1 r2 +> r) s g k = Some m.
Proof. cbn [run]. by intros ->. Qed.

Lemma run_Opt_first (r1 r : regex) s g k m :
  run (r1 +> r) s g k = Some m -> run (Opt r1 +> r) s g k = Some m.
Proof. cbn [run]. by intros ->. Qed.

Lemma run_Opt_skip (r1 r : regex) s g k m :
  run (r1 +> r) s g k = None -> run r s g k = Some m ->
  run (Opt r1 +> r) s g k = Some m.
Proof. cbn [run]. by intros ->. Qed.

Lemma run_Chr_other (c x : N) (r : regex) s g k :
  x <> c -> run (Chr c +> r) (x :: s) g k = None.
Proof. intros Hne. cbn [run]. by destruct (N.eqb_spec x c). Qed.

Lemma run_braces (bibkey rest : pystr) (g : gmap nat pystr) :
  ord "}" ∉ bibkey ->
  run (Chr (ord "{") +> Group 2 (Star (NotChr (ord "}"))) +> Chr (ord "}"))
      (citation_tail None bibkey rest) g (fun s' g' => Some (Match s' g'))
  = Some (Match rest (<[2%nat := bibkey]> g)).
Proof.
  intros Hkey. unfold citation_tail.
  change (run (Chr (ord "{") +> ?r) ?s ?g ?k)
    with (run (Chr (ord "{")) s g (fun s' g' => run r s' g' k)).
  cbn [run]. rewrite N.eqb_refl.
  apply star_NotChr_greedy; [done|rewrite length_app; lia|done|].
  rewrite N.eqb_refl. do 3 f_equal.
  rewrite length_app. cbn [length].
  replace (length bibkey + S (length rest) - S (length rest))%nat
    with (length bibkey) by lia.
  by rewrite take_app_length.
Qed.

Lemma run_locator (pages : pystr) (r : regex) s g k m :
  pages <> [] -> ord "]" ∉ pages ->
  run r s (<[1%nat := pages]> g) k = Some m ->
  run ((Chr (ord "[") +> Group 1 (Plus (NotChr (ord "]"))) +> Chr (ord "]")) +> r)
      (ord "[" :: pages ++ ord "]" :: s) g k = Some m.
Proof.
  intros Hne Hp Hr. destruct pages as [|x pages]; [done|].
  apply not_elem_of_cons in Hp as [Hx Hp].
  cbn [run app]. rewrite N.eqb_refl.
  destruct (N.eqb_spec x (ord "]")) as [->|_]; [done|].
  apply star_NotChr_greedy; [done|rewrite length_app; lia|done|].
  rewrite N.eqb_refl. rewrite <- Hr. do 2 f_equal.
  cbn [length]. rewrite length_app. cbn [length].
  replace (S (length pages + S (length s)) - S (length s))%nat
    with (S (length pages)) by lia.
  cbn [take]. f_equal. by rewrite take_app_length.
Qed.

Lemma re_match_citation (cmd : pystr) (locator : option pystr) (bibkey rest : pystr) :
  citation_parts cmd locator bibkey ->
  re_match REGEX_REFERENCE (citation cmd locator bibkey rest)
  = Some (Match rest
            (<[2%nat := bibkey]>
               match locator with
               | Some pages => <[1%nat := pages]> ∅
               | None => ∅
               end)).
Proof.
  intros (Hcmd & Hkey & Hloc). unfold re_match, REGEX_REFERENCE, citation.
  rewrite run_Lit_app.
  assert (run (Opt (Chr (ord "[") +> Group 1 (Plus (NotChr (ord "]"))) +> Chr (ord "]")) +>
               Chr (ord "{") +> Group 2 (Star (NotChr (ord "}"))) +> Chr (ord "}"))
              (citation_tail locator bibkey rest) ∅ (fun s' g' => Some (Match s' g'))
          = Some (Match rest
                    (<[2%nat := bibkey]>
                       match locator with
                       | Some pages => <[1%nat := pages]> ∅
                       | None => ∅
                       end))) as Htail.
  { destruct locator as [pages|].
    - destruct Hloc as [Hne Hp]. apply run_Opt_first.
      apply run_locator; [done|done|]. by apply run_braces.
    - apply run_Opt_skip; [|by apply run_braces].
      rewrite run_Seq_assoc. by apply run_Chr_other. }
  repeat (apply elem_of_cons in Hcmd as [->|Hcmd]).
  - apply run_Alt_first. by rewrite run_Lit_app.
  - apply run_Alt_second; [by apply run_Lit_none|].
    apply run_Alt_first. by rewrite run_Lit_app.
  - apply run_Alt_second; [by apply run_Lit_none|].
    apply run_Alt_second; [by apply run_Lit_none|]. by rewrite run_Lit_app.
  - by apply elem_of_nil in Hcmd.
Qed.

(** X12.  [add_source] reads a reference as a citation exactly when it
    starts with [\cite], one of [p], [t] and [alt], an optional locator in
    square brackets that is not empty, and a key in braces.  [Source] is
    then the key, followed by the locator in square brackets with its
    semicolons turned into commas if there is one; what follows the closing
    brace is dropped.  Every other reference goes to [Source_comment]
    whole. *)
Theorem add_source_citation_form (row : record) (text : pystr) :
  row !! py "reference" = Some (Str text) ->
  (forall cmd locator bibkey rest,
      citation_parts cmd locator bibkey ->
      text = citation cmd locator bibkey rest ->
      add_source row
      = Some (<[py "Source" := StrList [source_of locator bibkey]]> row)) /\
  ((forall cmd locator bibkey rest,
       citation_parts cmd locator bibkey ->
       text <> citation cmd locator bibkey rest) ->
   add_source row = Some (<[py "Source_comment" := Str text]> row)).
Proof.
  intros Hrow. split.
  - intros cmd locator bibkey rest Hparts ->. unfold add_source.
    rewrite Hrow. cbn [mbind option_bind as_str].
    rewrite (re_match_citation _ _ _ _ Hparts). unfold group. cbn [m_groups].
    rewrite lookup_insert_eq. cbn [mbind option_bind].
    destruct locator as [pages|].
    + rewrite lookup_insert_ne, lookup_insert_eq by done.
      destruct Hparts as (_ & _ & Hne & _).
      destruct pages as [|x pages]; [done|]. done.
    + rewrite lookup_insert_ne, lookup_empty by done. done.
  - intros Hnone. apply add_source_comment; [done|].
    destruct (re_match REGEX_REFERENCE text) as [m|] eqn:Hm; [|done].
    destruct (re_match_reference_form _ _ Hm) as (cmd & loc & key & rest & Hp & E).
    by destruct (Hnone _ _ _ rest Hp).
Qed.

(** ** [detex] on the small-caps macro *)

Lemma sub_from_skip (r : regex) (repl : match_obj -> option pystr) (s : pystr) :
  forall n, sub_from r repl n s = sub_from r repl 0 (drop n s).
Proof.
  induction s as [|c s IH]; intros [|n]; try done.
  cbn [sub_from drop]. apply IH.
Qed.

Lemma re_match_textsc_arg (arg tail rest : pystr) :
  ord "}" ∉ arg ->
  (tail = ord "}" :: rest \/ (tail = [] /\ rest = [])) ->
  re_match REGEX_TEXTSC (py "\textsc{" ++ arg ++ tail)
  = Some (Match rest (<[1%nat := arg]> ∅)).
Proof.
  intros Harg Htail. unfold re_match, REGEX_TEXTSC. rewrite run_Lit_app.
  change (run (Group ?i (Star ?r1) +> ?r) ?s ?g ?k)
    with (star_loop (run r1)
            (fun s' g' => run r s' (<[i := take (length s - length s') s]> g') k)
            (S (length s)) s g).
  apply star_NotChr_greedy; [done|rewrite length_app; lia| |].
  - by destruct Htail as [->|[-> _]].
  - assert (take (length (arg ++ tail) - length tail) (arg ++ tail) = arg) as ->.
    { rewrite length_app.
      replace (length arg + length tail - length tail)%nat with (length arg) by lia.
      by rewrite take_app_length. }
    destruct Htail as [->|[-> ->]]; cbn [run at_end]; [by rewrite N.eqb_refl|done].
Qed.

(** X13.  Where nothing else is to be cleaned, [detex] replaces the macro
    [\textsc{...}] at the start of a text by its argument in upper case and
    keeps what follows the closing brace; a macro that is not closed
    takes the rest of the text as its argument. *)
Theorem detex_small_caps (arg rest : pystr) :
  ord "}" ∉ arg ->
  (forall tail,
      occurs (py "$\rightarrow$") (py "\textsc{" ++ arg ++ tail) = false ->
      occurs (py "$\emptyset$") (py "\textsc{" ++ arg ++ tail) = false ->
      occurs (py "\tld{}") (py "\textsc{" ++ arg ++ tail) = false ->
      (tail = ord "}" :: rest /\ occurs (py "\textsc{") rest = false ->
       detex (py "\textsc{" ++ arg ++ tail) = Some (upper arg ++ rest)) /\
      (tail = [] -> detex (py "\textsc{" ++ arg ++ tail) = Some (upper arg))).
Proof.
  intros Harg tail H1 H2 H3.
  assert (forall rest',
             (tail = ord "}" :: rest' \/ (tail = [] /\ rest' = [])) ->
             occurs (py "\textsc{") rest' = false ->
             detex (py "\textsc{" ++ arg ++ tail) = Some (upper arg ++ rest')) as Hgen.
  { intros rest' Htail Hrest. unfold detex, re_sub.
    rewrite (replace_absent _ _ _ H1), (replace_absent _ _ _ H2),
      (replace_absent _ _ _ H3).
    pose proof (re_match_textsc_arg arg tail rest' Harg Htail) as Hm.
    change (py "\textsc{" ++ arg ++ tail)
      with (BACKSLASH :: (py "textsc{" ++ arg ++ tail)) in Hm |- *.
    cbn [sub_from]. rewrite Hm.
    unfold group. cbn [m_groups m_rest]. rewrite lookup_insert_eq.
    cbn [fmap option_fmap option_map mbind option_bind].
    assert (exists n : nat,
               (length (BACKSLASH :: (py "textsc{" ++ arg ++ tail)) - length rest' = S n)%nat /\
               drop n (py "textsc{" ++ arg ++ tail) = rest') as (n & -> & Hdrop).
    { exists (7 + length arg + (length tail - length rest'))%nat.
      cbn [length]. rewrite !length_app.
      change (length (py "textsc{")) with 7%nat.
      destruct Htail as [->|[-> ->]]; cbn [length].
      - split; [lia|].
        replace (7 + length arg + (S (length rest') - length rest'))%nat
          with (length (py "textsc{" ++ arg ++ [ord "}"])).
        + change (ord "}" :: rest') with ([ord "}"] ++ rest').
          rewrite !(assoc_L (++)). apply drop_app_length.
        + rewrite !length_app. change (length (py "textsc{")) with 7%nat.
          cbn [length]. lia.
      - split; [lia|]. apply drop_ge. rewrite !length_app.
        change (length (py "textsc{")) with 7%nat. cbn [length]. lia. }
    rewrite sub_from_skip, Hdrop, (sub_from_textsc_absent _ _ Hrest).
    done. }
  split.
  - intros [-> Hrest]. apply Hgen; [by left|done].
  - intros ->. rewrite <- (app_nil_r (upper arg)). apply Hgen; [by right|done].
Qed.

(** ** The records of the language table *)

Lemma language_row_pairs (row : raw_row) (rec : record) (new_key old_key : pystr) :
  language_row row = Some rec ->
  (new_key, old_key) ∈ LANGUAGE_COLUMN_MAP ->
  rec !! new_key = of_cell <$> row !! old_key.
Proof.
  intros H Hin. destruct (language_row_fields _ _ H)
    as (H1 & H2 & H3 & H4 & H5 & H6 & H7 & H8 & H9 & _).
  unfold LANGUAGE_COLUMN_MAP in Hin.
  repeat (apply elem_of_cons in Hin as [Hin|Hin]; [by injection Hin as -> ->|]).
  by apply elem_of_nil in Hin.
Qed.

(** X14.  The language table a run hands over has one record for each row
    of [estimative.csv], in the order of the file.  The record of a row
    holds, under each new name of [LANGUAGE_COLUMN_MAP], the cell of the
    row under the old name paired with it ([add_source] has changed none
    of them), and beside these only [Source] or [Source_comment]: the
    cells of the parameters are not carried over. *)
Theorem language_table_rows (inp : inputs) (out : cldf) :
  cmd_makecldf inp = Some out ->
  length (LanguageTable out) = length (estimative_csv inp) /\
  forall (k : nat) (row : raw_row) (rec : record),
    estimative_csv inp !! k = Some row ->
    LanguageTable out !! k = Some rec ->
    (forall new_key old_key,
        (new_key, old_key) ∈ LANGUAGE_COLUMN_MAP ->
        rec !! new_key = of_cell <$> row !! old_key) /\
    (forall key,
        is_Some (rec !! key) ->
        key ∈ fst <$> LANGUAGE_COLUMN_MAP \/
        key = py "Source" \/ key = py "Source_comment").
Proof.
  intros H. destruct (cmd_makecldf_tables _ _ H) as (t & Ht & _ & -> & _ & _).
  destruct (make_tables_stages _ _ Ht) as (rows & _ & _ & _ & _ & Hrows & Hsrc & _).
  apply mapM_Some_1 in Hrows. apply mapM_Some_1 in Hsrc.
  split.
  { by rewrite <- (Forall2_length _ _ _ Hsrc), <- (Forall2_length _ _ _ Hrows). }
  intros k row rec Hrow Hrec.
  destruct (Forall2_lookup_r _ _ _ _ _ Hsrc Hrec) as (before & Hb & Hadd).
  destruct (Forall2_lookup_l _ _ _ _ _ Hrows Hrow) as (before' & Hb' & Hbuilt).
  assert (before' = before) as -> by congruence.
  split.
  - intros new_key old_key Hin.
    rewrite (add_source_other _ _ new_key Hadd).
    + by apply language_row_pairs.
    + intros ->. revert Hin. unfold LANGUAGE_COLUMN_MAP.
      apply (bool_decide_unpack _). vm_compute. exact I.
    + intros ->. revert Hin. unfold LANGUAGE_COLUMN_MAP.
      apply (bool_decide_unpack _). vm_compute. exact I.
  - intros key Hkey.
    destruct (decide (key = py "Source")) as [|HS]; [by right; left|].
    destruct (decide (key = py "Source_comment")) as [|HC]; [by right; right|].
    left. rewrite (add_source_other _ _ key Hadd HS HC) in Hkey.
    destruct (decide (key ∈ fst <$> LANGUAGE_COLUMN_MAP)) as [|Hout]; [done|].
    unfold language_row in Hbuilt.
    rewrite (language_columns_other _ _ _ _ _ Hbuilt Hout), lookup_empty in Hkey.
    by destruct Hkey.
Qed.

(** ** The tables handed over as they were read *)

Lemma od_set_fresh {V} (d : list (csv_cell * V)) (k : csv_cell) (v : V) :
  k ∉ fst <$> d -> od_set k v d = d ++ [(k, v)].
Proof.
  induction d as [|[k0 v0] d IH]; intros Hk; [done|]. cbn [od_set].
  rewrite fmap_cons in Hk. apply not_elem_of_cons in Hk as [Hne Hk].
  rewrite decide_False by done. cbn [app]. by rewrite IH.
Qed.

Lemma od_set_in {V} (d : list (csv_cell * V)) (k : csv_cell) (v : V) :
  (k, v) ∈ od_set k v d.
Proof.
  induction d as [|[k0 v0] d IH]; cbn [od_set]; [left|].
  destruct (decide (k = k0)); [left|by right].
Qed.

Lemma od_key_value {V} (d : list (csv_cell * V)) (k : csv_cell) (v v' : V) :
  NoDup (fst <$> d) -> (k, v) ∈ d -> (k, v') ∈ d -> v = v'.
Proof.
  intros Hnd H H'. apply (od_get_elem _ _ _ Hnd) in H.
  apply (od_get_elem _ _ _ Hnd) in H'. congruence.
Qed.

Lemma code_table_of_keys (codes : list raw_row) :
  forall acc code_table,
    code_table_of codes acc = Some code_table ->
    (forall k, k ∈ fst <$> acc -> k ∈ fst <$> code_table) /\
    (forall code, code ∈ codes ->
       exists k, code !! py "ID" = Some k /\ k ∈ fst <$> code_table).
Proof.
  induction codes as [|code codes IH]; intros acc code_table H;
    cbn [code_table_of] in H.
  - simplify_eq. split; [done|]. intros code Hin. by apply elem_of_nil in Hin.
  - destruct (code !! py "ID") as [id|] eqn:Hid; [|done].
    cbn [mbind option_bind] in H. destruct (IH _ _ H) as [Hacc Hcodes].
    assert (forall k, k ∈ fst <$> acc \/ k = id -> k ∈ fst <$> code_table) as Hset.
    { intros k Hk. apply Hacc. rewrite od_set_keys.
      destruct (decide (id ∈ fst <$> acc)) as [Hin|Hout].
      - destruct Hk as [?| ->]; done.
      - apply elem_of_app. destruct Hk as [?| ->]; [by left|right; left]. }
    split; [intros k Hk; apply Hset; by left|].
    intros c [->|Hin]%elem_of_cons; [|by apply Hcodes].
    exists id. split; [done|]. apply Hset. by right.
Qed.

Lemma code_table_of_distinct (codes : list raw_row) :
  forall acc code_table,
    code_table_of codes acc = Some code_table ->
    NoDup ((fun code : raw_row => code !! py "ID") <$> codes) ->
    (forall code k, code ∈ codes -> code !! py "ID" = Some k -> k ∉ fst <$> acc) ->
    od_values code_table = od_values acc ++ codes.
Proof.
  induction codes as [|code codes IH]; intros acc code_table H Hnd Hacc;
    cbn [code_table_of] in H.
  - simplify_eq. by rewrite app_nil_r.
  - destruct (code !! py "ID") as [id|] eqn:Hid; [|done].
    cbn [mbind option_bind] in H.
    rewrite fmap_cons in Hnd. apply NoDup_cons in Hnd as [Hfirst Hnd].
    assert (id ∉ fst <$> acc) as Hfresh by (apply (Hacc code); [left|done]).
    rewrite (od_set_fresh _ _ _ Hfresh) in H.
    rewrite (IH _ _ H Hnd).
    + unfold od_values. rewrite fmap_app. cbn [fmap list_fmap snd].
      by rewrite <- (assoc_L (++)).
    + intros c k Hc Hk. rewrite fmap_app. cbn [fmap list_fmap fst].
      intros [Hin|Hin]%elem_of_app.
      * apply (Hacc c k); [by right|done|done].
      * apply list_elem_of_singleton in Hin as ->. apply Hfirst.
        rewrite Hid, <- Hk. apply list_elem_of_fmap. by exists c.
Qed.

(** The code kept under a key is the last code of the file with that
    [ID]. *)
Lemma code_table_of_last (codes : list raw_row) :
  forall acc code_table,
    code_table_of codes acc = Some code_table ->
    NoDup (fst <$> acc) ->
    forall k code,
      (k, code) ∈ code_table ->
      ((k, code) ∈ acc /\
       forall code', code' ∈ codes -> code' !! py "ID" <> Some k) \/
      exists i : nat,
        codes !! i = Some code /\ code !! py "ID" = Some k /\
        forall (j : nat) code',
          (i < j)%nat -> codes !! j = Some code' -> code' !! py "ID" <> Some k.
Proof.
  induction codes as [|c codes IH]; intros acc code_table H Hnd k code Hin;
    cbn [code_table_of] in H.
  - simplify_eq. left. split; [done|]. intros code' Hc. by apply elem_of_nil in Hc.
  - destruct (c !! py "ID") as [id|] eqn:Hid; [|done].
    cbn [mbind option_bind] in H.
    pose proof (od_set_NoDup acc id c Hnd) as Hnd'.
    destruct (IH _ _ H Hnd' _ _ Hin) as [[Hacc Hrest]|(i & Hi & Hk & Hlater)].
    + destruct (decide (k = id)) as [->|Hne].
      * assert (code = c) as -> by (eapply od_key_value; [exact Hnd'|done|apply od_set_in]).
        right. exists 0%nat. split; [done|]. split; [done|].
        intros [|j] code' Hj Hcode'; [lia|].
        cbn [lookup list_lookup] in Hcode'. apply Hrest.
        by eapply list_elem_of_lookup_2.
      * left. apply od_set_elem in Hacc as [[? ?]|Hacc]; [done|].
        split; [done|]. intros code' [->|Hc]%elem_of_cons; [congruence|by apply Hrest].
    + right. exists (S i). split; [done|]. split; [done|].
      intros [|j] code' Hj Hcode'; [lia|].
      cbn [lookup list_lookup] in Hcode'. apply (Hlater j); [lia|done].
Qed.

(** The keys of the code table: the [ID]s of the file, each at the place
    of its first occurrence. *)
Lemma code_table_of_order (codes : list raw_row) :
  forall acc code_table ids,
    code_table_of codes acc = Some code_table ->
    (fun code : raw_row => code !! py "ID") <$> codes = Some <$> ids ->
    fst <$> code_table
    = foldl (fun seen k => if decide (k ∈ seen) then seen else seen ++ [k])
            (fst <$> acc) ids.
Proof.
  induction codes as [|c codes IH]; intros acc code_table ids H Hids;
    cbn [code_table_of] in H.
  - simplify_eq. by destruct ids.
  - destruct (c !! py "ID") as [id|] eqn:Hid; [|done].
    cbn [mbind option_bind] in H.
    destruct ids as [|id' ids]; [done|]. rewrite !fmap_cons, Hid in Hids.
    injection Hids as <- Hids. cbn [foldl].
    rewrite (IH _ _ _ H Hids). by rewrite od_set_keys.
Qed.

(** X15.  The code table a run hands over holds codes of [codes.csv] only,
    no two of them with the same [ID]: for every [ID] of the file its last
    code, a later code taking the place of an earlier one of the same
    [ID], so that the [ID]s stand in the order of their first occurrence
    in the file.  Where the file has no [ID] twice, the table is the file.
    The parameter table is [parameters.csv] as it was read, and what the
    writer was given as sources is the bibliography as [patch_biblio]
    returns it. *)
Theorem tables_as_read (inp : inputs) (out : cldf) :
  cmd_makecldf inp = Some out ->
  Forall (fun code => code ∈ codes_csv inp) (CodeTable out) /\
  NoDup ((fun code : raw_row => code !! py "ID") <$> CodeTable out) /\
  (forall code,
      code ∈ codes_csv inp ->
      exists code', code' ∈ CodeTable out /\ code' !! py "ID" = code !! py "ID") /\
  (forall code,
      code ∈ CodeTable out ->
      exists i : nat,
        codes_csv inp !! i = Some code /\
        forall (j : nat) code',
          (i < j)%nat -> codes_csv inp !! j = Some code' ->
          code' !! py "ID" <> code !! py "ID") /\
  (exists ids,
      (fun code : raw_row => code !! py "ID") <$> codes_csv inp = Some <$> ids /\
      (fun code : raw_row => code !! py "ID") <$> CodeTable out
      = Some <$> foldl (fun seen k => if decide (k ∈ seen) then seen else seen ++ [k])
                       [] ids) /\
  (NoDup ((fun code : raw_row => code !! py "ID") <$> codes_csv inp) ->
   CodeTable out = codes_csv inp) /\
  ParameterTable out = parameters_csv inp /\
  write_schema (patch_biblio (bibliogj_bib inp)) = Some (dataset out).
Proof.
  intros H. destruct (cmd_makecldf_written _ _ H) as (t & Ht & Hw & -> & ->).
  destruct (make_tables_read _ _ Ht) as (Hbib & Hpar & Hd).
  set (d := code_table t) in *.
  assert (code_table_wf (codes_csv inp) d) as [Hnd Hin].
  { apply (code_table_of_wf _ _ [] _ Hd); [done|].
    split; [constructor|]. intros k c Hc. by apply elem_of_nil in Hc. }
  assert ((fun code : raw_row => code !! py "ID") <$> od_values d
          = Some <$> (fst <$> d)) as Hids.
  { unfold od_values. rewrite <- !list_fmap_compose.
    apply list_fmap_ext. intros i [k c] Hkc%list_elem_of_lookup_2.
    cbn [compose fst snd]. by destruct (Hin _ _ Hkc). }
  split; [|split; [|split; [|split; [|split; [|split; [|split]]]]]].
  - apply Forall_forall. intros code Hc. unfold od_values in Hc.
    apply list_elem_of_fmap in Hc as ([k c] & -> & Hkc). by destruct (Hin _ _ Hkc).
  - rewrite Hids. apply (NoDup_fmap_2 _). exact Hnd.
  - intros code Hc. destruct (code_table_of_keys _ _ _ Hd) as [_ Hcov].
    destruct (Hcov _ Hc) as (k & Hk & Hkd).
    apply list_elem_of_fmap in Hkd as ([k' c'] & -> & Hkc). cbn [fst] in *.
    exists c'. split.
    + unfold od_values. apply list_elem_of_fmap. by exists (k', c').
    + rewrite Hk. by destruct (Hin _ _ Hkc).
  - intros code Hc. unfold od_values in Hc.
    apply list_elem_of_fmap in Hc as ([k c] & -> & Hkc). cbn [snd].
    destruct (code_table_of_last _ _ _ Hd (NoDup_nil_2) _ _ Hkc)
      as [[Hnil _]|(i & Hi & Hk & Hlater)]; [by apply elem_of_nil in Hnil|].
    exists i. split; [done|]. rewrite Hk. exact Hlater.
  - assert (exists ids, (fun code : raw_row => code !! py "ID") <$> codes_csv inp
                        = Some <$> ids) as [ids Hfile].
    { pose proof (code_table_of_ids _ [] (ex_intro _ _ Hd)) as Hall.
      clear -Hall. induction Hall as [|code codes [k Hk] _ [ids IH]].
      - by exists [].
      - exists (k :: ids). by rewrite !fmap_cons, Hk, IH. }
    exists ids. split; [done|]. rewrite Hids. f_equal.
    by rewrite (code_table_of_order _ _ _ _ Hd Hfile).
  - intros Hdistinct.
    rewrite (code_table_of_distinct _ _ _ Hd Hdistinct); [done|].
    intros c k _ _ Hk. by apply elem_of_nil in Hk.
  - done.
  - by rewrite <- Hbib.
Qed.

(** ** The records of the example table *)

Lemma example_row_built (cells : list pystr) (built : record) :
  example_row (dict_of (zip EXAMPLE_COLUMNS cells)) = Some built ->
  exists lang_id text gloss trans reference primary words glosses,
    take 5 cells = [lang_id; text; gloss; trans; reference] /\
    detex text = Some primary /\
    mapM detex (split text) = Some words /\
    mapM detex (split gloss) = Some glosses /\
    built !! py "Primary_Text" = Some (Str primary) /\
    built !! py "Analyzed_Word" = Some (StrList words) /\
    built !! py "Gloss" = Some (StrList glosses) /\
    built !! py "Translated_Text" = Some (Str (strip trans)) /\
    built !! py "reference" = Some (Str reference).
Proof.
  destruct cells as [|c1 [|c2 [|c3 [|c4 [|c5 cells]]]]];
    unfold EXAMPLE_COLUMNS, example_row;
    cbn [zip zip_with dict_of foldl fst snd]; lookup_py;
    repeat first
      [ progress cbn [mbind option_bind]
      | match goal with
        | |- context [detex ?x] =>
            let E := fresh "E" in destruct (detex_total x) as [? E]; rewrite E
        | |- context [mapM detex ?x] =>
            let E := fresh "E" in destruct (mapM_detex_total x) as [? E]; rewrite E
        end ];
    try done.
  intros H. injection H as <-.
  eexists c1, c2, c3, c4, c5, _, _, _.
  split; [done|]. split; [done|]. split; [done|]. split; [done|].
  repeat split; by lookup_py.
Qed.

(** X16.  What the example table holds for a row of [estimative-ex.csv]:
    the cleaned text, the tokens of the text and of the gloss, each
    cleaned on its own (so that there are as many words as the raw text
    has tokens, and as many glosses as the raw gloss), the translation
    without the white space at its ends, and the reference as it was.
    The example is misaligned exactly when raw text and raw gloss differ
    in their number of tokens. *)
Theorem example_table_records (inp : inputs) (out : cldf) :
  cmd_makecldf inp = Some out ->
  forall (k : nat) (cells : list pystr) (example : record),
    estimative_ex_csv inp !! k = Some cells ->
    ExampleTable out !! k = Some example ->
    exists lang_id text gloss trans reference primary words glosses,
      take 5 cells = [lang_id; text; gloss; trans; reference] /\
      detex text = Some primary /\
      mapM detex (split text) = Some words /\
      mapM detex (split gloss) = Some glosses /\
      example !! py "Primary_Text" = Some (Str primary) /\
      example !! py "Analyzed_Word" = Some (StrList words) /\
      example !! py "Gloss" = Some (StrList glosses) /\
      example !! py "Translated_Text" = Some (Str (strip trans)) /\
      example !! py "reference" = Some (Str reference) /\
      (mismatched example <-> length (split text) <> length (split gloss)).
Proof.
  intros H k cells example Hcells Hk.
  destruct (cmd_makecldf_tables _ _ H) as (t & Ht & _ & _ & _ & Hex).
  rewrite Hex in Hk.
  destruct (make_tables_stages _ _ Ht)
    as (_ & _ & _ & _ & built & _ & _ & _ & _ & _ & Hbuilt & Hnum).
  destruct (number_examples_spec _ _ _ Hnum) as [_ Hall].
  destruct (Hall _ _ Hk) as (before & language_id & Hb & _ & _ & _ & id & Hadd).
  apply mapM_Some_1 in Hbuilt.
  destruct (Forall2_lookup_r _ _ _ _ _ Hbuilt Hb) as (raw & Hraw & Hrow).
  apply list_lookup_fmap_Some in Hraw as (cells' & -> & Hcells').
  assert (cells' = cells) as -> by congruence.
  destruct (example_row_built _ _ Hrow)
    as (lang_id & text & gloss & trans & reference & primary & words & glosses
        & Hfive & Hp & Hw & Hg & HP & HW & HG & HT & HR).
  assert (forall key, key <> py "Source" -> key <> py "Source_comment" ->
                      key <> py "ID" -> example !! key = before !! key) as Hsame.
  { intros key HS HC HI. rewrite (add_source_other _ _ key Hadd HS HC).
    by rewrite lookup_insert_ne. }
  exists lang_id, text, gloss, trans, reference, primary, words, glosses.
  split; [done|]. split; [done|]. split; [done|]. split; [done|].
  assert (example !! py "Analyzed_Word" = Some (StrList words)) as HW'
    by (rewrite Hsame by py_neq; done).
  assert (example !! py "Gloss" = Some (StrList glosses)) as HG'
    by (rewrite Hsame by py_neq; done).
  split; [rewrite Hsame by py_neq; done|]. split; [done|]. split; [done|].
  split; [rewrite Hsame by py_neq; done|].
  split; [rewrite Hsame by py_neq; done|].
  unfold mismatched. rewrite HW', HG'.
  by rewrite (length_mapM _ _ _ Hw), (length_mapM _ _ _ Hg).
Qed.

(** ** [str.strip] *)

(** X17.  [strip] takes white space off the two ends of a string and
    nothing else: the string is its stripped form between two runs of
    white space, and the stripped form neither starts nor ends with white
    space.  The translation of an example is stored stripped, and the two
    lines of a rendering are stripped at their right end in the same
    way. *)
Theorem strip_trims (s : pystr) :
  exists l r,
    s = l ++ strip s ++ r /\
    Forall (fun c => isspace c = true) l /\
    Forall (fun c => isspace c = true) r /\
    (forall c, head (strip s) = Some c -> isspace c = false) /\
    (forall c, last (strip s) = Some c -> isspace c = false).
Proof.
  unfold strip, lstrip, rstrip.
  destruct (drop_while_split isspace s) as (l & Hs & Hl & Hhead).
  destruct (drop_while_split isspace (reverse (drop_while isspace s)))
    as (r & Hm & Hr & Hlast).
  set (m := drop_while isspace s) in *.
  set (d := drop_while isspace (reverse m)) in *.
  assert (m = reverse d ++ reverse r) as Hmid.
  { rewrite <- reverse_app, <- Hm. by rewrite reverse_involutive. }
  exists l, (reverse r). split; [by rewrite <- Hmid|].
  split; [done|]. split; [by apply Forall_reverse|]. split.
  - intros c Hc. apply Hhead. rewrite Hmid.
    destruct (reverse d) as [|x xs]; [done|]. exact Hc.
  - intros c Hc. apply Hlast. by rewrite last_reverse in Hc.
Qed.

End Conversion.

(** * Instances

    The theorems above at concrete inputs, and the inputs at which a
    claim fails as it was stated.  The runs are runs with the sample
    writer, and with no upper-case forms beyond those of ASCII. *)

Arguments dataset {writer} _.
Arguments LanguageTable {writer} _.
Arguments ParameterTable {writer} _.
Arguments CodeTable {writer} _.
Arguments ValueTable {writer} _.
Arguments ExampleTable {writer} _.
Arguments stderr {writer} _.

Abbreviation sample_run :=
  (cmd_makecldf ∅ (list pystr) sample_add_component sample_add_sources []).

(** C1, the claim as stated fails: a raw row with both a [Glottocode] and
    an [ID] column (and the eight original columns) is converted to a
    record that has no [id] field at all, and whose [ID] is the row's [id]
    cell, not its [Glottocode] cell; a row that has the columns under the
    output names only is not converted (a [KeyError]). *)
Lemma language_row_not_original_to_output :
  sample_language "alam1246" "p.c." "yes" "no" !! py "Glottocode"
  = Some (Some (py "glot0001")) /\
  sample_language "alam1246" "p.c." "yes" "no" !! py "ID" = Some (Some (py "7")) /\
  (language_row (sample_language "alam1246" "p.c." "yes" "no")
     ≫= fun built => built !! py "id") = None /\
  (language_row (sample_language "alam1246" "p.c." "yes" "no")
     ≫= fun built => built !! py "ID") = Some (Str (py "alam1246")) /\
  (language_row (sample_language "alam1246" "p.c." "yes" "no")
     ≫= fun built => built !! py "Glottocode") = Some (Str (py "alam1246")) /\
  language_row sample_language_output_names = None.
Proof. repeat split; evaluated. Qed.

Lemma language_row_renames_witness :
  exists built short,
    language_row (sample_language "alam1246" "p.c." "yes" "no") = Some built /\
    built !! py "ID" = Some (Str (py "alam1246")) /\
    built !! py "Glottocode" = Some (Str (py "alam1246")) /\
    built !! py "id" = None /\
    language_row (sample_language "alam1246" "p.c." "no" "zz") = Some built /\
    language_row (sample_language_short "p.c.") = Some short /\
    short !! py "ID" = Some PyNone /\
    short !! py "Name" = Some (Str (py "Alamblak")).
Proof.
  assert (is_Some (language_row (sample_language "alam1246" "p.c." "yes" "no")))
    as [built E] by (apply is_Some_alt; vm_compute; exact I).
  assert (is_Some (language_row (sample_language_short "p.c.")))
    as [short E'] by (apply is_Some_alt; vm_compute; exact I).
  exists built, short. split; [exact E|].
  destruct (language_row_renames (sample_language "alam1246" "p.c." "yes" "no"))
    as (_ & Hext & _ & _ & Hbuilt).
  destruct (Hbuilt built E) as (_ & _ & HID & HG & _ & _ & Hid).
  split; [rewrite HID; evaluated|]. split; [rewrite HG; evaluated|].
  split; [exact Hid|]. split.
  { rewrite <- E. apply Hext.
    unfold LANGUAGE_COLUMN_MAP. cbn [fmap list_fmap snd].
    repeat (apply Forall_cons_2; [evaluated|]). apply Forall_nil_2. }
  split; [exact E'|].
  destruct (language_row_renames (sample_language_short "p.c."))
    as (_ & _ & _ & _ & Hshort).
  destruct (Hshort short E') as (Hall & _ & HID' & _).
  split; [rewrite HID'; evaluated|].
  pose proof (Forall_lookup_1 _ _ 4%nat _ Hall eq_refl) as HN.
  cbn [fst snd] in HN. rewrite HN. evaluated.
Defined.

Lemma add_source_citations_witness :
  add_source (sample_record "p.c.")
  = Some (<[py "Source_comment" := Str (py "p.c.")]> (sample_record "p.c.")) /\
  add_source (sample_record "\citet[12;14]{x}")
  = Some (<[py "Source" := StrList [py "x[12,14]"]]>
            (sample_record "\citet[12;14]{x}")).
Proof.
  split.
  - destruct (add_source_citations (sample_record "p.c.") (py "p.c.")
                ltac:(evaluated)) as (_ & _ & _ & H & Hpc).
    destruct (H Hpc) as (row' & -> & -> & _). reflexivity.
  - destruct (add_source_citations (sample_record "\citet[12;14]{x}")
                (py "\citet[12;14]{x}") ltac:(evaluated)) as (_ & _ & H & _).
    exact (H eq_refl).
Defined.

(** C3, the claim as stated fails: cleaning [\tld{\textsc{}}] gives
    [\tld{}], and cleaning that again gives [~]. *)
Lemma detex_not_idempotent :
  exists s t u,
    s = py "\tld{\textsc{}}" /\ t = py "\tld{}" /\ u = py "~" /\ t <> u /\
    forall upper_table,
      detex upper_table s = Some t /\ detex upper_table t = Some u /\
      (detex upper_table s ≫= detex upper_table) <> detex upper_table s.
Proof.
  eexists _, _, _. split; [reflexivity|]. split; [reflexivity|].
  split; [reflexivity|]. split; [py_neq|].
  intros upper_table. split; [evaluated|]. split; [evaluated|].
  intros H. vm_compute in H. discriminate H.
Qed.

Lemma idempotent_operations_witness :
  detex ∅ (py "\emph{\textsc{r.pst}}") = Some (py "\emph{R.PST}") /\
  detex ∅ (py "\emph{R.PST}") = Some (py "\emph{R.PST}").
Proof.
  destruct (proj2 (proj2 (idempotent_operations ∅)) (py "\emph{\textsc{r.pst}}"))
    as (t & Ht & Hidem & _).
  assert (t = py "\emph{R.PST}") as ->
    by (vm_compute in Ht; injection Ht as <-; reflexivity).
  split; [exact Ht|]. apply Hidem; evaluated.
Defined.

(** C4, the claim as stated fails: with a code whose [ID] is the empty
    string, the pair (parameter id, cell) is in the code mapping built
    from the code table and the code has the [Name] [Yes], yet the
    record's [Value] is the raw cell [yes] and it has no [Code_ID]. *)
Lemma make_value_empty_code_id :
  exists code_table code_id_map,
    code_table_of [sample_code "" "Yes"] [] = Some code_table /\
    code_id_map_of (od_values code_table) ∅ = Some code_id_map /\
    code_id_map !! (Some (py "A"), Some (py "yes")) = Some (Some []) /\
    (od_get code_table (Some []) ≫= fun code => code !! py "Name")
    = Some (Some (py "Yes")) /\
    (make_value (sample_language "alam1246" "p.c." "yes" "no")
                code_table code_id_map (Some (py "A"))
       ≫= fun value_row => value_row !! py "Value") = Some (Str (py "yes")) /\
    (make_value (sample_language "alam1246" "p.c." "yes" "no")
                code_table code_id_map (Some (py "A"))
       ≫= fun value_row => Some (value_row !! py "Code_ID")) = Some None.
Proof.
  exists [(Some [], sample_code "" "Yes")],
         {[ (Some (py "A"), Some (py "yes")) := Some [] ]}.
  repeat split; evaluated.
Qed.

Lemma make_value_lookup_witness :
  exists value_row short_row,
    make_value (sample_language "alam1246" "p.c." "yes" "no")
               [(Some (py "A-yes"), sample_code "A-yes" "Yes")]
               {[ (Some (py "A"), Some (py "yes")) := Some (py "A-yes") ]}
               (Some (py "A"))
    = Some value_row /\
    value_row !! py "Value" = Some (Str (py "Yes")) /\
    value_row !! py "Code_ID" = Some (Str (py "A-yes")) /\
    value_row !! py "ID" = Some (Str (py "alam1246-A")) /\
    make_value (sample_language_short "p.c.")
               [(Some (py "A-yes"), sample_code "A-yes" "Yes")]
               {[ (Some (py "A"), Some (py "yes")) := Some (py "A-yes") ]}
               (Some (py "A"))
    = Some short_row /\
    short_row !! py "Value" = Some PyNone /\
    short_row !! py "Code_ID" = None /\
    short_row !! py "ID" = Some (Str (py "None-A")) /\
    short_row !! py "Language_ID" = Some PyNone.
Proof.
  destruct (proj1 (make_value_lookup
                     (sample_language "alam1246" "p.c." "yes" "no")
                     [(Some (py "A-yes"), sample_code "A-yes" "Yes")]
                     {[ (Some (py "A"), Some (py "yes")) := Some (py "A-yes") ]}
                     (py "A") (Some (py "alam1246")) (Some (py "yes"))
                     ltac:(evaluated) ltac:(evaluated))
              (py "A-yes") (sample_code "A-yes" "Yes") (Some (py "Yes"))
              ltac:(evaluated) ltac:(py_neq) ltac:(evaluated) ltac:(evaluated))
    as (value_row & H & HV & HC & HI & _).
  assert (({[ (Some (py "A"), Some (py "yes")) := Some (py "A-yes") ]}
             : gmap (csv_cell * csv_cell) csv_cell) !! (Some (py "A"), None) = None)
    as Habsent by evaluated.
  destruct (proj2 (make_value_lookup
                     (sample_language_short "p.c.")
                     [(Some (py "A-yes"), sample_code "A-yes" "Yes")]
                     {[ (Some (py "A"), Some (py "yes")) := Some (py "A-yes") ]}
                     (py "A") None None
                     ltac:(evaluated) ltac:(evaluated))
              (or_introl Habsent))
    as (short_row & H' & HV' & HC' & HI' & HL' & _).
  exists value_row, short_row.
  split; [exact H|]. split; [exact HV|]. split; [exact HC|]. split; [exact HI|].
  split; [exact H'|]. split; [exact HV'|]. split; [exact HC'|].
  split; [exact HI'|exact HL'].
Defined.

Lemma value_table_cross_product_witness :
  exists out,
    sample_run sample_inputs = Some out /\
    length (ValueTable out) = 4%nat /\
    exists value_row,
      ValueTable out !! 3%nat = Some value_row /\
      value_row !! py "ID" = Some (Str (py "wara1300-B")) /\
      value_row !! py "Language_ID" = Some (Str (py "wara1300")) /\
      value_row !! py "Parameter_ID" = Some (Str (py "B")).
Proof.
  assert (is_Some (sample_run sample_inputs)) as [out E]
    by (apply is_Some_alt; vm_compute; exact I).
  exists out. split; [exact E|].
  destruct (value_table_cross_product _ _ _ _ _ sample_inputs out E) as [Hlen Hall].
  split; [exact Hlen|].
  destruct (Hall 1%nat 1%nat (sample_language "wara1300" "p.c." "no" "yes")
                 (full_row [(py "ID", py "B")]) eq_refl eq_refl)
    as (id & param_id & value_row & Hid & Hparam & Hv & Hids).
  exists value_row. split; [exact Hv|].
  assert (id = Some (py "wara1300")) as ->
    by (vm_compute in Hid; injection Hid as <-; reflexivity).
  assert (param_id = Some (py "B")) as ->
    by (vm_compute in Hparam; injection Hparam as <-; reflexivity).
  exact Hids.
Defined.

Lemma example_numbering_witness :
  exists out,
    sample_run sample_inputs = Some out /\
    length (ExampleTable out) = 3%nat /\
    (fun example : record => example !! py "ID") <$> ExampleTable out
    = [ Some (Str (py "alam1246-1")); Some (Str (py "wara1300-1"));
        Some (Str (py "alam1246-2")) ].
Proof.
  assert (is_Some (sample_run sample_inputs)) as [out E]
    by (apply is_Some_alt; vm_compute; exact I).
  exists out. split; [exact E|].
  split; [exact (proj1 (example_numbering _ _ _ _ _ sample_inputs out E))|].
  assert ((fun o => (fun example : record => example !! py "ID") <$> ExampleTable o)
            <$> sample_run sample_inputs
          = Some [ Some (Str (py "alam1246-1")); Some (Str (py "wara1300-1"));
                   Some (Str (py "alam1246-2")) ]) as Hc by evaluated.
  rewrite E in Hc. injection Hc as Hc. exact Hc.
Defined.

Lemma alignment_validator_witness :
  exists out,
    sample_run sample_inputs = Some out /\
    length (ExampleTable out) = 3%nat /\
    length (stderr out) = 3%nat.
Proof.
  assert (is_Some (make_tables ∅ sample_inputs)) as [t E]
    by (apply is_Some_alt; vm_compute; exact I).
  destruct (alignment_validator ∅ (list pystr) sample_add_component
              sample_add_sources [] sample_inputs t E)
    as (renderings & _ & _ & _ & Hlen & _ & Hrun).
  assert (is_Some (write_schema (list pystr) sample_add_component
                     sample_add_sources [] (bibtex_code t))) as [w Hw].
  { rewrite (proj1 (make_tables_read _ _ _ E)).
    apply is_Some_alt. vm_compute. exact I. }
  destruct (Hrun w Hw) as (out & Hout & _ & Hex & _).
  exists out. split; [exact Hout|]. split; [rewrite Hex; exact Hlen|].
  assert ((fun o => length (stderr o)) <$> sample_run sample_inputs = Some 3%nat)
    as Hc by evaluated.
  rewrite Hout in Hc. injection Hc as Hc. exact Hc.
Defined.



Lemma source_exactly_one_witness :
  exists out,
    sample_run sample_inputs = Some out /\
    Forall one_source (LanguageTable out) /\
    Forall one_source (ExampleTable out).
Proof.
  assert (is_Some (sample_run sample_inputs)) as [out E]
    by (apply is_Some_alt; vm_compute; exact I).
  exists out. split; [exact E|].
  destruct (source_exactly_one _ _ _ _ _ sample_inputs out E) as [HL HE].
  split; (eapply Forall_impl; [eassumption|]); intros row [_ H]; exact H.
Defined.

Lemma render_example_total_witness :
  render_example sample_example
  = Some (py "(alam1246-1)  a  b   C  d" ++ [LF] ++ py "              x  yy  z") /\
  render_example sample_example_padded
  = Some (py "(wara1300-1)  ab  c" ++ [LF] ++ py "              x   yyyy").
Proof.
  split.
  - rewrite (proj1 (render_example_total sample_example (py "alam1246-1")
                      [py "a"; py "b"; py "C"; py "d"] [py "x"; py "yy"; py "z"]
                      eq_refl eq_refl eq_refl)).
    evaluated.
  - rewrite (proj1 (render_example_total sample_example_padded (py "wara1300-1")
                      [py "ab"; py "c"] [py "x"; py "yyyy"]
                      eq_refl eq_refl eq_refl)).
    evaluated.
Defined.

Lemma no_example_under_wara1247_witness :
  exists out example,
    sample_run sample_inputs = Some out /\
    ExampleTable out !! 1%nat = Some example /\
    example !! py "Language_ID" = Some (Str (py "wara1300")).
Proof.
  assert (is_Some (sample_run sample_inputs)) as [out E]
    by (apply is_Some_alt; vm_compute; exact I).
  assert (is_Some (ExampleTable out !! 1%nat)) as [example Hk].
  { destruct (cmd_makecldf_tables _ _ _ _ _ _ _ E) as (t & Ht & _ & _ & _ & ->).
    apply lookup_lt_is_Some_2.
    rewrite (proj1 (example_table_built _ _ _ Ht)). cbn. lia. }
  exists out, example. split; [exact E|]. split; [exact Hk|].
  destruct (no_example_under_wara1247 _ _ _ _ _ sample_inputs out E 1%nat example Hk)
    as (_ & cells & lang_id & Hc & Hl & Hw & _).
  apply Hw. cbn in Hc. injection Hc as <-. cbn in Hl. by injection Hl as <-.
Defined.

Lemma code_mapping_sound_witness :
  exists code,
    od_get [(Some (py "A-yes"), sample_code "A-yes" "Yes")] (Some (py "A-yes"))
    = Some code /\
    code ∈ [sample_code "A-yes" "Yes"] /\
    code !! py "Parameter_ID" = Some (Some (py "A")).
Proof.
  destruct (code_mapping_sound [sample_code "A-yes" "Yes"]
              [(Some (py "A-yes"), sample_code "A-yes" "Yes")]
              {[ (Some (py "A"), Some (py "yes")) := Some (py "A-yes") ]}
              ltac:(evaluated) ltac:(evaluated)
              (Some (py "A")) (Some (py "yes")) (Some (py "A-yes")) ltac:(evaluated))
    as (code & Hget & Hin & _ & Hp & _).
  exists code. split; [exact Hget|]. split; [exact Hin|exact Hp].
Defined.

Lemma sample_inputs_well_formed : well_formed sample_inputs.
Proof.
  unfold well_formed, sample_inputs.
  cbn [estimative_csv estimative_ex_csv parameters_csv codes_csv].
  split; [|split; [|split]].
  - unfold LANGUAGE_COLUMN_MAP. cbn [fmap list_fmap snd].
    repeat (apply Forall_cons_2;
            [split;
             [repeat (apply Forall_cons_2; [apply is_Some_alt; vm_compute; exact I|]);
              apply Forall_nil_2
             |eexists; evaluated]|]).
    apply Forall_nil_2.
  - apply Forall_cons_2; [|apply Forall_cons_2; [|apply Forall_nil_2]].
    + exists (py "A"). split; [evaluated|].
      repeat (apply Forall_cons_2; [apply is_Some_alt; vm_compute; exact I|]).
      apply Forall_nil_2.
    + exists (py "B"). split; [evaluated|].
      repeat (apply Forall_cons_2; [apply is_Some_alt; vm_compute; exact I|]).
      apply Forall_nil_2.
  - repeat (apply Forall_cons_2;
            [repeat (apply Forall_cons_2; [apply is_Some_alt; vm_compute; exact I|]);
             apply Forall_nil_2|]).
    apply Forall_nil_2.
  - repeat (apply Forall_cons_2; [cbn [length]; lia|]). apply Forall_nil_2.
Qed.

Lemma cmd_makecldf_succeeds_witness : is_Some (sample_run sample_inputs).
Proof.
  apply (cmd_makecldf_succeeds ∅ (list pystr) sample_add_component
           sample_add_sources [] sample_inputs sample_inputs_well_formed).
  apply is_Some_alt. vm_compute. exact I.
Defined.

(** A language row that is shorter than the header does not end the run:
    the cells that are missing are [None], in the language table and in
    the value table. *)
Lemma cmd_makecldf_needs_witness :
  exists out,
    sample_run sample_inputs_short = Some out /\
    (fun value_row : record => value_row !! py "Value") <$> ValueTable out
    = [Some PyNone; Some PyNone] /\
    (fun value_row : record => value_row !! py "ID") <$> ValueTable out
    = [Some (Str (py "None-A")); Some (Str (py "None-B"))] /\
    (fun language : record => language !! py "ID") <$> LanguageTable out
    = [Some PyNone] /\
    Forall (fun row : raw_row =>
              exists text : pystr, row !! py "reference" = Some (Some text))
           (estimative_csv sample_inputs_short).
Proof.
  assert (is_Some (sample_run sample_inputs_short)) as [out E]
    by (apply is_Some_alt; vm_compute; exact I).
  exists out. split; [exact E|].
  assert ((fun o => ((fun value_row : record => value_row !! py "Value")
                       <$> ValueTable o,
                     (fun value_row : record => value_row !! py "ID")
                       <$> ValueTable o,
                     (fun language : record => language !! py "ID")
                       <$> LanguageTable o))
            <$> sample_run sample_inputs_short
          = Some ([Some PyNone; Some PyNone],
                  [Some (Str (py "None-A")); Some (Str (py "None-B"))],
                  [Some PyNone])) as Hc by evaluated.
  rewrite E in Hc. injection Hc as HV HI HL.
  split; [exact HV|]. split; [exact HI|]. split; [exact HL|].
  destruct (cmd_makecldf_needs _ _ _ _ _ sample_inputs_short (ex_intro _ out E))
    as (Hrows & _).
  eapply Forall_impl; [exact Hrows|]. intros row [_ H]. exact H.
Defined.

Lemma example_ids_unique_witness :
  exists out,
    sample_run sample_inputs = Some out /\
    NoDup ((fun example : record => example !! py "ID") <$> ExampleTable out).
Proof.
  assert (is_Some (sample_run sample_inputs)) as [out E]
    by (apply is_Some_alt; vm_compute; exact I).
  exists out. split; [exact E|].
  exact (example_ids_unique _ _ _ _ _ sample_inputs out E).
Defined.

Lemma render_example_columns_witness :
  exists before_w after_w before_g after_g,
    render_example sample_example
    = Some ((py "(" ++ py "alam1246-1" ++ py ")  ")
            ++ (before_w ++ py "b" ++ after_w)
            ++ [LF]
            ++ repeat SPACE (length (py "(" ++ py "alam1246-1" ++ py ")  "))
            ++ (before_g ++ py "yy" ++ after_g)) /\
    length before_w = 3%nat /\ length before_g = 3%nat.
Proof.
  assert (token (py "b")) as Hb by (split; [py_neq|decide_literal]).
  assert (token (py "yy")) as Hy by (split; [py_neq|decide_literal]).
  exact (render_example_columns sample_example (py "alam1246-1")
           [py "a"; py "b"; py "C"; py "d"] [py "x"; py "yy"; py "z"]
           1%nat (py "b") (py "yy")
           eq_refl eq_refl eq_refl eq_refl eq_refl Hb Hy).
Defined.

Lemma add_source_citation_form_witness :
  add_source (sample_record "\citealt[12;14]{x} and others")
  = Some (<[py "Source" := StrList [py "x[12,14]"]]>
            (sample_record "\citealt[12;14]{x} and others")).
Proof.
  assert (citation_parts (py "alt") (Some (py "12;14")) (py "x")) as Hparts
    by (split; [decide_literal|split; [decide_literal|split; [py_neq|decide_literal]]]).
  exact (proj1 (add_source_citation_form
                  (sample_record "\citealt[12;14]{x} and others")
                  (py "\citealt[12;14]{x} and others") ltac:(evaluated))
           (py "alt") (Some (py "12;14")) (py "x") (py " and others")
           Hparts ltac:(evaluated)).
Defined.

Lemma detex_small_caps_witness :
  detex ∅ (py "\textsc{" ++ py "r.pst" ++ ord "}" :: py "-3sg")
  = Some (upper ∅ (py "r.pst") ++ py "-3sg").
Proof.
  assert (ord "}" ∉ py "r.pst") as Harg by decide_literal.
  assert (occurs (py "\textsc{") (py "-3sg") = false) as Hrest by evaluated.
  assert (occurs (py "$\rightarrow$")
            (py "\textsc{" ++ py "r.pst" ++ ord "}" :: py "-3sg") = false)
    as H1 by evaluated.
  assert (occurs (py "$\emptyset$")
            (py "\textsc{" ++ py "r.pst" ++ ord "}" :: py "-3sg") = false)
    as H2 by evaluated.
  assert (occurs (py "\tld{}")
            (py "\textsc{" ++ py "r.pst" ++ ord "}" :: py "-3sg") = false)
    as H3 by evaluated.
  exact (proj1 (detex_small_caps ∅ (py "r.pst") (py "-3sg") Harg
                  (ord "}" :: py "-3sg") H1 H2 H3)
           (conj eq_refl Hrest)).
Defined.

Lemma language_table_rows_witness :
  exists out language,
    sample_run sample_inputs = Some out /\
    length (LanguageTable out) = 2%nat /\
    LanguageTable out !! 1%nat = Some language /\
    language !! py "Glottocode" = Some (Str (py "wara1300")) /\
    language !! py "A" = None.
Proof.
  assert (is_Some (sample_run sample_inputs)) as [out E]
    by (apply is_Some_alt; vm_compute; exact I).
  destruct (language_table_rows _ _ _ _ _ sample_inputs out E) as [Hlen Hall].
  assert (is_Some (LanguageTable out !! 1%nat)) as [language Hk]
    by (apply lookup_lt_is_Some_2; rewrite Hlen; cbn; lia).
  exists out, language. split; [exact E|]. split; [exact Hlen|]. split; [exact Hk|].
  destruct (Hall 1%nat (sample_language "wara1300" "p.c." "no" "yes") language
              eq_refl Hk) as [Hpairs Hkeys].
  split.
  - rewrite (Hpairs (py "Glottocode") (py "id")) by decide_literal. evaluated.
  - destruct (language !! py "A") as [v|] eqn:HA; [|reflexivity].
    exfalso. destruct (Hkeys (py "A") (ex_intro _ v HA)) as [H|[H|H]];
      revert H; apply (bool_decide_unpack _); vm_compute; exact I.
Defined.

Lemma tables_as_read_witness :
  exists out repeated,
    sample_run sample_inputs = Some out /\
    CodeTable out = codes_csv sample_inputs /\
    dataset out
    = [ py "LanguageTable"; py "ParameterTable"; py "CodeTable"; py "ExampleTable";
        py "@book{k}" ] /\
    sample_run sample_inputs_repeated = Some repeated /\
    CodeTable repeated = [ sample_code "k1" "three"; sample_code "k2" "two" ].
Proof.
  assert (is_Some (sample_run sample_inputs)) as [out E]
    by (apply is_Some_alt; vm_compute; exact I).
  assert (is_Some (sample_run sample_inputs_repeated)) as [repeated E']
    by (apply is_Some_alt; vm_compute; exact I).
  exists out, repeated. split; [exact E|].
  destruct (tables_as_read _ _ _ _ _ sample_inputs out E)
    as (_ & _ & _ & _ & _ & Hfile & _ & Hw).
  split.
  { apply Hfile. cbn [sample_inputs codes_csv fmap list_fmap]. apply NoDup_singleton. }
  split.
  { assert (Some (dataset out)
            = Some [ py "LanguageTable"; py "ParameterTable"; py "CodeTable";
                     py "ExampleTable"; py "@book{k}" ]) as Hd
      by (rewrite <- Hw; evaluated).
    injection Hd as Hd. exact Hd. }
  split; [exact E'|].
  assert (CodeTable <$> sample_run sample_inputs_repeated
          = Some [ sample_code "k1" "three"; sample_code "k2" "two" ]) as Hc
    by evaluated.
  rewrite E' in Hc. injection Hc as Hc. exact Hc.
Defined.

Lemma example_table_records_witness :
  exists out example,
    sample_run sample_inputs = Some out /\
    ExampleTable out !! 0%nat = Some example /\
    example !! py "Translated_Text" = Some (Str (py "one")) /\
    mismatched example.
Proof.
  assert (is_Some (sample_run sample_inputs)) as [out E]
    by (apply is_Some_alt; vm_compute; exact I).
  assert (is_Some (ExampleTable out !! 0%nat)) as [example Hk].
  { destruct (cmd_makecldf_tables _ _ _ _ _ _ _ E) as (t & Ht & _ & _ & _ & ->).
    apply lookup_lt_is_Some_2.
    rewrite (proj1 (example_table_built _ _ _ Ht)). cbn. lia. }
  exists out, example. split; [exact E|]. split; [exact Hk|].
  destruct (example_table_records _ _ _ _ _ sample_inputs out E 0%nat
              [py "alam1246"; py "a b \textsc{c d"; py "x y z"; py " one "; py "p.c."]
              example eq_refl Hk)
    as (lang_id & text & gloss & trans & reference & primary & words & glosses
        & Hfive & _ & _ & _ & _ & _ & _ & HT & _ & Hm).
  cbn [take] in Hfive. injection Hfive as <- <- <- <- <-.
  split.
  - rewrite HT. evaluated.
  - apply Hm. vm_compute. discriminate.
Defined.
